(** * ZebraBlockHeap: a shallow embedding of
      syzygy/agent/asan/heaps/zebra_block_heap.cc

    The heap reserves one region, cuts it into two-page slabs and serves
    every allocation from one slab, flush against the end of the slab's
    first ("even") page.  Freed slabs may wait in a quarantine queue.

    Integers of type [size_t] and pointers are modelled as [Z] with the
    wrap-around of the machine written out ([wrap]).  The object's fields
    become the record [ZebraBlockHeap]; every member function becomes a
    function in the monad [M], which threads the object and stops on a
    failed assertion or on an access outside the slab table. *)

From Stdlib Require Import ZArith Bool Lia SpecFloat QArith.
From stdpp Require Import base tactics option numbers list list_numbers
  relations.

Local Open Scope Z_scope.

(** ** Platform constants

    The page size, the shadow ratio, the width of [size_t], the default
    quarantine ratio and the build mode (whether [DCHECK] is compiled in)
    come from headers outside this translation unit: they are taken as
    parameters. *)
Class Platform := {
  size_bits : Z;
  GetPageSize : Z;
  kShadowRatio : Z;
  kDefaultZebraBlockHeapQuarantineRatio : spec_float;
  dcheck_is_on : bool
}.

(** What the rest of the development assumes of the constants: the shadow
    ratio divides the page size and a slab fits in a [size_t]. *)
Record platform_ok `{Platform} : Prop := {
  size_bits_pos : 0 < size_bits;
  shadow_ratio_pos : 0 < kShadowRatio;
  page_size_pos : 0 < GetPageSize;
  shadow_divides_page : GetPageSize mod kShadowRatio = 0;
  slab_fits : 2 * GetPageSize < 2 ^ size_bits
}.

(** ** Descriptors

    The types below are declared in headers; they are given here with the
    enumerators and fields this translation unit uses. *)

Inductive SlabState := kFreeSlab | kAllocatedSlab | kQuarantinedSlab.

Global Instance SlabState_eq_dec : EqDecision SlabState.
Proof. solve_decision. Defined.

(** Modelled from the spec: the declaration of [CompactBlockInfo]
    (block.h) is not part of this translation unit.  The five named fields
    are the ones this file reads and writes.  [memset] and [memcmp] act on
    all [sizeof(info)] bytes of the object, so the bits of the object that
    the named fields do not cover (unused bits of a bit-field unit, padding)
    are kept as one number, [spare_bits]: [memset] zeroes them, an
    assignment to a field leaves them as they are, a copy of the object
    copies them, and [memcmp] compares them. *)
Record CompactBlockInfo := {
  block : Z;
  block_size : Z;
  header_size : Z;
  trailer_size : Z;
  is_nested : bool;
  spare_bits : Z
}.

Global Instance CompactBlockInfo_eq_dec : EqDecision CompactBlockInfo.
Proof. solve_decision. Defined.

Record SlabInfo := {
  state : SlabState;
  info : CompactBlockInfo
}.

(** [memset(&info, 0, sizeof(info))]. *)
Definition zero_info : CompactBlockInfo :=
  {| block := 0; block_size := 0; header_size := 0; trailer_size := 0;
     is_nested := false; spare_bits := 0 |}.

(** [memcmp(&a, &b, sizeof(b)) == 0] on two descriptors: the two objects
    agree on every byte, that is on the five named fields and on the bits
    beside them. *)
Definition memcmp_eq (a b : CompactBlockInfo) : bool := bool_decide (a = b).

Module Layout.
(** Modelled from the spec: the layout descriptor the planner fills in
    (block.h is not part of this translation unit): header size, header
    padding, body size, trailer padding, trailer size and the total
    block size. *)
Record BlockLayout := {
  block_size : Z;
  header_size : Z;
  header_padding_size : Z;
  body_size : Z;
  trailer_padding_size : Z;
  trailer_size : Z
}.

(** Where the body of a block laid out by [l] begins when the block
    begins at [blk]: after the header and its padding. *)
Definition body_start (l : BlockLayout) (blk : Z) : Z :=
  blk + header_size l + header_padding_size l.
End Layout.
Export Layout(BlockLayout).

(** The arguments of one call of the layout planner. *)
Record PlannerCall := {
  pc_chunk_size : Z;
  pc_alignment : Z;
  pc_size : Z;
  pc_min_left_redzone_size : Z;
  pc_min_right_redzone_size : Z
}.

(** ** Collaborators

    The layout planner and the reservation primitive of the operating
    system are outside the heap; the heap only calls them.  The memory
    notifier is an object the heap is constructed with: [memory_notifier]
    is the pointer to it the constructor receives. *)
Class Collaborators := {
  BlockPlanLayout : Z -> Z -> Z -> Z -> Z -> BlockLayout -> bool * BlockLayout;
  VirtualAlloc : Z -> Z;
  memory_notifier : Z
}.

(** ** The index queues *)

Module CircularQueue.
(** Modelled from the spec: the queue type of [free_slabs_] and
    [quarantine_] (circular_queue.h is not part of this translation unit).
    The spec describes both as FIFOs of slab indices.  The constructor
    gives each queue room for [slab_count_] indices; the model does not
    bound the queues, and [queues_within_capacity] shows that under the
    invariant of the heap they never hold more than that.  [empty] tells
    whether the FIFO holds no index. *)
Definition empty (q : list Z) : bool :=
  match q with [] => true | _ :: _ => false end.

(** Modelled from the spec: the number of indices the FIFO holds. *)
Definition size (q : list Z) : Z := Z.of_nat (length q).

(** Modelled from the spec: the oldest index of the FIFO, at its head. *)
Definition front (q : list Z) : option Z := head q.

(** Modelled from the spec: the FIFO without its head. *)
Definition pop (q : list Z) : list Z := tail q.

(** Modelled from the spec: the FIFO with [x] appended at its tail. *)
Definition push (x : Z) (q : list Z) : list Z := q ++ [x].
End CircularQueue.

(** ** The heap object *)

Record ZebraBlockHeap := {
  heap_address_ : Z;
  heap_size_ : Z;
  slab_count_ : Z;
  slab_info_ : list SlabInfo;
  quarantine_ratio_ : spec_float;
  free_slabs_ : list Z;
  quarantine_ : list Z
}.

Definition with_slab_info (f : list SlabInfo -> list SlabInfo)
    (h : ZebraBlockHeap) : ZebraBlockHeap :=
  {| heap_address_ := heap_address_ h; heap_size_ := heap_size_ h;
     slab_count_ := slab_count_ h; slab_info_ := f (slab_info_ h);
     quarantine_ratio_ := quarantine_ratio_ h;
     free_slabs_ := free_slabs_ h; quarantine_ := quarantine_ h |}.

Definition with_free_slabs (f : list Z -> list Z)
    (h : ZebraBlockHeap) : ZebraBlockHeap :=
  {| heap_address_ := heap_address_ h; heap_size_ := heap_size_ h;
     slab_count_ := slab_count_ h; slab_info_ := slab_info_ h;
     quarantine_ratio_ := quarantine_ratio_ h;
     free_slabs_ := f (free_slabs_ h); quarantine_ := quarantine_ h |}.

Definition with_quarantine (f : list Z -> list Z)
    (h : ZebraBlockHeap) : ZebraBlockHeap :=
  {| heap_address_ := heap_address_ h; heap_size_ := heap_size_ h;
     slab_count_ := slab_count_ h; slab_info_ := slab_info_ h;
     quarantine_ratio_ := quarantine_ratio_ h;
     free_slabs_ := free_slabs_ h; quarantine_ := f (quarantine_ h) |}.

Definition with_quarantine_ratio (r : spec_float)
    (h : ZebraBlockHeap) : ZebraBlockHeap :=
  {| heap_address_ := heap_address_ h; heap_size_ := heap_size_ h;
     slab_count_ := slab_count_ h; slab_info_ := slab_info_ h;
     quarantine_ratio_ := r;
     free_slabs_ := free_slabs_ h; quarantine_ := quarantine_ h |}.

(** ** Outcomes and the monad of member functions *)

(** Why a call did not return: a [DCHECK] or [CHECK] fired, the slab
    table was indexed outside its bounds, or a loop ran out of fuel. *)
Inductive fault := CheckFailed | OutOfBounds | OutOfFuel.

Inductive outcome (A : Type) :=
| Done (a : A) (h : ZebraBlockHeap)
| Stopped (f : fault).
Arguments Done {A} a h.
Arguments Stopped {A} f.

Definition M (A : Type) : Type := ZebraBlockHeap -> outcome A.

Definition ret {A} (a : A) : M A := fun h => Done a h.

Definition bind {A B} (m : M A) (k : A -> M B) : M B :=
  fun h => match m h with
           | Done a h' => k a h'
           | Stopped f => Stopped f
           end.

Notation "x <-- m ;; k" := (bind m (fun x => k))
  (at level 100, m at next level, right associativity).
Notation "m ;;; k" := (bind m (fun _ => k))
  (at level 100, right associativity).

Definition get : M ZebraBlockHeap := fun h => Done h h.
Definition modify (f : ZebraBlockHeap -> ZebraBlockHeap) : M unit :=
  fun h => Done tt (f h).
Definition stop {A} (f : fault) : M A := fun _ => Stopped f.

Section Heap.
Context `{Platform}.

(** *** Machine arithmetic *)

Definition NULL : Z := 0.

Definition wrap (z : Z) : Z := z mod 2 ^ size_bits.
Definition size_add (a b : Z) : Z := wrap (a + b).
Definition size_sub (a b : Z) : Z := wrap (a - b).
Definition size_mul (a b : Z) : Z := wrap (a * b).

(** Modelled from the spec: the "invalid index" sentinel of the address
    lookup (declared in zebra_block_heap.h), taken to be the greatest
    [size_t]. *)
Definition kInvalidSlabIndex : Z := wrap (-1).

(** Modelled from the spec: the "unknown size" sentinel of
    [GetAllocationSize] (declared with the heap interface), taken to be the
    greatest [size_t]. *)
Definition kUnknownSize : Z := wrap (-1).

Definition kSlabSize : Z := size_mul 2 GetPageSize.
Definition kMaximumAllocationSize : Z := GetPageSize.

(** Modelled from the spec: [common::AlignDown] (align.h is not part of
    this translation unit) rounds down to the nearest multiple of the
    alignment. *)
Definition AlignDown (value alignment : Z) : Z :=
  size_sub value (value mod alignment).

(** Modelled from the spec: [common::AlignUp] rounds up to a multiple of
    the alignment. *)
Definition AlignUp (value alignment : Z) : Z :=
  AlignDown (size_sub (size_add value alignment) 1) alignment.

(** Modelled from the spec: [common::IsAligned] tells whether the value is
    a multiple of the alignment. *)
Definition IsAligned (value alignment : Z) : bool :=
  value mod alignment =? 0.

(** *** Assertions *)

Definition DCHECK (c : bool) : M unit :=
  if dcheck_is_on && negb c then stop CheckFailed else ret tt.
Definition CHECK (c : bool) : M unit :=
  if c then ret tt else stop CheckFailed.

(** *** The slab table: [slab_info_[i]] *)

Definition slab_lookup (l : list SlabInfo) (i : Z) : option SlabInfo :=
  if 0 <=? i then l !! Z.to_nat i else None.

Definition slab_at (i : Z) : M SlabInfo :=
  fun h => match slab_lookup (slab_info_ h) i with
           | Some s => Done s h
           | None => Stopped OutOfBounds
           end.

Definition slab_store (i : Z) (s : SlabInfo) : M unit :=
  fun h => match slab_lookup (slab_info_ h) i with
           | Some _ => Done tt (with_slab_info (<[Z.to_nat i := s]>) h)
           | None => Stopped OutOfBounds
           end.

(** *** Address arithmetic *)

Definition GetSlabAddress (h : ZebraBlockHeap) (index : Z) : Z :=
  if slab_count_ h <=? index then NULL
  else size_add (heap_address_ h) (size_mul index kSlabSize).

Definition GetSlabIndex (h : ZebraBlockHeap) (address : Z) : Z :=
  if (address <? heap_address_ h)
     || (size_add (heap_address_ h) (heap_size_ h) <=? address)
  then kInvalidSlabIndex
  else size_sub address (heap_address_ h) / kSlabSize.

(** *** The byte allocator *)

(** Returns the index of the slab whose [SlabInfo] the source returns a
    pointer to; [None] is the null pointer. *)
Definition AllocateImpl (bytes : Z) : M (option Z) :=
  if (bytes =? 0) || (GetPageSize <? bytes) then ret None else
  h <-- get ;;
  match CircularQueue.front (free_slabs_ h) with
  | None => ret None
  | Some slab_index =>
      DCHECK (negb (slab_index =? kInvalidSlabIndex)) ;;;
      modify (with_free_slabs CircularQueue.pop) ;;;
      let slab_address := GetSlabAddress h slab_index in
      DCHECK (negb (slab_address =? NULL)) ;;;
      let alloc := size_sub (size_add slab_address GetPageSize) bytes in
      let alloc := AlignDown alloc kShadowRatio in
      s <-- slab_at slab_index ;;
      slab_store slab_index
        {| state := kAllocatedSlab;
           info := {| block := alloc; block_size := bytes;
                      header_size := 0; trailer_size := 0;
                      is_nested := false;
                      spare_bits := spare_bits (info s) |} |} ;;;
      ret (Some slab_index)
  end.

Definition Allocate (bytes : Z) : M Z :=
  slab_info <-- AllocateImpl bytes ;;
  match slab_info with
  | None => ret NULL
  | Some i => s <-- slab_at i ;; ret (block (info s))
  end.

Definition Free (alloc : Z) : M bool :=
  if alloc =? NULL then ret true else
  h <-- get ;;
  let slab_index := GetSlabIndex h alloc in
  if slab_index =? kInvalidSlabIndex then ret false else
  s <-- slab_at slab_index ;;
  if negb (block (info s) =? alloc) then ret false else
  DCHECK (negb (bool_decide (state s = kQuarantinedSlab))) ;;;
  if bool_decide (state s = kFreeSlab) then ret false else
  slab_store slab_index {| state := kFreeSlab; info := zero_info |} ;;;
  modify (with_free_slabs (CircularQueue.push slab_index)) ;;;
  ret true.

Definition IsAllocated (alloc : Z) : M bool :=
  if alloc =? NULL then ret false else
  h <-- get ;;
  let slab_index := GetSlabIndex h alloc in
  if slab_index =? kInvalidSlabIndex then ret false else
  s <-- slab_at slab_index ;;
  if bool_decide (state s = kFreeSlab) then ret false else
  if negb (block (info s) =? alloc) then ret false else
  ret true.

Definition GetAllocationSize (alloc : Z) : M Z :=
  if alloc =? NULL then ret kUnknownSize else
  h <-- get ;;
  let slab_index := GetSlabIndex h alloc in
  if slab_index =? kInvalidSlabIndex then ret kUnknownSize else
  s <-- slab_at slab_index ;;
  if bool_decide (state s = kFreeSlab) then ret kUnknownSize else
  if negb (block (info s) =? alloc) then ret kUnknownSize else
  ret (block_size (info s)).

(** *** The block layout adapter *)

(** What [AllocateBlock] hands back: the pointer it returns, the layout
    left in the caller's [BlockLayout], and the calls it made to the
    layout planner, oldest first. *)
Record AllocateBlockResult := {
  ab_alloc : Z;
  ab_layout : BlockLayout;
  ab_planner_calls : list PlannerCall
}.

Context `{Collaborators}.

(** The caller's [layout] object is passed by value and handed back, so
    the source's [DCHECK_NE(nullptr, layout)] has nothing to check. *)
Definition AllocateBlock (size min_left_redzone_size min_right_redzone_size : Z)
    (layout : BlockLayout) : M AllocateBlockResult :=
  if GetPageSize <? size_add min_left_redzone_size size
  then ret {| ab_alloc := NULL; ab_layout := layout; ab_planner_calls := [] |}
  else
  if GetPageSize <? min_right_redzone_size
  then ret {| ab_alloc := NULL; ab_layout := layout; ab_planner_calls := [] |}
  else
  let call :=
    {| pc_chunk_size := GetPageSize; pc_alignment := kShadowRatio;
       pc_size := size; pc_min_left_redzone_size := min_left_redzone_size;
       pc_min_right_redzone_size := Z.max GetPageSize min_right_redzone_size |} in
  let planned :=
    BlockPlanLayout GetPageSize kShadowRatio size min_left_redzone_size
      (Z.max GetPageSize min_right_redzone_size) layout in
  let layout := snd planned in
  let fail := {| ab_alloc := NULL; ab_layout := layout;
                 ab_planner_calls := [call] |} in
  if negb (fst planned) then ret fail else
  if negb (Layout.block_size layout =? kSlabSize) then ret fail else
  let right_redzone_size :=
    size_add (Layout.trailer_size layout) (Layout.trailer_padding_size layout) in
  if right_redzone_size <? GetPageSize then ret fail else
  if kShadowRatio <=? size_sub right_redzone_size GetPageSize then ret fail else
  slab_info <-- AllocateImpl GetPageSize ;;
  alloc <-- match slab_info with
            | Some i =>
                s <-- slab_at i ;;
                slab_store i
                  {| state := state s;
                     info :=
                       {| block := block (info s);
                          block_size := Layout.block_size layout;
                          header_size :=
                            size_add (Layout.header_size layout)
                                     (Layout.header_padding_size layout);
                          trailer_size :=
                            size_add (Layout.trailer_size layout)
                                     (Layout.trailer_padding_size layout);
                          is_nested := false;
                          spare_bits := spare_bits (info s) |} |} ;;;
                ret (block (info s))
            | None => ret NULL
            end ;;
  DCHECK (alloc mod kShadowRatio =? 0) ;;;
  ret {| ab_alloc := alloc; ab_layout := layout; ab_planner_calls := [call] |}.

(** [FreeBlock] reads only the block address of the [BlockInfo] it is
    given. *)
Definition FreeBlock (block_info_block : Z) : M bool :=
  DCHECK (negb (block_info_block =? NULL)) ;;;
  freed <-- Free block_info_block ;;
  if negb freed then ret false else ret true.

(** *** The quarantine *)

(** [static_cast<float>(n)] for a [size_t]: the nearest binary32 value. *)
Definition to_float (n : Z) : spec_float := binary_normalize 24 128 n 0 false.

(** Division of binary32 values. *)
Definition float_div (x y : spec_float) : spec_float := SFdiv 24 128 x y.

Definition QuarantineInvariantIsSatisfied (h : ZebraBlockHeap) : bool :=
  CircularQueue.empty (quarantine_ h)
  || SFleb (float_div (to_float (CircularQueue.size (quarantine_ h)))
                      (to_float (slab_count_ h)))
           (quarantine_ratio_ h).

Definition Push (info0 : CompactBlockInfo) : M bool :=
  h <-- get ;;
  let slab_index := GetSlabIndex h (block info0) in
  if slab_index =? kInvalidSlabIndex then ret false else
  s <-- slab_at slab_index ;;
  if negb (bool_decide (state s = kAllocatedSlab)) then ret false else
  if negb (memcmp_eq (info s) info0) then ret false else
  modify (with_quarantine (CircularQueue.push slab_index)) ;;;
  slab_store slab_index {| state := kQuarantinedSlab; info := info s |} ;;;
  ret true.

(** [Pop] returns its boolean together with the content of [*info]
    afterwards; [info0] is the content before the call. *)
Definition Pop (info0 : CompactBlockInfo) : M (bool * CompactBlockInfo) :=
  h <-- get ;;
  if QuarantineInvariantIsSatisfied h then ret (false, info0) else
  match CircularQueue.front (quarantine_ h) with
  | None => stop OutOfBounds
  | Some slab_index =>
      DCHECK (negb (slab_index =? kInvalidSlabIndex)) ;;;
      modify (with_quarantine CircularQueue.pop) ;;;
      s <-- slab_at slab_index ;;
      DCHECK (bool_decide (state s = kQuarantinedSlab)) ;;;
      slab_store slab_index {| state := kAllocatedSlab; info := info s |} ;;;
      ret (true, info s)
  end.

(** The [while (!quarantine_.empty())] loop of [Empty]; [infos] is the
    caller's vector. *)
Fixpoint Empty_loop (fuel : nat) (infos : list CompactBlockInfo)
    : M (list CompactBlockInfo) :=
  fun h =>
    match CircularQueue.front (quarantine_ h) with
    | None => Done infos h
    | Some slab_index =>
        match fuel with
        | O => Stopped OutOfFuel
        | S fuel' =>
            (DCHECK (negb (slab_index =? kInvalidSlabIndex)) ;;;
             modify (with_quarantine CircularQueue.pop) ;;;
             s <-- slab_at slab_index ;;
             slab_store slab_index
               {| state := kAllocatedSlab; info := info s |} ;;;
             Empty_loop fuel' (infos ++ [info s])) h
        end
    end.

(** Every iteration removes one entry, so the length of the queue is fuel
    enough. *)
Definition Empty (infos : list CompactBlockInfo) : M (list CompactBlockInfo) :=
  fun h => Empty_loop (length (quarantine_ h)) infos h.

Definition GetCount : M Z :=
  h <-- get ;; ret (CircularQueue.size (quarantine_ h)).

Definition set_quarantine_ratio (quarantine_ratio : spec_float) : M unit :=
  DCHECK (SFleb (to_float 0) quarantine_ratio) ;;;
  DCHECK (SFleb quarantine_ratio (to_float 1)) ;;;
  modify (with_quarantine_ratio quarantine_ratio).

(** *** Construction *)

(** One iteration of the constructor's loop over the slabs. *)
Definition ctor_init_slab (h : ZebraBlockHeap) (i : Z) : ZebraBlockHeap :=
  with_free_slabs (CircularQueue.push i)
    (with_slab_info (<[Z.to_nat i := {| state := kFreeSlab; info := zero_info |}]>) h).

(** The constructor.  The pointer to the memory notifier is asserted not
    to be null; the notifier itself is only told about the region, which
    changes nothing of the heap, and that call is left out.
    [slab_info_.resize] creates the entries, which the loop then overwrites
    one by one. *)
Definition ZebraBlockHeap_new (heap_size : Z) : outcome unit :=
  let heap_size_0 := AlignUp heap_size kSlabSize in
  let slab_count_0 := heap_size_0 / kSlabSize in
  let heap_address_0 := VirtualAlloc heap_size_0 in
  (DCHECK (negb (memory_notifier =? NULL)) ;;;
   CHECK (negb (heap_address_0 =? NULL)) ;;;
   DCHECK (IsAligned heap_address_0 GetPageSize) ;;;
   modify (with_slab_info (fun _ =>
     replicate (Z.to_nat slab_count_0) {| state := kFreeSlab; info := zero_info |})) ;;;
   modify (fun h => foldl ctor_init_slab h (seqZ 0 slab_count_0)))
  {| heap_address_ := heap_address_0; heap_size_ := heap_size_0;
     slab_count_ := slab_count_0; slab_info_ := [];
     quarantine_ratio_ := kDefaultZebraBlockHeapQuarantineRatio;
     free_slabs_ := []; quarantine_ := [] |}.

(** *** The public operations as data *)

Inductive operation :=
| OpAllocate (bytes : Z)
| OpFree (alloc : Z)
| OpIsAllocated (alloc : Z)
| OpGetAllocationSize (alloc : Z)
| OpAllocateBlock (size min_left_redzone_size min_right_redzone_size : Z)
    (layout : BlockLayout)
| OpFreeBlock (block_info_block : Z)
| OpPush (info0 : CompactBlockInfo)
| OpPop (info0 : CompactBlockInfo)
| OpEmpty (infos : list CompactBlockInfo)
| OpGetCount
| OpSetQuarantineRatio (quarantine_ratio : spec_float).

Definition forget {A} (m : M A) : M unit := m ;;; ret tt.

Definition run_operation (o : operation) : M unit :=
  match o with
  | OpAllocate bytes => forget (Allocate bytes)
  | OpFree alloc => forget (Free alloc)
  | OpIsAllocated alloc => forget (IsAllocated alloc)
  | OpGetAllocationSize alloc => forget (GetAllocationSize alloc)
  | OpAllocateBlock size l r layout => forget (AllocateBlock size l r layout)
  | OpFreeBlock b => forget (FreeBlock b)
  | OpPush info0 => forget (Push info0)
  | OpPop info0 => forget (Pop info0)
  | OpEmpty infos => forget (Empty infos)
  | OpGetCount => forget GetCount
  | OpSetQuarantineRatio r => forget (set_quarantine_ratio r)
  end.

(** Runs a sequence of operations, first to last. *)
Fixpoint run_operations (os : list operation) : M unit :=
  match os with
  | [] => ret tt
  | o :: os' => run_operation o ;;; run_operations os'
  end.

(** The contract [Free] asserts: the memory has been released from the
    quarantine before it is freed. *)
Definition respects_contract (o : operation) (h : ZebraBlockHeap) : Prop :=
  match o with
  | OpFree p | OpFreeBlock p =>
      forall i s,
        GetSlabIndex h p = i -> i <> kInvalidSlabIndex ->
        slab_lookup (slab_info_ h) i = Some s -> block (info s) = p ->
        state s <> kQuarantinedSlab
  | _ => True
  end.

(** A byte count is a [size_t]: it is not negative. *)
Definition size_t_argument (o : operation) : Prop :=
  match o with
  | OpAllocate bytes => 0 <= bytes
  | _ => True
  end.

(** The heaps reached from [h0] by public operations that return and
    respect the contract of [Free]. *)
Inductive reachable (h0 : ZebraBlockHeap) : ZebraBlockHeap -> Prop :=
| reachable_fresh : reachable h0 h0
| reachable_step h o h' :
    reachable h0 h -> size_t_argument o -> respects_contract o h ->
    run_operation o h = Done tt h' -> reachable h0 h'.

End Heap.

(** ** Well-formed heaps

    What the constructor establishes of the region and of the table, and
    what the queues hold. *)
Section Invariants.
Context `{Platform}.

(** The region is not null, page-aligned, made of [slab_count_] slabs, ends
    below the top of the address space, and the table has one entry per
    slab. *)
Record region_ok (h : ZebraBlockHeap) : Prop := {
  region_address_pos : 0 < heap_address_ h;
  region_aligned : heap_address_ h mod GetPageSize = 0;
  region_count_nonneg : 0 <= slab_count_ h;
  region_size : heap_size_ h = slab_count_ h * kSlabSize;
  region_fits : heap_address_ h + heap_size_ h < 2 ^ size_bits;
  region_table : Z.of_nat (length (slab_info_ h)) = slab_count_ h
}.

(** Every index waiting in the free queue names a slab of the table. *)
Definition free_slabs_ok (h : ZebraBlockHeap) : Prop :=
  Forall (fun i => 0 <= i < slab_count_ h) (free_slabs_ h).

(** Every index waiting in the quarantine names a slab of the table whose
    state is [kQuarantinedSlab]. *)
Definition quarantine_ok (h : ZebraBlockHeap) : Prop :=
  Forall (fun i => exists s, slab_lookup (slab_info_ h) i = Some s
                             /\ state s = kQuarantinedSlab)
         (quarantine_ h).

(** The first byte of slab [i], in exact integers. *)
Definition slab_base (h : ZebraBlockHeap) (i : Z) : Z :=
  heap_address_ h + i * (2 * GetPageSize).

(** The slab an address resolves to, if it resolves to one. *)
Definition slab_of (h : ZebraBlockHeap) (p : Z) : option SlabInfo :=
  if GetSlabIndex h p =? kInvalidSlabIndex then None
  else slab_lookup (slab_info_ h) (GetSlabIndex h p).

(** The table after slab [i] has been given the content [s]. *)
Definition store_slab (i : Z) (s : SlabInfo) (h : ZebraBlockHeap)
    : ZebraBlockHeap :=
  with_slab_info (<[Z.to_nat i := s]>) h.

(** Where [bytes] bytes are placed in slab [i], in exact integers: the
    largest multiple of the shadow ratio that is at most
    [slab_base h i + GetPageSize - bytes]. *)
Definition placed (h : ZebraBlockHeap) (i bytes : Z) : Z :=
  kShadowRatio * ((slab_base h i + GetPageSize - bytes) / kShadowRatio).

(** The descriptor slab [i] holds. *)
Definition descriptor_at (l : list SlabInfo) (i : Z) : CompactBlockInfo :=
  match slab_lookup l i with
  | Some s => info s
  | None => zero_info
  end.

(** The descriptor [AllocateImpl] records for [bytes] bytes in slab [i]:
    the five fields are assigned, the bits beside them stay as the slab had
    them. *)
Definition allocated_slab (h : ZebraBlockHeap) (i bytes : Z) : SlabInfo :=
  {| state := kAllocatedSlab;
     info := {| block := placed h i bytes; block_size := bytes;
                header_size := 0; trailer_size := 0; is_nested := false;
                spare_bits :=
                  spare_bits (descriptor_at (slab_info_ h) i) |} |}.

(** The heap after [bytes] bytes went to the slab at the head of the free
    queue. *)
Definition after_allocate (h : ZebraBlockHeap) (i bytes : Z) : ZebraBlockHeap :=
  store_slab i (allocated_slab h i bytes) (with_free_slabs CircularQueue.pop h).

(** A slab nobody holds: state [kFreeSlab], descriptor zeroed. *)
Definition free_slab : SlabInfo := {| state := kFreeSlab; info := zero_info |}.

(** The heap after slab [i] has been released: its entry is [free_slab]
    and [i] stands at the tail of the free queue. *)
Definition after_free (h : ZebraBlockHeap) (i : Z) : ZebraBlockHeap :=
  with_free_slabs (CircularQueue.push i) (store_slab i free_slab h).

(** The heap after slab [i], holding the descriptor [inf], has entered the
    quarantine: [i] stands at the tail of the queue and the slab is
    [kQuarantinedSlab]. *)
Definition after_push (h : ZebraBlockHeap) (i : Z) (inf : CompactBlockInfo)
    : ZebraBlockHeap :=
  store_slab i {| state := kQuarantinedSlab; info := inf |}
    (with_quarantine (CircularQueue.push i) h).

(** The heap after the head [i] of the quarantine, holding the descriptor
    [inf], has left it: the slab is [kAllocatedSlab] again. *)
Definition after_pop (h : ZebraBlockHeap) (i : Z) (inf : CompactBlockInfo)
    : ZebraBlockHeap :=
  store_slab i {| state := kAllocatedSlab; info := inf |}
    (with_quarantine CircularQueue.pop h).

(** A slab taken out of the quarantine: [kAllocatedSlab], descriptor
    kept. *)
Definition release (s : SlabInfo) : SlabInfo :=
  {| state := kAllocatedSlab; info := info s |}.

(** The table after the slabs named by [q] have been released one after
    the other. *)
Fixpoint release_all (q : list Z) (l : list SlabInfo) : list SlabInfo :=
  match q with
  | [] => l
  | i :: q' =>
      release_all q'
        match slab_lookup l i with
        | Some s => <[Z.to_nat i := release s]> l
        | None => l
        end
  end.

(** What C9 asks of slab [i] holding [s]: unless the slab is free, the
    recorded block address is not null and lies in the slab's first page,
    and the block ends within the slab's two pages. *)
Definition slab_block_ok (h : ZebraBlockHeap) (i : Z) (s : SlabInfo) : Prop :=
  state s <> kFreeSlab ->
  block (info s) <> NULL
  /\ slab_base h i <= block (info s) < slab_base h i + GetPageSize
  /\ block (info s) + block_size (info s) <= slab_base h i + 2 * GetPageSize.

Definition blocks_ok (h : ZebraBlockHeap) : Prop :=
  forall i s, slab_lookup (slab_info_ h) i = Some s -> slab_block_ok h i s.

(** The invariant of the heap: the region and table are well formed, the
    free queue lists free slabs without repetition, the quarantine lists
    quarantined slabs without repetition, and every block lies in its
    slab. *)
Record heap_inv (h : ZebraBlockHeap) : Prop := {
  inv_region : region_ok h;
  inv_free :
    Forall (fun i => exists s, slab_lookup (slab_info_ h) i = Some s
                               /\ state s = kFreeSlab)
           (free_slabs_ h);
  inv_free_nodup : NoDup (free_slabs_ h);
  inv_quarantine : quarantine_ok h;
  inv_quarantine_nodup : NoDup (quarantine_ h);
  inv_blocks : blocks_ok h
}.

(** The heap [h] with slab [i] set to [s] and the two queues replaced. *)
Definition update_heap (h : ZebraBlockHeap) (i : Z) (s : SlabInfo)
    (fq qq : list Z) : ZebraBlockHeap :=
  {| heap_address_ := heap_address_ h; heap_size_ := heap_size_ h;
     slab_count_ := slab_count_ h;
     slab_info_ := <[Z.to_nat i := s]> (slab_info_ h);
     quarantine_ratio_ := quarantine_ratio_ h;
     free_slabs_ := fq; quarantine_ := qq |}.

(** The call [AllocateBlock] makes to the planner. *)
Definition planner_call (size min_left_redzone_size min_right_redzone_size : Z)
    : PlannerCall :=
  {| pc_chunk_size := GetPageSize; pc_alignment := kShadowRatio;
     pc_size := size; pc_min_left_redzone_size := min_left_redzone_size;
     pc_min_right_redzone_size := Z.max GetPageSize min_right_redzone_size |}.

(** The descriptor [AllocateBlock] leaves in slab [i] for the layout [l]. *)
Definition block_slab (h : ZebraBlockHeap) (i : Z) (l : BlockLayout) : SlabInfo :=
  {| state := kAllocatedSlab;
     info := {| block := slab_base h i;
                block_size := Layout.block_size l;
                header_size := size_add (Layout.header_size l)
                                        (Layout.header_padding_size l);
                trailer_size := size_add (Layout.trailer_size l)
                                         (Layout.trailer_padding_size l);
                is_nested := false;
                spare_bits :=
                  spare_bits (descriptor_at (slab_info_ h) i) |} |}.

(** The checks [AllocateBlock] makes on the planner's answer. *)
Definition layout_accepted (planned : bool * BlockLayout) : bool :=
  let right_redzone_size :=
    size_add (Layout.trailer_size (snd planned))
             (Layout.trailer_padding_size (snd planned)) in
  fst planned
  && (Layout.block_size (snd planned) =? kSlabSize)
  && negb (right_redzone_size <? GetPageSize)
  && negb (kShadowRatio <=? size_sub right_redzone_size GetPageSize).

End Invariants.

(** ** Binary32 numbers, in exact arithmetic

    What the words "the binary32 quotient" and "at most the ratio" mean,
    written with integers and rational numbers only and without the
    operations of [SpecFloat]: the ratio test of the code is compared with
    these below. *)

(** [m * 2 ^ e], as a rational number. *)
Definition scaled (m e : Z) : Q :=
  if 0 <=? e then inject_Z (m * 2 ^ e) else Qmake m (Z.to_pos (2 ^ (- e))).

(** The number a finite binary32 value stands for. *)
Definition binary32_value (x : spec_float) : Q :=
  match x with
  | S754_finite s m e => scaled (cond_Zopp s (Zpos m)) e
  | _ => 0%Q
  end.

(** A binary32 number that is not negative: a zero, or a positive finite
    value in the canonical form of the format. *)
Definition nonnegative_binary32 (x : spec_float) : Prop :=
  match x with
  | S754_zero _ => True
  | S754_finite false m e => bounded 24 128 m e = true
  | _ => False
  end.

(** The integer nearest to [a / b]; when [a / b] lies half way between
    two integers, the even one. *)
Definition nearest_even (a b : Z) : Z :=
  match 2 * (a mod b) ?= b with
  | Lt => a / b
  | Eq => if Z.even (a / b) then a / b else a / b + 1
  | Gt => a / b + 1
  end.

(** The exponent [e] for which [n / c] lies between [2 ^ 23 * 2 ^ e] and
    [2 ^ 24 * 2 ^ e]: the quotient of the leading powers of two, one less
    when [n] has the smaller mantissa. *)
Definition binade (n c : Z) : Z :=
  Z.log2 n - Z.log2 c
  - (if n * 2 ^ Z.log2 c <? c * 2 ^ Z.log2 n then 24 else 23).

(** [n / c] rounded to binary32, for two counts below [2 ^ 24]: the nearest
    number with a mantissa of 24 bits, the one with the even mantissa when
    two are equally near. *)
Definition binary32_quotient (n c : Z) : Q :=
  let e := binade n c in scaled (nearest_even (n * 2 ^ (- e)) c) e.

(** Unfolds the monad so that a member function becomes a cascade of
    tests on the heap it is applied to. *)
Ltac unmonad :=
  unfold bind, ret, get, modify, stop, slab_at, slab_store, DCHECK, CHECK in *.

(** ** A concrete platform and concrete collaborators

    A 32-bit machine with 4 KiB pages and a shadow ratio of 8, in a build
    without [DCHECK]s and in one with them; the default quarantine ratio
    is a quarter. *)
Definition win32 (dchecks : bool) : Platform :=
  {| size_bits := 32; GetPageSize := 4096; kShadowRatio := 8;
     kDefaultZebraBlockHeapQuarantineRatio :=
       SFdiv 24 128 (binary_normalize 24 128 1 0 false)
                    (binary_normalize 24 128 4 0 false);
     dcheck_is_on := dchecks |}.

(** A planner that pins the body against the end of the first page behind
    a 16-byte header, a reservation primitive that always answers with the
    address 0x10000, and a notifier at the address 0x2000. *)
Definition sample_planner (chunk_size alignment size min_left min_right : Z)
    (layout : BlockLayout) : bool * BlockLayout :=
  let pad := (alignment - size mod alignment) mod alignment in
  let left := chunk_size - size - pad in
  if (left <? Z.max 16 min_left) || (2 * chunk_size - left - size <? min_right)
  then (false, layout)
  else (true,
        {| Layout.block_size := 2 * chunk_size;
           Layout.header_size := 16;
           Layout.header_padding_size := left - 16;
           Layout.body_size := size;
           Layout.trailer_padding_size := chunk_size + pad - 20;
           Layout.trailer_size := 20 |}).

Definition sample_collaborators : Collaborators :=
  {| BlockPlanLayout := sample_planner; VirtualAlloc := fun _ => 65536;
     memory_notifier := 8192 |}.

(** ** Concrete heaps

    A heap of two slabs as the constructor leaves it, the same heap after
    [Allocate(5)], and after the allocation has been pushed into the
    quarantine. *)
Definition fresh_heap : ZebraBlockHeap :=
  {| heap_address_ := 65536; heap_size_ := 16384; slab_count_ := 2;
     slab_info_ := [free_slab; free_slab];
     quarantine_ratio_ := S754_finite false 8388608 (-25);
     free_slabs_ := [0; 1]; quarantine_ := [] |}.

Definition five_bytes : CompactBlockInfo :=
  {| block := 69624; block_size := 5; header_size := 0; trailer_size := 0;
     is_nested := false; spare_bits := 0 |}.

Definition allocated_heap : ZebraBlockHeap :=
  {| heap_address_ := 65536; heap_size_ := 16384; slab_count_ := 2;
     slab_info_ := [{| state := kAllocatedSlab; info := five_bytes |}; free_slab];
     quarantine_ratio_ := S754_finite false 8388608 (-25);
     free_slabs_ := [1]; quarantine_ := [] |}.

Definition quarantined_heap : ZebraBlockHeap :=
  {| heap_address_ := 65536; heap_size_ := 16384; slab_count_ := 2;
     slab_info_ := [{| state := kQuarantinedSlab; info := five_bytes |}; free_slab];
     quarantine_ratio_ := S754_finite false 8388608 (-25);
     free_slabs_ := [1]; quarantine_ := [0] |}.

(** A caller's [BlockLayout] before the planner has filled it in. *)
Definition blank_layout : BlockLayout :=
  {| Layout.block_size := 0; Layout.header_size := 0;
     Layout.header_padding_size := 0; Layout.body_size := 0;
     Layout.trailer_padding_size := 0; Layout.trailer_size := 0 |}.

(** The layout the sample planner gives a body of 100 bytes, and the heap
    once [AllocateBlock] has hosted it in slab 0. *)
Definition hosted_layout : BlockLayout :=
  {| Layout.block_size := 8192; Layout.header_size := 16;
     Layout.header_padding_size := 3976; Layout.body_size := 100;
     Layout.trailer_padding_size := 4080; Layout.trailer_size := 20 |}.

Definition hosted_block : CompactBlockInfo :=
  {| block := 65536; block_size := 8192; header_size := 3992;
     trailer_size := 4100; is_nested := false; spare_bits := 0 |}.

Definition hosted_heap : ZebraBlockHeap :=
  {| heap_address_ := 65536; heap_size_ := 16384; slab_count_ := 2;
     slab_info_ := [{| state := kAllocatedSlab; info := hosted_block |}; free_slab];
     quarantine_ratio_ := S754_finite false 8388608 (-25);
     free_slabs_ := [1]; quarantine_ := [] |}.

(** The heap of two slabs with five bytes allocated in each: no slab is
    free. *)
Definition exhausted_heap : ZebraBlockHeap :=
  {| heap_address_ := 65536; heap_size_ := 16384; slab_count_ := 2;
     slab_info_ :=
       [{| state := kAllocatedSlab; info := five_bytes |};
        {| state := kAllocatedSlab;
           info := {| block := 77816; block_size := 5; header_size := 0;
                      trailer_size := 0; is_nested := false;
                      spare_bits := 0 |} |}];
     quarantine_ratio_ := S754_finite false 8388608 (-25);
     free_slabs_ := []; quarantine_ := [] |}.

(** The scenario of the spec: ten slabs, a ratio of one half, one byte
    allocated in every slab and the first [n] allocations pushed into the
    quarantine. *)
Definition one_byte (i : Z) : CompactBlockInfo :=
  {| block := 65536 + 8192 * i + 4088; block_size := 1; header_size := 0;
     trailer_size := 0; is_nested := false; spare_bits := 0 |}.

Definition one_half : spec_float := S754_finite false 8388608 (-24).

(** The binary32 number nearest to seven tenths, [0.7f]: it is a little
    less than seven tenths. *)
Definition seven_tenths : spec_float := S754_finite false 11744051 (-24).

Definition scenario (n : Z) : list operation :=
  OpSetQuarantineRatio one_half
  :: map (fun _ => OpAllocate 1) (seqZ 0 10)
  ++ map (fun i => OpPush (one_byte i)) (seqZ 0 n).

(** Ten slabs, a ratio of [0.7f], one byte allocated in every slab and the
    first seven allocations pushed into the quarantine; and the heap this
    leaves. *)
Definition seven_of_ten : list operation :=
  OpSetQuarantineRatio seven_tenths
  :: map (fun _ => OpAllocate 1) (seqZ 0 10)
  ++ map (fun i => OpPush (one_byte i)) (seqZ 0 7).

Definition seven_of_ten_heap : ZebraBlockHeap :=
  {| heap_address_ := 65536; heap_size_ := 81920; slab_count_ := 10;
     slab_info_ :=
       map (fun i => {| state := if i <? 7 then kQuarantinedSlab
                                 else kAllocatedSlab;
                        info := one_byte i |})
           (seqZ 0 10);
     quarantine_ratio_ := seven_tenths;
     free_slabs_ := []; quarantine_ := seqZ 0 7 |}.

(** Whether [Pop] succeeds after the operations [os] on a fresh heap of
    [heap_size] bytes, and the descriptor it hands out. *)
Definition pop_after `{Platform} `{Collaborators}
    (heap_size : Z) (os : list operation) : option (bool * CompactBlockInfo) :=
  match ZebraBlockHeap_new heap_size with
  | Done _ h0 =>
      match (run_operations os ;;; Pop zero_info) h0 with
      | Done r _ => Some r
      | Stopped _ => None
      end
  | Stopped _ => None
  end.

(** ** Statements the code does not meet

    Readings of C1, C2, C3, C6 and C9 that are refuted below, each at a
    concrete heap. *)

(** The reading of C3 in exact numbers: [Pop] fails, leaving the heap as it
    is, exactly when the quarantine is empty or the occupancy divided by
    [slab_count_], as a rational number, is at most the number the ratio
    stands for. *)
Definition Pop_fails_iff_ratio_holds `{Platform}
    (h : ZebraBlockHeap) (info0 : CompactBlockInfo) : Prop :=
  Pop info0 h = Done (false, info0) h
  <-> quarantine_ h = []
      \/ (Qmake (CircularQueue.size (quarantine_ h))
                (Z.to_pos (slab_count_ h))
          <= binary32_value (quarantine_ratio_ h))%Q.

(** The reading of C1 under which [Free] of a pointer other than null
    answers false, leaving the heap as it is, exactly when the pointer does
    not resolve, or differs from the recorded block address, or the slab is
    [kFreeSlab], or the slab is [kQuarantinedSlab]. *)
Definition Free_refuses_iff `{Platform} (h : ZebraBlockHeap) (p : Z) : Prop :=
  Free p h = Done false h
  <-> (slab_of h p = None
       \/ exists s, slab_of h p = Some s
                    /\ (block (info s) <> p \/ state s = kFreeSlab
                        \/ state s = kQuarantinedSlab)).

(** The reading of C2 that asks for the state [kAllocatedSlab]. *)
Definition IsAllocated_iff_Allocated `{Platform} (h : ZebraBlockHeap) (p : Z)
    : Prop :=
  IsAllocated p h = Done true h
  <-> exists s, slab_of h p = Some s /\ state s = kAllocatedSlab
                /\ block (info s) = p.

(** The reading of C6 under which the pointer [AllocateBlock] returns is
    where the body of the block begins: the recorded block address plus the
    header and its padding. *)
Definition AllocateBlock_returns_body_start `{Platform} `{Collaborators}
    (h : ZebraBlockHeap) (size l r : Z) (layout0 : BlockLayout) : Prop :=
  forall res h' s,
    AllocateBlock size l r layout0 h = Done res h' ->
    ab_alloc res <> NULL ->
    slab_of h' (ab_alloc res) = Some s ->
    ab_alloc res = Layout.body_start (ab_layout res) (block (info s)).

(** The reading of C9 over every sequence of public operations: whatever
    the sequence, the heap it ends in has every block in its slab. *)
Definition blocks_ok_after `{Platform} `{Collaborators}
    (heap_size : Z) (os : list operation) : Prop :=
  forall h0 h,
    ZebraBlockHeap_new heap_size = Done tt h0 ->
    run_operations os h0 = Done tt h -> blocks_ok h.

(** A sequence that frees a quarantined slab, and the heap it ends in when
    [DCHECK]s are compiled out: slab 0 is [kAllocatedSlab] with a zeroed
    descriptor. *)
Definition free_while_quarantined : list operation :=
  [OpAllocate 5; OpPush five_bytes; OpFree 69624; OpEmpty []].

Definition corrupted_heap : ZebraBlockHeap :=
  {| heap_address_ := 65536; heap_size_ := 16384; slab_count_ := 2;
     slab_info_ := [{| state := kAllocatedSlab; info := zero_info |}; free_slab];
     quarantine_ratio_ := S754_finite false 8388608 (-25);
     free_slabs_ := [1; 0]; quarantine_ := [] |}.

(** Proves a closed statement about the concrete heaps by evaluation. *)
Ltac evaluate :=
  repeat match goal with
         | |- platform_ok => constructor
         | |- region_ok _ => constructor
         | |- free_slabs_ok _ => unfold free_slabs_ok
         | |- quarantine_ok _ => unfold quarantine_ok
         | |- Forall _ _ => cbn; repeat constructor
         | |- _ /\ _ => split
         | |- exists s, _ = Some s /\ _ => eexists; split; [reflexivity|]
         end;
  try (vm_compute; first [reflexivity | discriminate | intro; discriminate]).

(** ** Callers, the slab state machine and further invariants *)


(** The region and the size of the table are those of [h]. *)
Definition same_geometry (h h' : ZebraBlockHeap) : Prop :=
  heap_address_ h' = heap_address_ h
  /\ heap_size_ h' = heap_size_ h
  /\ slab_count_ h' = slab_count_ h
  /\ length (slab_info_ h') = length (slab_info_ h).

(** The moves of the slab state machine: nothing changes, the ratio
    changes, or one slab changes its state and its queue. *)
Inductive transition `{Platform} (h : ZebraBlockHeap) : ZebraBlockHeap -> Prop :=
| stays : transition h h
| sets_ratio r : transition h (with_quarantine_ratio r h)
| takes_free i q s inf :
    free_slabs_ h = i :: q ->
    slab_lookup (slab_info_ h) i = Some s -> state s = kFreeSlab ->
    slab_block_ok h i {| state := kAllocatedSlab; info := inf |} ->
    transition h
      (update_heap h i {| state := kAllocatedSlab; info := inf |}
         q (quarantine_ h))
| releases i s :
    slab_lookup (slab_info_ h) i = Some s -> state s = kAllocatedSlab ->
    transition h
      (update_heap h i free_slab (free_slabs_ h ++ [i]) (quarantine_ h))
| quarantines i s :
    slab_lookup (slab_info_ h) i = Some s -> state s = kAllocatedSlab ->
    transition h
      (update_heap h i {| state := kQuarantinedSlab; info := info s |}
         (free_slabs_ h) (quarantine_ h ++ [i]))
| unquarantines i q s :
    quarantine_ h = i :: q ->
    slab_lookup (slab_info_ h) i = Some s -> state s = kQuarantinedSlab ->
    transition h
      (update_heap h i {| state := kAllocatedSlab; info := info s |}
         (free_slabs_ h) q).

(** Every slab is accounted for: a free slab waits in the free queue with
    a zeroed descriptor, a quarantined slab waits in the quarantine. *)
Definition slab_accounted (h : ZebraBlockHeap) : Prop :=
  forall i s,
    slab_lookup (slab_info_ h) i = Some s ->
    match state s with
    | kFreeSlab => i ∈ free_slabs_ h /\ info s = zero_info
    | kAllocatedSlab => True
    | kQuarantinedSlab => i ∈ quarantine_ h
    end.

(** The indices of the slabs of the table that are in state [st]. *)
Definition slabs_in_state (h : ZebraBlockHeap) (st : SlabState) : list Z :=
  filter (fun i => state <$> slab_lookup (slab_info_ h) i = Some st)
         (seqZ 0 (slab_count_ h)).

(** A computation keeps the geometry when every heap it returns has the
    region and the table size of the heap it started from. *)
Definition keeps_geometry {A} (m : M A) : Prop :=
  forall h a h', m h = Done a h' -> same_geometry h h'.

(** * Properties *)

Section Geometry.
Context `{Platform}.
Hypothesis Hplat : platform_ok.

Lemma size_mod_pos : 0 < 2 ^ size_bits.
Proof. destruct Hplat. apply Z.pow_pos_nonneg; lia. Qed.

Lemma wrap_small z : 0 <= z < 2 ^ size_bits -> wrap z = z.
Proof. intros. unfold wrap. apply Z.mod_small. lia. Qed.

Lemma wrap_range z : 0 <= wrap z < 2 ^ size_bits.
Proof. unfold wrap. apply Z.mod_pos_bound, size_mod_pos. Qed.

Lemma kSlabSize_eq : kSlabSize = 2 * GetPageSize.
Proof.
  destruct Hplat. unfold kSlabSize, size_mul. apply wrap_small. lia.
Qed.

Lemma kSlabSize_pos : 0 < kSlabSize.
Proof. rewrite kSlabSize_eq. destruct Hplat. lia. Qed.

Lemma kInvalidSlabIndex_eq : kInvalidSlabIndex = 2 ^ size_bits - 1.
Proof.
  unfold kInvalidSlabIndex, wrap. pose proof size_mod_pos.
  symmetry. apply (Z.mod_unique _ _ (-1)); lia.
Qed.

Lemma AlignDown_exact x a :
  0 < a -> 0 <= x < 2 ^ size_bits -> AlignDown x a = a * (x / a).
Proof.
  intros Ha Hx. unfold AlignDown, size_sub.
  pose proof (Z.mod_pos_bound x a Ha).
  pose proof (Z.div_mod x a ltac:(lia)).
  pose proof (Z.mod_le x a ltac:(lia) Ha).
  rewrite wrap_small; lia.
Qed.

Lemma heap_size_eq h :
  region_ok h -> heap_size_ h = slab_count_ h * (2 * GetPageSize).
Proof. intros []. rewrite <- kSlabSize_eq. assumption. Qed.

Lemma slab_base_bounds h i :
  region_ok h -> 0 <= i < slab_count_ h ->
  heap_address_ h <= slab_base h i
  /\ slab_base h i + 2 * GetPageSize <= heap_address_ h + heap_size_ h.
Proof.
  intros Hregion Hi. destruct Hplat. unfold slab_base.
  rewrite (heap_size_eq h Hregion). nia.
Qed.

Lemma GetSlabAddress_slab_base h i :
  region_ok h -> 0 <= i < slab_count_ h ->
  GetSlabAddress h i = slab_base h i.
Proof.
  intros Hregion Hi. pose proof (slab_base_bounds h i Hregion Hi) as Hb.
  destruct Hregion, Hplat. unfold GetSlabAddress, slab_base in *.
  rewrite kSlabSize_eq.
  destruct (Z.leb_spec (slab_count_ h) i); [lia|].
  unfold size_add, size_mul.
  rewrite (wrap_small (i * _)) by nia.
  apply wrap_small. nia.
Qed.

Lemma index_not_invalid h i :
  region_ok h -> 0 <= i < slab_count_ h -> i <> kInvalidSlabIndex.
Proof.
  intros Hregion Hi. rewrite kInvalidSlabIndex_eq.
  pose proof (heap_size_eq h Hregion). destruct Hregion, Hplat. nia.
Qed.

Lemma slab_lookup_is_Some h i :
  region_ok h ->
  0 <= i < slab_count_ h <-> is_Some (slab_lookup (slab_info_ h) i).
Proof.
  intros []. unfold slab_lookup.
  destruct (Z.leb_spec 0 i).
  - rewrite lookup_lt_is_Some. lia.
  - split; [lia|]. intros [? ?]; discriminate.
Qed.

Lemma GetSlabIndex_NULL h :
  region_ok h -> GetSlabIndex h NULL = kInvalidSlabIndex.
Proof.
  intros []. unfold GetSlabIndex, NULL.
  destruct (Z.ltb_spec 0 (heap_address_ h)); [reflexivity|lia].
Qed.

(** An address that resolves lies in the two pages of the slab it resolves
    to, and that slab is one of the table. *)
Lemma GetSlabIndex_valid h p :
  region_ok h ->
  GetSlabIndex h p <> kInvalidSlabIndex ->
  0 <= GetSlabIndex h p < slab_count_ h
  /\ slab_base h (GetSlabIndex h p) <= p
     < slab_base h (GetSlabIndex h p) + 2 * GetPageSize.
Proof.
  intros Hregion.
  pose proof (heap_size_eq h Hregion) as Hsz. pose proof size_mod_pos.
  destruct Hregion, Hplat. unfold GetSlabIndex, slab_base.
  rewrite kSlabSize_eq.
  unfold size_add. rewrite (wrap_small (heap_address_ h + _)) by nia.
  destruct (Z.ltb_spec p (heap_address_ h)); [cbn [orb]; congruence|].
  destruct (Z.leb_spec (heap_address_ h + heap_size_ h) p);
    [cbn [orb]; congruence|].
  cbn [orb]. intros _. unfold size_sub. rewrite wrap_small by lia.
  assert (Hpos : 0 < 2 * GetPageSize) by lia.
  pose proof (Z.div_mod (p - heap_address_ h) _ (Z.neq_sym _ _ (Z.lt_neq _ _ Hpos))).
  pose proof (Z.mod_pos_bound (p - heap_address_ h) _ Hpos).
  set (q := (p - heap_address_ h) / (2 * GetPageSize)) in *.
  assert (0 <= q) by (apply Z.div_pos; lia).
  nia.
Qed.

Lemma GetSlabIndex_inside h i p :
  region_ok h ->
  0 <= i < slab_count_ h ->
  slab_base h i <= p < slab_base h i + 2 * GetPageSize ->
  GetSlabIndex h p = i.
Proof.
  intros Hregion Hi Hp. pose proof (slab_base_bounds h i Hregion Hi) as Hb.
  pose proof size_mod_pos.
  destruct Hregion, Hplat. unfold GetSlabIndex, slab_base in *.
  rewrite kSlabSize_eq.
  unfold size_add. rewrite (wrap_small (heap_address_ h + _)) by nia.
  destruct (Z.ltb_spec p (heap_address_ h)); [lia|].
  destruct (Z.leb_spec (heap_address_ h + heap_size_ h) p); [lia|].
  cbn [orb]. unfold size_sub. rewrite wrap_small by lia.
  symmetry.
  apply (Z.div_unique _ _ _ (p - heap_address_ h - i * (2 * GetPageSize)));
    lia.
Qed.

Lemma slab_of_NULL h : region_ok h -> slab_of h NULL = None.
Proof.
  intros Hregion. unfold slab_of.
  rewrite (GetSlabIndex_NULL h Hregion), Z.eqb_refl. reflexivity.
Qed.

(** The base of every slab is a multiple of the shadow ratio. *)
Lemma slab_base_aligned h i :
  region_ok h -> exists k, slab_base h i = kShadowRatio * k.
Proof.
  intros Hregion. destruct Hregion, Hplat.
  apply Z.mod_divide in region_aligned0; [|lia].
  apply Z.mod_divide in shadow_divides_page0; [|lia].
  destruct region_aligned0 as [a Ha], shadow_divides_page0 as [b Hb].
  exists (a * b + i * (2 * b)). unfold slab_base. rewrite Ha, Hb. ring.
Qed.

(** Where [AllocateImpl] places [bytes] bytes in slab [i]: flush against
    the end of the first page, rounded down to the shadow ratio. *)
Lemma placed_bounds h i bytes :
  region_ok h -> 0 <= bytes <= GetPageSize ->
  slab_base h i
  <= kShadowRatio * ((slab_base h i + GetPageSize - bytes) / kShadowRatio)
  <= slab_base h i + GetPageSize - bytes.
Proof.
  intros Hregion Hb. destruct (slab_base_aligned h i Hregion) as [k Hk].
  assert (Hr : 0 < kShadowRatio) by (destruct Hplat; assumption).
  set (d := GetPageSize - bytes).
  replace (slab_base h i + GetPageSize - bytes) with (d + k * kShadowRatio)
    by (unfold d; lia).
  rewrite Z.div_add by lia.
  pose proof (Z.mul_div_le d kShadowRatio Hr).
  assert (0 <= d / kShadowRatio) by (apply Z.div_pos; unfold d; lia).
  nia.
Qed.

End Geometry.

Section ByteAllocator.
Context `{Platform}.
Hypothesis Hplat : platform_ok.

Lemma slab_lookup_store l i s j :
  is_Some (slab_lookup l i) -> 0 <= j ->
  slab_lookup (<[Z.to_nat i := s]> l) j
  = if bool_decide (i = j) then Some s else slab_lookup l j.
Proof.
  unfold slab_lookup. intros Hi Hj.
  destruct (Z.leb_spec 0 i); [|destruct Hi; discriminate].
  apply lookup_lt_is_Some in Hi.
  destruct (Z.leb_spec 0 j); [|lia].
  case_bool_decide as E.
  - subst j. apply list_lookup_insert_eq. assumption.
  - apply list_lookup_insert_ne. lia.
Qed.

(** With a free slab at hand and a size that fits a page, [AllocateImpl]
    takes the head of the free queue and records the placement there. *)
Lemma AllocateImpl_success h bytes i q :
  region_ok h -> free_slabs_ h = i :: q -> 0 <= i < slab_count_ h ->
  0 < bytes <= GetPageSize ->
  AllocateImpl bytes h = Done (Some i) (after_allocate h i bytes).
Proof.
  intros Hregion Hq Hi Hb.
  pose proof (index_not_invalid Hplat h i Hregion Hi) as Hinv.
  pose proof (GetSlabAddress_slab_base Hplat h i Hregion Hi) as Haddr.
  pose proof (slab_base_bounds Hplat h i Hregion Hi) as [Hlo Hhi].
  pose proof (proj1 (slab_lookup_is_Some h i Hregion) Hi) as [s Hs].
  pose proof (placed_bounds Hplat h i bytes Hregion ltac:(lia)) as Hpl.
  assert (Hpos : 0 < slab_base h i) by (destruct Hregion; lia).
  assert (Hfit : slab_base h i + 2 * GetPageSize < 2 ^ size_bits)
    by (destruct Hregion; lia).
  unfold AllocateImpl.
  destruct (Z.eqb_spec bytes 0); [lia|].
  destruct (Z.ltb_spec GetPageSize bytes); [lia|]. cbn [orb].
  unmonad. rewrite Hq. cbn [CircularQueue.front head].
  destruct (Z.eqb_spec i kInvalidSlabIndex); [contradiction|].
  rewrite Haddr.
  destruct (Z.eqb_spec (slab_base h i) NULL); [unfold NULL in *; lia|].
  cbn [negb]. rewrite !andb_false_r.
  unmonad. cbn [with_free_slabs slab_info_]. rewrite Hs.
  cbn [with_free_slabs slab_info_]. rewrite Hs.
  unfold after_allocate, store_slab, allocated_slab, placed, descriptor_at.
  rewrite Hs.
  assert (Hblock : AlignDown (size_sub (size_add (slab_base h i) GetPageSize)
                                       bytes) kShadowRatio
                   = kShadowRatio
                     * ((slab_base h i + GetPageSize - bytes) / kShadowRatio)).
  { unfold size_add, size_sub.
    rewrite (wrap_small (slab_base h i + GetPageSize))
      by (destruct Hplat; lia).
    rewrite (wrap_small (slab_base h i + GetPageSize - bytes)) by lia.
    rewrite AlignDown_exact; [reflexivity|destruct Hplat; lia|lia]. }
  rewrite Hblock. reflexivity.
Qed.

Lemma AllocateImpl_rejects h bytes :
  bytes = 0 \/ GetPageSize < bytes \/ free_slabs_ h = [] ->
  AllocateImpl bytes h = Done None h.
Proof.
  intros Hc. unfold AllocateImpl.
  destruct (Z.eqb_spec bytes 0); [reflexivity|].
  destruct (Z.ltb_spec GetPageSize bytes); [reflexivity|].
  destruct Hc as [?|[?|Hq]]; [lia|lia|].
  cbn [orb]. unmonad. rewrite Hq. reflexivity.
Qed.

Lemma region_ok_same h h' :
  heap_address_ h' = heap_address_ h -> heap_size_ h' = heap_size_ h ->
  slab_count_ h' = slab_count_ h ->
  length (slab_info_ h') = length (slab_info_ h) ->
  region_ok h -> region_ok h'.
Proof.
  intros Ha Hs Hc Hl []. constructor; rewrite ?Ha, ?Hs, ?Hc, ?Hl; assumption.
Qed.

Lemma region_ok_store_slab h i s : region_ok h -> region_ok (store_slab i s h).
Proof.
  apply region_ok_same; try reflexivity.
  cbn. apply length_insert.
Qed.

Lemma region_ok_with_free_slabs h f :
  region_ok h -> region_ok (with_free_slabs f h).
Proof. apply region_ok_same; reflexivity. Qed.

Lemma region_ok_with_quarantine h f :
  region_ok h -> region_ok (with_quarantine f h).
Proof. apply region_ok_same; reflexivity. Qed.

Lemma region_ok_after_allocate h i bytes :
  region_ok h -> region_ok (after_allocate h i bytes).
Proof.
  intros. apply region_ok_store_slab, region_ok_with_free_slabs. assumption.
Qed.

Lemma slab_lookup_after_allocate h i bytes :
  region_ok h -> 0 <= i < slab_count_ h ->
  slab_lookup (slab_info_ (after_allocate h i bytes)) i
  = Some (allocated_slab h i bytes).
Proof.
  intros Hregion Hi. cbn.
  rewrite slab_lookup_store; [|apply slab_lookup_is_Some; assumption|lia].
  rewrite bool_decide_eq_true_2; reflexivity.
Qed.

Lemma Allocate_success h bytes i q :
  region_ok h -> free_slabs_ h = i :: q -> 0 <= i < slab_count_ h ->
  0 < bytes <= GetPageSize ->
  Allocate bytes h = Done (placed h i bytes) (after_allocate h i bytes).
Proof.
  intros Hregion Hq Hi Hb. unfold Allocate, bind.
  rewrite (AllocateImpl_success h bytes i q) by assumption.
  unmonad. rewrite slab_lookup_after_allocate by assumption. reflexivity.
Qed.

Lemma Allocate_rejects h bytes :
  bytes = 0 \/ GetPageSize < bytes \/ free_slabs_ h = [] ->
  Allocate bytes h = Done NULL h.
Proof.
  intros Hc. unfold Allocate, bind. rewrite AllocateImpl_rejects by assumption.
  reflexivity.
Qed.

(** An address placed in slab [i] is not null and resolves to slab [i]. *)
Lemma placed_resolves h i bytes :
  region_ok h -> 0 <= i < slab_count_ h -> 0 < bytes <= GetPageSize ->
  placed h i bytes <> NULL /\ GetSlabIndex h (placed h i bytes) = i.
Proof.
  intros Hregion Hi Hb.
  pose proof (placed_bounds Hplat h i bytes Hregion ltac:(lia)) as Hpl.
  pose proof (slab_base_bounds Hplat h i Hregion Hi) as [Hlo _].
  fold (placed h i bytes) in Hpl. split.
  - destruct Hregion. unfold NULL. lia.
  - apply (GetSlabIndex_inside Hplat); [assumption..|]. lia.
Qed.

(** The two queries read the slab the address resolves to and nothing
    else. *)
Lemma slab_of_resolved h p :
  region_ok h -> GetSlabIndex h p <> kInvalidSlabIndex ->
  exists s, slab_lookup (slab_info_ h) (GetSlabIndex h p) = Some s
            /\ slab_of h p = Some s.
Proof.
  intros Hregion Hv.
  destruct (GetSlabIndex_valid Hplat h p Hregion Hv) as [Hi _].
  destruct (proj1 (slab_lookup_is_Some h _ Hregion) Hi) as [s Hs].
  exists s. split; [assumption|]. unfold slab_of.
  destruct (Z.eqb_spec (GetSlabIndex h p) kInvalidSlabIndex); [contradiction|].
  assumption.
Qed.

Lemma slab_of_unresolved h p :
  GetSlabIndex h p = kInvalidSlabIndex -> slab_of h p = None.
Proof. intros E. unfold slab_of. rewrite E, Z.eqb_refl. reflexivity. Qed.

Lemma IsAllocated_slab_of h p :
  region_ok h ->
  IsAllocated p h
  = Done match slab_of h p with
         | Some s => negb (bool_decide (state s = kFreeSlab))
                     && (block (info s) =? p)
         | None => false
         end h.
Proof.
  intros Hregion. unfold IsAllocated.
  destruct (Z.eqb_spec p NULL) as [->|Hp].
  { rewrite slab_of_NULL by assumption. reflexivity. }
  unmonad.
  destruct (Z.eqb_spec (GetSlabIndex h p) kInvalidSlabIndex) as [E|E].
  { rewrite slab_of_unresolved by assumption. reflexivity. }
  destruct (slab_of_resolved h p Hregion E) as [s [Hs ->]]. rewrite Hs.
  case_bool_decide; [reflexivity|].
  destruct (Z.eqb_spec (block (info s)) p); reflexivity.
Qed.

Lemma GetAllocationSize_slab_of h p :
  region_ok h ->
  GetAllocationSize p h
  = Done match slab_of h p with
         | Some s => if negb (bool_decide (state s = kFreeSlab))
                        && (block (info s) =? p)
                     then block_size (info s) else kUnknownSize
         | None => kUnknownSize
         end h.
Proof.
  intros Hregion. unfold GetAllocationSize.
  destruct (Z.eqb_spec p NULL) as [->|Hp].
  { rewrite slab_of_NULL by assumption. reflexivity. }
  unmonad.
  destruct (Z.eqb_spec (GetSlabIndex h p) kInvalidSlabIndex) as [E|E].
  { rewrite slab_of_unresolved by assumption. reflexivity. }
  destruct (slab_of_resolved h p Hregion E) as [s [Hs ->]]. rewrite Hs.
  case_bool_decide; [reflexivity|].
  destruct (Z.eqb_spec (block (info s)) p); reflexivity.
Qed.

(** The test both queries make, as a proposition. *)
Lemma owned_reflect h p :
  (exists s, slab_of h p = Some s /\ state s <> kFreeSlab
             /\ block (info s) = p)
  <-> match slab_of h p with
      | Some s => negb (bool_decide (state s = kFreeSlab))
                  && (block (info s) =? p)
      | None => false
      end = true.
Proof.
  destruct (slab_of h p) as [s|].
  - rewrite andb_true_iff, negb_true_iff, bool_decide_eq_false, Z.eqb_eq.
    split.
    + intros (s' & Hs & Hn & Hb). injection Hs as <-. auto.
    + intros [Hn Hb]. eauto.
  - split; [intros (s' & Hs & _)|]; discriminate.
Qed.

(** [Free] of a pointer other than null, by the slab the pointer resolves
    to. *)
Lemma Free_slab_of h p :
  region_ok h -> p <> NULL ->
  Free p h
  = match slab_of h p with
    | None => Done false h
    | Some s =>
        if negb (block (info s) =? p) then Done false h
        else match state s with
             | kFreeSlab => Done false h
             | kAllocatedSlab => Done true (after_free h (GetSlabIndex h p))
             | kQuarantinedSlab =>
                 if dcheck_is_on then Stopped CheckFailed
                 else Done true (after_free h (GetSlabIndex h p))
             end
    end.
Proof.
  intros Hregion Hp. unfold Free.
  destruct (Z.eqb_spec p NULL); [contradiction|].
  unmonad.
  destruct (Z.eqb_spec (GetSlabIndex h p) kInvalidSlabIndex) as [E|E].
  { rewrite slab_of_unresolved by assumption. reflexivity. }
  destruct (slab_of_resolved h p Hregion E) as [s [Hs ->]]. rewrite Hs.
  destruct (Z.eqb_spec (block (info s)) p); cbn [negb]; [|reflexivity].
  unmonad.
  destruct s as [st inf]; cbn [state info] in *.
  destruct st, dcheck_is_on;
    repeat (case_bool_decide; try congruence);
    cbn -[slab_lookup GetSlabIndex]; rewrite ?Hs; reflexivity.
Qed.

End ByteAllocator.

Section Quarantine.
Context `{Platform}.
Hypothesis Hplat : platform_ok.

(** [Push], by the slab the descriptor's block address resolves to. *)
Lemma Push_slab_of h info0 :
  region_ok h ->
  Push info0 h
  = match slab_of h (block info0) with
    | Some s =>
        if bool_decide (state s = kAllocatedSlab) && memcmp_eq (info s) info0
        then Done true (after_push h (GetSlabIndex h (block info0)) info0)
        else Done false h
    | None => Done false h
    end.
Proof.
  intros Hregion. unfold Push. unmonad.
  destruct (Z.eqb_spec (GetSlabIndex h (block info0)) kInvalidSlabIndex)
    as [E|E].
  { rewrite slab_of_unresolved by assumption. reflexivity. }
  destruct (slab_of_resolved Hplat h _ Hregion E) as [s [Hs ->]]. rewrite Hs.
  case_bool_decide; cbn [negb andb]; [|reflexivity].
  unfold memcmp_eq. case_bool_decide as Einfo; cbn [negb]; [|reflexivity].
  unmonad. cbn [with_quarantine slab_info_]. rewrite Hs, Einfo. reflexivity.
Qed.

Lemma Pop_satisfied h info0 :
  QuarantineInvariantIsSatisfied h = true -> Pop info0 h = Done (false, info0) h.
Proof. intros E. unfold Pop. unmonad. rewrite E. reflexivity. Qed.

Lemma Pop_evicts h info0 i q s :
  region_ok h -> QuarantineInvariantIsSatisfied h = false ->
  quarantine_ h = i :: q ->
  slab_lookup (slab_info_ h) i = Some s -> state s = kQuarantinedSlab ->
  Pop info0 h = Done (true, info s) (after_pop h i (info s)).
Proof.
  intros Hregion E Hq Hs Hst.
  assert (Hi : 0 <= i < slab_count_ h)
    by (apply slab_lookup_is_Some; [assumption|]; rewrite Hs; eauto).
  pose proof (index_not_invalid Hplat h i Hregion Hi) as Hinv.
  unfold Pop. unmonad. rewrite E, Hq. cbn [CircularQueue.front head].
  destruct (Z.eqb_spec i kInvalidSlabIndex); [contradiction|].
  cbn [negb]. rewrite andb_false_r. unmonad.
  cbn [with_quarantine slab_info_].
  rewrite Hs, Hst. rewrite bool_decide_eq_true_2 by reflexivity.
  cbn [negb]. rewrite andb_false_r. unmonad.
  cbn [with_quarantine slab_info_]. rewrite Hs. reflexivity.
Qed.

Lemma slab_lookup_negative l j : j < 0 -> slab_lookup l j = None.
Proof.
  intros Hj. unfold slab_lookup. destruct (Z.leb_spec 0 j); [lia|reflexivity].
Qed.

(** Releasing touches the state of the named slabs and nothing else. *)
Lemma slab_lookup_release_all q l j :
  slab_lookup (release_all q l) j
  = (if bool_decide (j ∈ q) then release else id) <$> slab_lookup l j.
Proof.
  revert l. induction q as [|i q IH]; intros l; cbn [release_all].
  { rewrite bool_decide_eq_false_2 by apply not_elem_of_nil.
    destruct (slab_lookup l j); reflexivity. }
  rewrite IH. destruct (Z.lt_ge_cases j 0) as [Hj|Hj].
  { rewrite !slab_lookup_negative by assumption. reflexivity. }
  destruct (slab_lookup l i) as [s|] eqn:Hs.
  - rewrite slab_lookup_store by (rewrite ?Hs; eauto).
    destruct (decide (i = j)) as [<-|Eij].
    + rewrite (bool_decide_eq_true_2 (i = i)) by reflexivity.
      rewrite Hs. cbn.
      rewrite (bool_decide_eq_true_2 (i ∈ i :: q)) by apply list_elem_of_here.
      case_bool_decide; reflexivity.
    + rewrite (bool_decide_eq_false_2 (i = j)) by assumption.
      rewrite (bool_decide_ext (j ∈ i :: q) (j ∈ q)); [reflexivity|].
      rewrite elem_of_cons. intuition congruence.
  - destruct (decide (j = i)) as [->|Eij].
    + rewrite Hs. reflexivity.
    + rewrite (bool_decide_ext (j ∈ i :: q) (j ∈ q)); [reflexivity|].
      rewrite elem_of_cons. intuition congruence.
Qed.

Lemma length_release_all q l : length (release_all q l) = length l.
Proof.
  revert l. induction q as [|i q IH]; intros l; cbn [release_all];
    [reflexivity|].
  rewrite IH. destruct (slab_lookup l i); [apply length_insert|reflexivity].
Qed.

Lemma descriptor_at_release_all q l j :
  descriptor_at (release_all q l) j = descriptor_at l j.
Proof.
  unfold descriptor_at. rewrite slab_lookup_release_all.
  destruct (slab_lookup l j); [|reflexivity].
  cbn. case_bool_decide; reflexivity.
Qed.

(** The loop of [Empty] releases every slab named in the queue, front to
    back, and collects the descriptors in that order; fuel of the length of
    the queue is enough. *)
Lemma Empty_loop_drains fuel q : forall h infos,
  region_ok h -> quarantine_ h = q ->
  Forall (fun i => 0 <= i < slab_count_ h) q ->
  (length q <= fuel)%nat ->
  Empty_loop fuel infos h
  = Done (infos ++ map (descriptor_at (slab_info_ h)) q)
         (with_quarantine (fun _ => [])
            (with_slab_info (release_all q) h)).
Proof.
  revert fuel. induction q as [|i q IH]; intros fuel h infos Hregion Hq Hall Hfuel.
  { destruct fuel; cbn [Empty_loop]; rewrite Hq; cbn;
      rewrite app_nil_r; destruct h; cbn in *; subst; reflexivity. }
  destruct fuel as [|fuel]; [cbn in Hfuel; lia|].
  apply Forall_cons in Hall as [Hi Hall].
  destruct (proj1 (slab_lookup_is_Some h i Hregion) Hi) as [s Hs].
  pose proof (index_not_invalid Hplat h i Hregion Hi) as Hinv.
  cbn [Empty_loop]. rewrite Hq. cbn [CircularQueue.front head].
  unmonad. destruct (Z.eqb_spec i kInvalidSlabIndex); [contradiction|].
  cbn [negb]. rewrite andb_false_r. unmonad.
  cbn [with_quarantine slab_info_].
  rewrite Hs. cbn [info].
  set (h1 := with_slab_info _ _).
  cbn [with_quarantine slab_info_]. rewrite Hs.
  rewrite (IH fuel h1 (infos ++ [info s])).
  - f_equal.
    + rewrite <- app_assoc. cbn [app map]. do 2 f_equal.
      * unfold descriptor_at. rewrite Hs. reflexivity.
      * apply map_ext. intros j. subst h1.
        cbn [with_slab_info with_quarantine slab_info_].
        assert (Hrel : <[Z.to_nat i := {| state := kAllocatedSlab;
                                          info := info s |}]> (slab_info_ h)
                       = release_all [i] (slab_info_ h))
          by (cbn [release_all]; rewrite Hs; reflexivity).
        rewrite Hrel. apply descriptor_at_release_all.
    + subst h1. unfold with_quarantine, with_slab_info. cbn.
      rewrite Hs. reflexivity.
  - subst h1. apply (region_ok_store_slab _ i), region_ok_with_quarantine.
    assumption.
  - subst h1. cbn. rewrite Hq. reflexivity.
  - subst h1. cbn. exact Hall.
  - cbn in Hfuel. lia.
Qed.

End Quarantine.

Section BlockLayoutAdapter.
Context `{Platform} `{Collaborators}.
Hypothesis Hplat : platform_ok.

(** A whole page placed in slab [i] begins at the base of the slab. *)
Lemma placed_full_page h i :
  region_ok h -> placed h i GetPageSize = slab_base h i.
Proof.
  intros Hregion. destruct (slab_base_aligned Hplat h i Hregion) as [k Hk].
  unfold placed. replace (slab_base h i + GetPageSize - GetPageSize)
    with (k * kShadowRatio) by lia.
  rewrite Z.div_mul by (destruct Hplat; lia). lia.
Qed.

(** [AllocateBlock] once the two tests on the request have passed: the
    planner is called once, and the answer decides. *)
Lemma AllocateBlock_planned h size l r layout0 :
  region_ok h -> free_slabs_ok h ->
  size_add l size <= GetPageSize -> r <= GetPageSize ->
  let planned :=
    BlockPlanLayout GetPageSize kShadowRatio size l (Z.max GetPageSize r)
      layout0 in
  AllocateBlock size l r layout0 h
  = match layout_accepted planned, free_slabs_ h with
    | true, i :: q =>
        Done {| ab_alloc := slab_base h i; ab_layout := snd planned;
                ab_planner_calls := [planner_call size l r] |}
             (store_slab i (block_slab h i (snd planned))
                (with_free_slabs CircularQueue.pop h))
    | _, _ =>
        Done {| ab_alloc := NULL; ab_layout := snd planned;
                ab_planner_calls := [planner_call size l r] |} h
    end.
Proof.
  intros Hregion Hfree Hleft Hright planned.
  unfold AllocateBlock, layout_accepted. fold planned.
  destruct (Z.ltb_spec GetPageSize (size_add l size)); [lia|].
  destruct (Z.ltb_spec GetPageSize r); [lia|].
  destruct (fst planned); cbn [negb andb]; [|reflexivity].
  destruct (Layout.block_size (snd planned) =? kSlabSize);
    cbn [negb andb]; [|reflexivity].
  destruct (_ <? GetPageSize); cbn [negb andb]; [reflexivity|].
  destruct (kShadowRatio <=? _); cbn [negb andb]; [reflexivity|].
  assert (Hzero : (NULL mod kShadowRatio =? 0) = true)
    by (unfold NULL; rewrite Z.mod_0_l by (destruct Hplat; lia); reflexivity).
  destruct (free_slabs_ h) as [|i q] eqn:Hq.
  { unfold bind at 1. rewrite AllocateImpl_rejects by auto.
    unmonad. rewrite Hzero, andb_false_r. reflexivity. }
  assert (Hi : 0 <= i < slab_count_ h).
  { unfold free_slabs_ok in Hfree. rewrite Hq in Hfree.
    apply Forall_cons in Hfree as [Hi _]. exact Hi. }
  unfold bind at 1.
  rewrite (AllocateImpl_success Hplat h GetPageSize i q)
    by (try assumption; destruct Hplat; lia).
  unmonad. rewrite slab_lookup_after_allocate by assumption.
  cbn [allocated_slab info state block].
  rewrite slab_lookup_after_allocate by assumption.
  rewrite (placed_full_page h i Hregion).
  destruct (slab_base_aligned Hplat h i Hregion) as [k Hk].
  assert (Hal : (slab_base h i mod kShadowRatio =? 0) = true).
  { rewrite Hk, Z.mul_comm, Z.mod_mul by (destruct Hplat; lia). reflexivity. }
  rewrite Hal, andb_false_r. unfold after_allocate, store_slab, block_slab.
  unfold with_slab_info. cbn. rewrite list_insert_insert_eq. reflexivity.
Qed.

End BlockLayoutAdapter.

Section HeapInvariant.
Context `{Platform} `{Collaborators}.
Hypothesis Hplat : platform_ok.

Lemma slab_lookup_nonneg l i : is_Some (slab_lookup l i) -> 0 <= i.
Proof.
  unfold slab_lookup. destruct (Z.leb_spec 0 i); [auto|].
  intros [? ?]; discriminate.
Qed.

(** Setting one slab and replacing the queues keeps the invariant when the
    new slab holds a block of its own slab and the new queues list what they
    listed before, but for the slab that was set. *)
Lemma heap_inv_update h i s' fq qq :
  heap_inv h -> is_Some (slab_lookup (slab_info_ h) i) ->
  slab_block_ok h i s' ->
  NoDup fq -> NoDup qq ->
  (forall j, j ∈ fq ->
     (j ∈ free_slabs_ h /\ j <> i) \/ (j = i /\ state s' = kFreeSlab)) ->
  (forall j, j ∈ qq ->
     (j ∈ quarantine_ h /\ j <> i) \/ (j = i /\ state s' = kQuarantinedSlab)) ->
  heap_inv (update_heap h i s' fq qq).
Proof.
  intros [Hregion Hfree Hfnd Hquar Hqnd Hblocks] Hi Hs' Hfq Hqq Hf Hq.
  assert (Hlook : forall j, 0 <= j ->
            slab_lookup (slab_info_ (update_heap h i s' fq qq)) j
            = if bool_decide (i = j) then Some s'
              else slab_lookup (slab_info_ h) j).
  { intros j Hj. cbn. apply slab_lookup_store; assumption. }
  unfold quarantine_ok in Hquar. rewrite Forall_forall in Hfree, Hquar.
  constructor.
  - revert Hregion. apply region_ok_same; try reflexivity.
    cbn. apply length_insert.
  - apply Forall_forall. intros j Hj. cbn [free_slabs_ update_heap] in Hj.
    destruct (Hf j Hj) as [[Hold Hne]|[-> Hst]].
    + destruct (Hfree j Hold) as (s & Hs & Hst).
      exists s. split; [|exact Hst].
      rewrite Hlook by (apply (slab_lookup_nonneg (slab_info_ h)); rewrite Hs; eauto).
      rewrite bool_decide_eq_false_2 by congruence. exact Hs.
    + exists s'. split; [|exact Hst].
      rewrite Hlook by (apply (slab_lookup_nonneg _ _ Hi)).
      rewrite bool_decide_eq_true_2; reflexivity.
  - exact Hfq.
  - apply Forall_forall. intros j Hj. cbn [quarantine_ update_heap] in Hj.
    destruct (Hq j Hj) as [[Hold Hne]|[-> Hst]].
    + destruct (Hquar j Hold) as (s & Hs & Hst).
      exists s. split; [|exact Hst].
      rewrite Hlook by (apply (slab_lookup_nonneg (slab_info_ h)); rewrite Hs; eauto).
      rewrite bool_decide_eq_false_2 by congruence. exact Hs.
    + exists s'. split; [|exact Hst].
      rewrite Hlook by (apply (slab_lookup_nonneg _ _ Hi)).
      rewrite bool_decide_eq_true_2; reflexivity.
  - exact Hqq.
  - intros j s Hs.
    assert (Hj : 0 <= j)
      by (apply (slab_lookup_nonneg (slab_info_ (update_heap h i s' fq qq)));
          rewrite Hs; eauto).
    rewrite Hlook in Hs by exact Hj.
    case_bool_decide as E.
    + injection Hs as <-. subst j. exact Hs'.
    + exact (Hblocks j s Hs).
Qed.

(** Facts the invariant gives about the members of the two queues. *)
Lemma free_member_state h j s :
  heap_inv h -> j ∈ free_slabs_ h ->
  slab_lookup (slab_info_ h) j = Some s -> state s = kFreeSlab.
Proof.
  intros [_ Hfree _ _ _ _] Hj Hs. rewrite Forall_forall in Hfree.
  destruct (Hfree j Hj) as (s' & Hs' & Hst). congruence.
Qed.

Lemma quarantine_member_state h j s :
  heap_inv h -> j ∈ quarantine_ h ->
  slab_lookup (slab_info_ h) j = Some s -> state s = kQuarantinedSlab.
Proof.
  intros [_ _ _ Hquar _ _] Hj Hs. unfold quarantine_ok in Hquar.
  rewrite Forall_forall in Hquar.
  destruct (Hquar j Hj) as (s' & Hs' & Hst). congruence.
Qed.

Lemma heap_inv_free_slabs_ok h : heap_inv h -> free_slabs_ok h.
Proof.
  intros [Hregion Hfree _ _ _ _]. unfold free_slabs_ok.
  eapply Forall_impl; [exact Hfree|]. cbn. intros j (s & Hs & _).
  apply slab_lookup_is_Some; [assumption|]. rewrite Hs. eauto.
Qed.

Lemma free_not_quarantined h i j :
  heap_inv h -> i ∈ free_slabs_ h -> j ∈ quarantine_ h -> j <> i.
Proof.
  intros Hinv Hi Hj ->.
  pose proof (inv_free h Hinv) as Hfree. rewrite Forall_forall in Hfree.
  destruct (Hfree i Hi) as (s & Hs & Hst).
  pose proof (quarantine_member_state h i s Hinv Hj Hs). congruence.
Qed.

(** The slab at the head of the free queue, allocated. *)
Lemma heap_inv_take_free h i q s' :
  heap_inv h -> free_slabs_ h = i :: q ->
  slab_block_ok h i s' -> state s' = kAllocatedSlab ->
  heap_inv (update_heap h i s' q (quarantine_ h)).
Proof.
  intros Hinv Hq Hs' Hst.
  assert (Hi : i ∈ free_slabs_ h) by (rewrite Hq; apply list_elem_of_here).
  pose proof (inv_free h Hinv) as Hfree. rewrite Forall_forall in Hfree.
  destruct (Hfree i Hi) as (s & Hs & _).
  pose proof (inv_free_nodup h Hinv) as Hnd. rewrite Hq in Hnd.
  apply NoDup_cons in Hnd as [Hni Hnd].
  apply heap_inv_update; try assumption.
  - rewrite Hs. eauto.
  - exact (inv_quarantine_nodup h Hinv).
  - intros j Hj. left. split.
    + rewrite Hq. apply list_elem_of_further. exact Hj.
    + intros ->. contradiction.
  - intros j Hj. left. split; [exact Hj|].
    exact (free_not_quarantined h i j Hinv Hi Hj).
Qed.

Lemma heap_inv_Allocate h bytes p h' :
  heap_inv h -> 0 <= bytes ->
  Allocate bytes h = Done p h' -> heap_inv h'.
Proof.
  intros Hinv Hb Hrun.
  pose proof (inv_region h Hinv) as Hregion.
  destruct (Z.eq_dec bytes 0) as [E0|E0];
    [|destruct (Z_lt_dec GetPageSize bytes) as [Ebig|Ebig];
      [|destruct (free_slabs_ h) as [|i q] eqn:Hq]].
  1-3: rewrite Allocate_rejects in Hrun by auto; congruence.
  assert (Hi : 0 <= i < slab_count_ h).
  { pose proof (heap_inv_free_slabs_ok h Hinv) as Hfree.
    unfold free_slabs_ok in Hfree. rewrite Hq in Hfree.
    apply Forall_cons in Hfree as [Hi _]. exact Hi. }
  rewrite (Allocate_success Hplat h bytes i q) in Hrun by (try assumption; lia).
  injection Hrun as _ <-.
  replace (after_allocate h i bytes)
    with (update_heap h i (allocated_slab h i bytes) q (quarantine_ h))
    by (unfold after_allocate, store_slab, with_slab_info, with_free_slabs,
          update_heap; cbn; rewrite Hq; reflexivity).
  apply (heap_inv_take_free h i q); try assumption; [|reflexivity].
  intros _. cbn [allocated_slab info block block_size].
  pose proof (placed_bounds Hplat h i bytes Hregion ltac:(lia)) as Hpl.
  fold (placed h i bytes) in Hpl.
  pose proof (slab_base_bounds Hplat h i Hregion Hi) as [Hlo _].
  pose proof (page_size_pos Hplat).
  destruct Hregion. unfold NULL. lia.
Qed.

Lemma slab_of_Some h p s :
  slab_of h p = Some s ->
  GetSlabIndex h p <> kInvalidSlabIndex
  /\ slab_lookup (slab_info_ h) (GetSlabIndex h p) = Some s.
Proof.
  unfold slab_of.
  destruct (Z.eqb_spec (GetSlabIndex h p) kInvalidSlabIndex);
    [discriminate|auto].
Qed.

(** An allocated slab, released to the tail of the free queue. *)
Lemma heap_inv_release h i s :
  heap_inv h -> slab_lookup (slab_info_ h) i = Some s ->
  state s = kAllocatedSlab ->
  heap_inv (update_heap h i free_slab (free_slabs_ h ++ [i]) (quarantine_ h)).
Proof.
  intros Hinv Hs Hst.
  assert (Hnf : i ∉ free_slabs_ h).
  { intros Hi. pose proof (free_member_state h i s Hinv Hi Hs). congruence. }
  assert (Hnq : i ∉ quarantine_ h).
  { intros Hi. pose proof (quarantine_member_state h i s Hinv Hi Hs).
    congruence. }
  apply heap_inv_update; try assumption.
  - rewrite Hs. eauto.
  - intros Hno. exfalso. apply Hno. reflexivity.
  - apply NoDup_app. split; [exact (inv_free_nodup h Hinv)|]. split.
    + intros j Hj Hj'. apply list_elem_of_singleton in Hj'. subst j.
      contradiction.
    + apply NoDup_singleton.
  - exact (inv_quarantine_nodup h Hinv).
  - intros j Hj. apply elem_of_app in Hj as [Hj|Hj].
    + left. split; [exact Hj|]. intros ->. contradiction.
    + apply list_elem_of_singleton in Hj. right. split; [exact Hj|reflexivity].
  - intros j Hj. left. split; [exact Hj|]. intros ->. contradiction.
Qed.

Lemma heap_inv_Free h p b h' :
  heap_inv h -> respects_contract (OpFree p) h ->
  Free p h = Done b h' -> heap_inv h'.
Proof.
  intros Hinv Hcontract Hrun.
  pose proof (inv_region h Hinv) as Hregion.
  destruct (Z.eq_dec p NULL) as [->|Hp].
  { cbn in Hrun. injection Hrun as _ <-. exact Hinv. }
  rewrite (Free_slab_of Hplat h p Hregion Hp) in Hrun.
  destruct (slab_of h p) as [s|] eqn:Hs; [|congruence].
  destruct (Z.eqb_spec (block (info s)) p) as [Eb|Eb]; cbn [negb] in Hrun;
    [|congruence].
  destruct (slab_of_Some h p s Hs) as [Hvalid Hlook].
  destruct (state s) eqn:Hst; [congruence| |].
  - injection Hrun as _ <-.
    replace (after_free h (GetSlabIndex h p))
      with (update_heap h (GetSlabIndex h p) free_slab
              (free_slabs_ h ++ [GetSlabIndex h p]) (quarantine_ h))
      by reflexivity.
    exact (heap_inv_release h _ s Hinv Hlook Hst).
  - exfalso. exact (Hcontract _ s eq_refl Hvalid Hlook Eb Hst).
Qed.

Lemma heap_inv_FreeBlock h p b h' :
  heap_inv h -> respects_contract (OpFreeBlock p) h ->
  FreeBlock p h = Done b h' -> heap_inv h'.
Proof.
  intros Hinv Hcontract Hrun. unfold FreeBlock in Hrun. unmonad.
  destruct (dcheck_is_on && negb (negb (p =? NULL))); [discriminate|].
  unmonad.
  destruct (Free p h) as [freed h1|] eqn:Hfree; [|discriminate].
  assert (h' = h1) by (destruct freed; cbn in Hrun; congruence). subst h1.
  exact (heap_inv_Free h p freed h' Hinv Hcontract Hfree).
Qed.

Lemma AllocateBlock_rejects_request h size l r layout0 :
  GetPageSize < size_add l size \/ GetPageSize < r ->
  AllocateBlock size l r layout0 h
  = Done {| ab_alloc := NULL; ab_layout := layout0; ab_planner_calls := [] |} h.
Proof.
  intros Hc. unfold AllocateBlock.
  destruct (Z.ltb_spec GetPageSize (size_add l size)); [reflexivity|].
  destruct (Z.ltb_spec GetPageSize r); [reflexivity|]. lia.
Qed.

Lemma heap_inv_AllocateBlock h size l r layout0 res h' :
  heap_inv h ->
  AllocateBlock size l r layout0 h = Done res h' -> heap_inv h'.
Proof.
  intros Hinv Hrun.
  pose proof (inv_region h Hinv) as Hregion.
  pose proof (heap_inv_free_slabs_ok h Hinv) as Hfree.
  destruct (Z_lt_dec GetPageSize (size_add l size)) as [Hl|Hl].
  { rewrite AllocateBlock_rejects_request in Hrun by auto. congruence. }
  destruct (Z_lt_dec GetPageSize r) as [Hr|Hr].
  { rewrite AllocateBlock_rejects_request in Hrun by auto. congruence. }
  rewrite (AllocateBlock_planned Hplat h size l r layout0) in Hrun
    by (try assumption; lia).
  cbv zeta in Hrun.
  destruct (layout_accepted _) eqn:Hacc; [|congruence].
  destruct (free_slabs_ h) as [|i q] eqn:Hq; [congruence|].
  injection Hrun as _ <-.
  assert (Hi : 0 <= i < slab_count_ h).
  { unfold free_slabs_ok in Hfree. rewrite Hq in Hfree.
    apply Forall_cons in Hfree as [Hi _]. exact Hi. }
  match goal with
  | |- heap_inv (store_slab i (block_slab h i ?lay) _) =>
      replace (store_slab i (block_slab h i lay)
                 (with_free_slabs CircularQueue.pop h))
        with (update_heap h i (block_slab h i lay) q (quarantine_ h))
        by (unfold store_slab, with_slab_info, with_free_slabs, update_heap;
            cbn; rewrite Hq; reflexivity)
  end.
  apply (heap_inv_take_free h i q); try assumption; [|reflexivity].
  intros _. cbn [block_slab info block block_size].
  unfold layout_accepted in Hacc.
  rewrite !andb_true_iff, Z.eqb_eq in Hacc.
  destruct Hacc as [[[_ Hsize] _] _]. rewrite Hsize, (kSlabSize_eq Hplat).
  pose proof (slab_base_bounds Hplat h i Hregion Hi) as [Hlo _].
  pose proof (page_size_pos Hplat).
  destruct Hregion. unfold NULL. lia.
Qed.

Lemma heap_inv_Push h info0 b h' :
  heap_inv h -> Push info0 h = Done b h' -> heap_inv h'.
Proof.
  intros Hinv Hrun.
  pose proof (inv_region h Hinv) as Hregion.
  rewrite (Push_slab_of Hplat h info0 Hregion) in Hrun.
  destruct (slab_of h (block info0)) as [s|] eqn:Hs; [|congruence].
  destruct (slab_of_Some h _ s Hs) as [Hvalid Hlook].
  destruct (decide (state s = kAllocatedSlab)) as [Hst|Hst];
    [|rewrite (bool_decide_eq_false_2 _ Hst) in Hrun; cbn in Hrun; congruence].
  unfold memcmp_eq in Hrun.
  destruct (decide (info s = info0)) as [Hinfo|Hinfo];
    [|rewrite (bool_decide_eq_false_2 _ Hinfo), andb_false_r in Hrun;
      congruence].
  rewrite !bool_decide_eq_true_2 in Hrun by assumption. cbn [andb] in Hrun.
  injection Hrun as _ <-.
  set (i := GetSlabIndex h (block info0)) in *.
  replace (after_push h i info0)
    with (update_heap h i {| state := kQuarantinedSlab; info := info0 |}
            (free_slabs_ h) (quarantine_ h ++ [i]))
    by reflexivity.
  assert (Hnf : i ∉ free_slabs_ h).
  { intros Hi. pose proof (free_member_state h i s Hinv Hi Hlook). congruence. }
  assert (Hnq : i ∉ quarantine_ h).
  { intros Hi. pose proof (quarantine_member_state h i s Hinv Hi Hlook).
    congruence. }
  apply heap_inv_update; try assumption.
  - rewrite Hlook. eauto.
  - intros _. cbn [info]. rewrite <- Hinfo.
    apply (inv_blocks h Hinv i s Hlook). congruence.
  - exact (inv_free_nodup h Hinv).
  - apply NoDup_app. split; [exact (inv_quarantine_nodup h Hinv)|]. split.
    + intros j Hj Hj'. apply list_elem_of_singleton in Hj'. subst j.
      contradiction.
    + apply NoDup_singleton.
  - intros j Hj. left. split; [exact Hj|]. intros ->. contradiction.
  - intros j Hj. apply elem_of_app in Hj as [Hj|Hj].
    + left. split; [exact Hj|]. intros ->. contradiction.
    + apply list_elem_of_singleton in Hj. right. split; [exact Hj|reflexivity].
Qed.

(** The head of the quarantine, handed back as allocated. *)
Lemma heap_inv_unquarantine h i q s :
  heap_inv h -> quarantine_ h = i :: q ->
  slab_lookup (slab_info_ h) i = Some s ->
  heap_inv (update_heap h i {| state := kAllocatedSlab; info := info s |}
              (free_slabs_ h) q).
Proof.
  intros Hinv Hq Hs.
  assert (Hi : i ∈ quarantine_ h) by (rewrite Hq; apply list_elem_of_here).
  pose proof (quarantine_member_state h i s Hinv Hi Hs) as Hst.
  pose proof (inv_quarantine_nodup h Hinv) as Hnd. rewrite Hq in Hnd.
  apply NoDup_cons in Hnd as [Hni Hnd].
  apply heap_inv_update; try assumption.
  - rewrite Hs. eauto.
  - intros _. cbn [info]. apply (inv_blocks h Hinv i s Hs). congruence.
  - exact (inv_free_nodup h Hinv).
  - intros j Hj. left. split; [exact Hj|].
    intros ->. pose proof (free_member_state h i s Hinv Hj Hs). congruence.
  - intros j Hj. left. split.
    + rewrite Hq. apply list_elem_of_further. exact Hj.
    + intros ->. contradiction.
Qed.

Lemma heap_inv_Pop h info0 r h' :
  heap_inv h -> Pop info0 h = Done r h' -> heap_inv h'.
Proof.
  intros Hinv Hrun.
  pose proof (inv_region h Hinv) as Hregion.
  destruct (QuarantineInvariantIsSatisfied h) eqn:E.
  { rewrite Pop_satisfied in Hrun by assumption. congruence. }
  destruct (quarantine_ h) as [|i q] eqn:Hq.
  { unfold QuarantineInvariantIsSatisfied in E. rewrite Hq in E.
    discriminate E. }
  pose proof (inv_quarantine h Hinv) as Hquar. unfold quarantine_ok in Hquar.
  rewrite Hq in Hquar. apply Forall_cons in Hquar as [(s & Hs & Hst) _].
  rewrite (Pop_evicts Hplat h info0 i q s) in Hrun by assumption.
  injection Hrun as _ <-.
  replace (after_pop h i (info s))
    with (update_heap h i {| state := kAllocatedSlab; info := info s |}
            (free_slabs_ h) q)
    by (unfold after_pop, store_slab, with_slab_info, with_quarantine,
          update_heap; cbn; rewrite Hq; reflexivity).
  exact (heap_inv_unquarantine h i q s Hinv Hq Hs).
Qed.

Lemma heap_inv_Empty h infos r h' :
  heap_inv h -> Empty infos h = Done r h' -> heap_inv h'.
Proof.
  intros Hinv Hrun.
  pose proof (inv_region h Hinv) as Hregion.
  pose proof (inv_quarantine h Hinv) as Hquar. unfold quarantine_ok in Hquar.
  assert (Hall : Forall (fun i => 0 <= i < slab_count_ h) (quarantine_ h)).
  { eapply Forall_impl; [exact Hquar|]. cbn. intros i (s & Hs & _).
    apply slab_lookup_is_Some; [assumption|]. rewrite Hs. eauto. }
  unfold Empty in Hrun.
  rewrite (Empty_loop_drains Hplat _ (quarantine_ h)) in Hrun by auto.
  injection Hrun as _ <-.
  rewrite Forall_forall in Hquar.
  constructor.
  - revert Hregion. apply region_ok_same; try reflexivity.
    cbn. apply length_release_all.
  - apply Forall_forall. intros j Hj. cbn in Hj |- *.
    pose proof (inv_free h Hinv) as Hfree. rewrite Forall_forall in Hfree.
    destruct (Hfree j Hj) as (s & Hs & Hst). exists s. split; [|exact Hst].
    rewrite slab_lookup_release_all, Hs.
    rewrite bool_decide_eq_false_2; [reflexivity|].
    intros Hq. exact (free_not_quarantined h j j Hinv Hj Hq eq_refl).
  - exact (inv_free_nodup h Hinv).
  - apply Forall_nil_2.
  - apply NoDup_nil_2.
  - intros j s Hs. cbn in Hs. rewrite slab_lookup_release_all in Hs.
    destruct (slab_lookup (slab_info_ h) j) as [s0|] eqn:Hs0; [|discriminate].
    pose proof (inv_blocks h Hinv j s0 Hs0) as Hok.
    cbn in Hs. injection Hs as <-.
    case_bool_decide as Hq; [|exact Hok].
    destruct (Hquar j Hq) as (s1 & Hs1 & Hst1).
    intros _. apply Hok. congruence.
Qed.

Lemma heap_inv_set_quarantine_ratio h ratio h' :
  heap_inv h -> set_quarantine_ratio ratio h = Done tt h' -> heap_inv h'.
Proof.
  intros [Hregion Hfree Hfnd Hquar Hqnd Hblocks] Hrun.
  unfold set_quarantine_ratio in Hrun. unmonad.
  destruct (dcheck_is_on && negb (SFleb (to_float 0) ratio)); [discriminate|].
  unmonad.
  destruct (dcheck_is_on && negb (SFleb ratio (to_float 1))); [discriminate|].
  unmonad. injection Hrun as <-.
  constructor; try assumption.
  revert Hregion. apply region_ok_same; reflexivity.
Qed.

Lemma heap_inv_run_operation h o h' :
  heap_inv h -> size_t_argument o -> respects_contract o h ->
  run_operation o h = Done tt h' -> heap_inv h'.
Proof.
  intros Hinv Harg Hcontract Hrun.
  pose proof (inv_region h Hinv) as Hregion.
  destruct o; cbn [run_operation] in Hrun; unfold forget, bind, ret in Hrun.
  - destruct (Allocate bytes h) eqn:E; [|discriminate]. injection Hrun as <-.
    exact (heap_inv_Allocate h bytes _ _ Hinv Harg E).
  - destruct (Free alloc h) eqn:E; [|discriminate]. injection Hrun as <-.
    exact (heap_inv_Free h alloc _ _ Hinv Hcontract E).
  - rewrite IsAllocated_slab_of in Hrun by assumption. congruence.
  - rewrite GetAllocationSize_slab_of in Hrun by assumption. congruence.
  - destruct (AllocateBlock _ _ _ _ h) eqn:E; [|discriminate].
    injection Hrun as <-.
    exact (heap_inv_AllocateBlock h _ _ _ _ _ _ Hinv E).
  - destruct (FreeBlock block_info_block h) eqn:E; [|discriminate].
    injection Hrun as <-.
    exact (heap_inv_FreeBlock h _ _ _ Hinv Hcontract E).
  - destruct (Push info0 h) eqn:E; [|discriminate]. injection Hrun as <-.
    exact (heap_inv_Push h info0 _ _ Hinv E).
  - destruct (Pop info0 h) eqn:E; [|discriminate]. injection Hrun as <-.
    exact (heap_inv_Pop h info0 _ _ Hinv E).
  - destruct (Empty infos h) eqn:E; [|discriminate]. injection Hrun as <-.
    exact (heap_inv_Empty h infos _ _ Hinv E).
  - cbn in Hrun. congruence.
  - destruct (set_quarantine_ratio quarantine_ratio h) as [[] h1|] eqn:E;
      [|discriminate].
    injection Hrun as <-.
    exact (heap_inv_set_quarantine_ratio h _ _ Hinv E).
Qed.

(** The constructor's loop sets every slab it visits to [free_slab] and
    queues the indices in the order of the visit. *)
Lemma ctor_loop l : forall h,
  foldl ctor_init_slab h l
  = with_free_slabs (fun q => q ++ l)
      (with_slab_info
         (fun t => foldl (fun t i => <[Z.to_nat i := free_slab]> t) t l) h).
Proof.
  induction l as [|i l IH]; intros h; cbn [foldl].
  { destruct h; unfold with_free_slabs, with_slab_info; cbn.
    rewrite app_nil_r. reflexivity. }
  rewrite IH. unfold ctor_init_slab, with_free_slabs, with_slab_info,
    CircularQueue.push. cbn. rewrite <- app_assoc. reflexivity.
Qed.

Lemma ctor_table n l :
  foldl (fun t i => <[Z.to_nat i := free_slab]> t) (replicate n free_slab) l
  = replicate n free_slab.
Proof.
  induction l as [|i l IH]; cbn [foldl]; [reflexivity|].
  rewrite insert_replicate. exact IH.
Qed.

(** What the constructor builds, when it returns. *)
Lemma ZebraBlockHeap_new_heap heap_size h0 :
  ZebraBlockHeap_new heap_size = Done tt h0 ->
  let size0 := AlignUp heap_size kSlabSize in
  let count0 := size0 / kSlabSize in
  VirtualAlloc size0 <> NULL
  /\ h0 = {| heap_address_ := VirtualAlloc size0; heap_size_ := size0;
             slab_count_ := count0;
             slab_info_ := replicate (Z.to_nat count0) free_slab;
             quarantine_ratio_ := kDefaultZebraBlockHeapQuarantineRatio;
             free_slabs_ := seqZ 0 count0; quarantine_ := [] |}.
Proof.
  intros Hrun size0 count0. unfold ZebraBlockHeap_new in Hrun.
  fold size0 in Hrun. fold count0 in Hrun. unmonad.
  destruct (dcheck_is_on && negb (negb (memory_notifier =? NULL)));
    [discriminate|].
  destruct (Z.eqb_spec (VirtualAlloc size0) NULL) as [|Hnn];
    [discriminate|]. cbn [negb] in Hrun.
  destruct (dcheck_is_on && negb (IsAligned (VirtualAlloc size0) GetPageSize));
    [discriminate|].
  injection Hrun as <-. split; [exact Hnn|].
  rewrite ctor_loop. unfold with_free_slabs, with_slab_info. cbn.
  fold free_slab. rewrite ctor_table. reflexivity.
Qed.

(** The constructor establishes the invariant, given a region from the
    operating system that is page-aligned and ends below the top of the
    address space. *)
Lemma heap_inv_new heap_size h0 :
  ZebraBlockHeap_new heap_size = Done tt h0 ->
  0 <= heap_address_ h0 ->
  heap_address_ h0 mod GetPageSize = 0 ->
  heap_address_ h0 + heap_size_ h0 < 2 ^ size_bits ->
  heap_inv h0.
Proof.
  intros Hrun Hnonneg Haligned Hfits.
  destruct (ZebraBlockHeap_new_heap heap_size h0 Hrun) as [Hnn ->].
  cbn [heap_address_ heap_size_] in *.
  set (size0 := AlignUp heap_size kSlabSize) in *.
  set (count0 := size0 / kSlabSize) in *.
  pose proof (kSlabSize_pos Hplat) as Hslab.
  assert (Hsize : size0 = count0 * kSlabSize /\ 0 <= count0).
  { subst count0 size0. unfold AlignUp.
    set (x := size_sub (size_add heap_size kSlabSize) 1).
    assert (Hx : 0 <= x < 2 ^ size_bits) by (apply wrap_range; assumption).
    rewrite (AlignDown_exact x kSlabSize Hslab Hx).
    rewrite (Z.mul_comm kSlabSize), Z.div_mul by lia.
    split; [reflexivity|]. apply Z.div_pos; lia. }
  destruct Hsize as [Hsize Hcount].
  assert (Hlook : forall j s,
            slab_lookup (replicate (Z.to_nat count0) free_slab) j = Some s ->
            s = free_slab).
  { intros j s. unfold slab_lookup. destruct (0 <=? j); [|discriminate].
    intros Hs. apply lookup_replicate in Hs as [-> _]. reflexivity. }
  constructor; cbn.
  - constructor; cbn; try assumption.
    + unfold NULL in Hnn. lia.
    + rewrite length_replicate. lia.
  - apply Forall_forall. intros j Hj. apply elem_of_seqZ in Hj.
    exists free_slab. split; [|reflexivity].
    unfold slab_lookup. destruct (Z.leb_spec 0 j); [|lia].
    apply lookup_replicate_2. lia.
  - apply NoDup_seqZ.
  - apply Forall_nil_2.
  - apply NoDup_nil_2.
  - intros j s Hs. apply Hlook in Hs. subst s.
    intros Hno. exfalso. apply Hno. reflexivity.
Qed.

(** Every heap reached under the contract satisfies the invariant. *)
Lemma heap_inv_reachable h0 h :
  heap_inv h0 -> reachable h0 h -> heap_inv h.
Proof.
  intros Hinv0 Hreach. induction Hreach as [|h o h' _ IH Harg Hcontract Hrun].
  - exact Hinv0.
  - exact (heap_inv_run_operation h o h' IH Harg Hcontract Hrun).
Qed.

(** With [DCHECK]s, a [Free] that returns has respected the contract. *)
Lemma dcheck_enforces_contract h o h' :
  dcheck_is_on = true -> region_ok h ->
  run_operation o h = Done tt h' -> respects_contract o h.
Proof.
  intros Hon Hregion Hrun.
  assert (Hfree : forall p b h1, Free p h = Done b h1 ->
            forall i s, GetSlabIndex h p = i -> i <> kInvalidSlabIndex ->
              slab_lookup (slab_info_ h) i = Some s -> block (info s) = p ->
              state s <> kQuarantinedSlab).
  { intros p b h1 E i s <- Hvalid Hs Hb Hst.
    assert (Hp : p <> NULL).
    { intros ->. rewrite GetSlabIndex_NULL in Hvalid by assumption.
      contradiction. }
    rewrite (Free_slab_of Hplat h p Hregion Hp) in E.
    unfold slab_of in E.
    destruct (Z.eqb_spec (GetSlabIndex h p) kInvalidSlabIndex);
      [contradiction|].
    rewrite Hs, Hb, Z.eqb_refl, Hst, Hon in E. discriminate E. }
  destruct o; cbn [respects_contract]; try exact I;
    cbn [run_operation] in Hrun; unfold forget, bind, ret in Hrun.
  - destruct (Free alloc h) eqn:E; [|discriminate]. exact (Hfree _ _ _ E).
  - unfold FreeBlock in Hrun. unmonad.
    destruct (dcheck_is_on && negb (negb (block_info_block =? NULL)));
      [discriminate|].
    unmonad. destruct (Free block_info_block h) eqn:E; [|discriminate].
    exact (Hfree _ _ _ E).
Qed.

(** Under the invariant the two queues together never hold more than
    [slab_count_] indices, the capacity the constructor gives each of
    them. *)
Lemma queues_within_capacity h :
  heap_inv h ->
  CircularQueue.size (free_slabs_ h) + CircularQueue.size (quarantine_ h)
  <= slab_count_ h.
Proof.
  intros Hinv. pose proof (inv_region h Hinv) as Hregion.
  assert (Hnd : NoDup (free_slabs_ h ++ quarantine_ h)).
  { apply NoDup_app. split; [exact (inv_free_nodup h Hinv)|].
    split; [|exact (inv_quarantine_nodup h Hinv)].
    intros i Hi Hq. exact (free_not_quarantined h i i Hinv Hi Hq eq_refl). }
  assert (Hsub : free_slabs_ h ++ quarantine_ h ⊆+ seqZ 0 (slab_count_ h)).
  { apply NoDup_submseteq; [exact Hnd|]. intros i Hi.
    apply elem_of_seqZ. apply elem_of_app in Hi as [Hi|Hi].
    - pose proof (heap_inv_free_slabs_ok h Hinv) as Hfree.
      unfold free_slabs_ok in Hfree. rewrite Forall_forall in Hfree.
      specialize (Hfree i Hi). lia.
    - pose proof (inv_quarantine h Hinv) as Hquar.
      unfold quarantine_ok in Hquar. rewrite Forall_forall in Hquar.
      destruct (Hquar i Hi) as (s & Hs & _).
      assert (0 <= i < slab_count_ h)
        by (apply slab_lookup_is_Some; [assumption|]; rewrite Hs; eauto).
      lia. }
  apply submseteq_length in Hsub.
  rewrite length_app, length_seqZ in Hsub.
  unfold CircularQueue.size. destruct Hregion. lia.
Qed.

End HeapInvariant.

(** ** The ratio test in exact numbers

    The conversion, the division and the comparison of [SpecFloat], for
    counts below [2 ^ 24], against [binary32_quotient] and
    [binary32_value]. *)

(** *** The number of bits of a mantissa *)

Lemma digits2_pos_log2 p : Zpos (digits2_pos p) = Z.log2 (Zpos p) + 1.
Proof.
  assert (Hsize : forall q, digits2_pos q = Pos.size q)
    by (induction q as [q IH|q IH|]; cbn; rewrite ?IH; reflexivity).
  destruct p as [p|p|]; cbn [digits2_pos Z.log2]; rewrite ?Hsize; lia.
Qed.

Lemma digits2_pos_24 p :
  2 ^ 23 <= Zpos p < 2 ^ 24 -> Zpos (digits2_pos p) = 24.
Proof.
  intros Hp. rewrite digits2_pos_log2.
  rewrite (Z.log2_unique (Zpos p) 23); [reflexivity|lia|exact Hp].
Qed.

Lemma digits2_pos_25 p :
  2 ^ 24 <= Zpos p < 2 ^ 25 -> Zpos (digits2_pos p) = 25.
Proof.
  intros Hp. rewrite digits2_pos_log2.
  rewrite (Z.log2_unique (Zpos p) 24); [reflexivity|lia|exact Hp].
Qed.

(** *** Shifting and rounding a mantissa *)

Lemma shr_record_of_loc_m m l : shr_m (shr_record_of_loc m l) = m.
Proof. destruct l as [|[]]; reflexivity. Qed.

Lemma loc_of_shr_record_of_loc m l :
  loc_of_shr_record (shr_record_of_loc m l) = l.
Proof. destruct l as [|[]]; reflexivity. Qed.

Lemma shr_fexp_24 m e l :
  2 ^ 23 <= m < 2 ^ 24 -> -149 <= e ->
  shr_fexp 24 128 m e l = (shr_record_of_loc m l, e).
Proof.
  intros Hm He. destruct m as [|p|p]; try lia.
  unfold shr_fexp. cbn [Zdigits2]. rewrite (digits2_pos_24 p Hm).
  replace (fexp 24 128 (24 + e) - e) with 0 by (unfold fexp, emin; lia).
  reflexivity.
Qed.

Lemma shr_fexp_25 m e l :
  2 ^ 24 <= m < 2 ^ 25 -> -150 <= e ->
  shr_fexp 24 128 m e l = (shr_1 (shr_record_of_loc m l), e + 1).
Proof.
  intros Hm He. destruct m as [|p|p]; try lia.
  unfold shr_fexp. cbn [Zdigits2]. rewrite (digits2_pos_25 p Hm).
  replace (fexp 24 128 (25 + e) - e) with 1 by (unfold fexp, emin; lia).
  reflexivity.
Qed.

Lemma shr_1_of_loc m l :
  2 <= m ->
  shr_1 (shr_record_of_loc m l)
  = {| shr_m := Z.div2 m; shr_r := Z.odd m;
       shr_s := match l with loc_Exact => false | _ => true end |}.
Proof.
  intros Hm. destruct m as [|[p|p|]|]; try lia; destruct l as [|[]]; reflexivity.
Qed.

(** A mantissa of 24 bits after rounding stays, a carry into the 25th bit
    moves to the next binade. *)
Lemma binary_round_aux_tail m e :
  2 ^ 23 <= m <= 2 ^ 24 -> -149 <= e <= 103 ->
  (let '(mrs, e') := shr_fexp 24 128 m e loc_Exact in
   match shr_m mrs with
   | Z0 => S754_zero false
   | Zpos p => if e' <=? 128 - 24 then S754_finite false p e'
               else S754_infinity false
   | Zneg _ => S754_nan
   end)
  = if m <? 2 ^ 24 then S754_finite false (Z.to_pos m) e
    else S754_finite false (Z.to_pos (2 ^ 23)) (e + 1).
Proof.
  intros Hm He. destruct (Z.ltb_spec m (2 ^ 24)) as [Hlt|Hge].
  - rewrite shr_fexp_24 by lia. cbn [shr_m shr_record_of_loc].
    destruct m as [|p|p]; try lia.
    destruct (Z.leb_spec e (128 - 24)); [reflexivity|lia].
  - assert (m = 2 ^ 24) by lia. subst m.
    rewrite shr_fexp_25 by lia.
    change (shr_m (shr_1 (shr_record_of_loc (2 ^ 24) loc_Exact)))
      with (Zpos (Z.to_pos (2 ^ 23))).
    cbv iota beta.
    destruct (Z.leb_spec (e + 1) (128 - 24)); [reflexivity|lia].
Qed.

Lemma round_nearest_even_bounds m l :
  m <= round_nearest_even m l <= m + 1.
Proof.
  unfold round_nearest_even. destruct l as [|[]]; try destruct (Z.even m); lia.
Qed.

Lemma binary_round_aux_24 q e l :
  2 ^ 23 <= q < 2 ^ 24 -> -149 <= e <= 103 ->
  binary_round_aux 24 128 false q e l
  = let m := round_nearest_even q l in
    if m <? 2 ^ 24 then S754_finite false (Z.to_pos m) e
    else S754_finite false (Z.to_pos (2 ^ 23)) (e + 1).
Proof.
  intros Hq He. unfold binary_round_aux.
  rewrite shr_fexp_24 by lia.
  rewrite shr_record_of_loc_m, loc_of_shr_record_of_loc.
  pose proof (round_nearest_even_bounds q l).
  apply binary_round_aux_tail; lia.
Qed.

Lemma binary_round_aux_25 q e l :
  2 ^ 24 <= q < 2 ^ 25 -> -150 <= e <= 102 ->
  binary_round_aux 24 128 false q e l
  = let m := round_nearest_even (q / 2)
               (loc_of_shr_record
                  {| shr_m := q / 2; shr_r := Z.odd q;
                     shr_s := match l with loc_Exact => false | _ => true end |})
    in
    if m <? 2 ^ 24 then S754_finite false (Z.to_pos m) (e + 1)
    else S754_finite false (Z.to_pos (2 ^ 23)) (e + 1 + 1).
Proof.
  intros Hq He. unfold binary_round_aux.
  rewrite shr_fexp_25 by lia.
  rewrite shr_1_of_loc by lia. rewrite Z.div2_div. cbn [shr_m].
  set (l' := loc_of_shr_record _).
  pose proof (round_nearest_even_bounds (q / 2) l').
  assert (2 ^ 23 <= q / 2 < 2 ^ 24).
  { split; [apply Z.div_le_lower_bound|apply Z.div_lt_upper_bound]; lia. }
  apply binary_round_aux_tail; lia.
Qed.

(** *** Conversion of a count *)

Lemma Pos_iter_xO m d : Zpos (Pos.iter xO m d) = Zpos m * 2 ^ Zpos d.
Proof.
  induction d as [|d IH] using Pos.peano_ind.
  - cbn. lia.
  - rewrite Pos.iter_succ, Pos2Z.inj_succ, Z.pow_succ_r by lia.
    rewrite Pos2Z.inj_xO, IH. lia.
Qed.

Lemma shl_align_spec m e e' :
  e' <= e ->
  Zpos (fst (shl_align m e e')) = Zpos m * 2 ^ (e - e')
  /\ snd (shl_align m e e') = e'.
Proof.
  intros He. unfold shl_align.
  destruct (e' - e) as [|d|d] eqn:Ed; try lia.
  - replace (e - e') with 0 by lia. cbn [fst snd]. split; lia.
  - cbn [fst snd]. rewrite Pos_iter_xO. replace (e - e') with (Zpos d) by lia.
    split; reflexivity.
Qed.

(** A count below [2 ^ 24] converts exactly: the mantissa is the count
    shifted up to 24 bits. *)
Lemma to_float_exact n :
  1 <= n < 2 ^ 24 ->
  to_float n
  = S754_finite false (Z.to_pos (n * 2 ^ (23 - Z.log2 n))) (Z.log2 n - 23).
Proof.
  intros Hn. destruct n as [|p|p]; try lia.
  pose proof (Z.log2_spec (Zpos p) ltac:(lia)) as Hlog.
  pose proof (Z.log2_nonneg (Zpos p)) as Hnn.
  assert (Hl : Z.log2 (Zpos p) <= 23).
  { apply Z.lt_succ_r, (Z.pow_lt_mono_r_iff 2); lia. }
  unfold to_float, binary_normalize, binary_round.
  rewrite digits2_pos_log2.
  replace (fexp 24 128 (Z.log2 (Zpos p) + 1 + 0)) with (Z.log2 (Zpos p) - 23)
    by (unfold fexp, emin; lia).
  destruct (shl_align_spec p 0 (Z.log2 (Zpos p) - 23) ltac:(lia)) as [Hm He].
  destruct (shl_align p 0 (Z.log2 (Zpos p) - 23)) as [mz ez].
  cbn [fst snd] in Hm, He. subst ez.
  replace (0 - (Z.log2 (Zpos p) - 23)) with (23 - Z.log2 (Zpos p)) in Hm by lia.
  assert (Hmz : 2 ^ 23 <= Zpos mz < 2 ^ 24).
  { rewrite Hm.
    replace (2 ^ 23) with (2 ^ Z.log2 (Zpos p) * 2 ^ (23 - Z.log2 (Zpos p)))
      by (rewrite <- Z.pow_add_r by lia; f_equal; lia).
    replace (2 ^ 24)
      with (2 ^ Z.succ (Z.log2 (Zpos p)) * 2 ^ (23 - Z.log2 (Zpos p)))
      by (rewrite <- Z.pow_add_r by lia; f_equal; lia).
    assert (0 < 2 ^ (23 - Z.log2 (Zpos p))) by (apply Z.pow_pos_nonneg; lia).
    nia. }
  rewrite binary_round_aux_24 by lia.
  cbn [round_nearest_even]. cbv zeta.
  destruct (Z.ltb_spec (Zpos mz) (2 ^ 24)); [|lia].
  rewrite <- Hm. reflexivity.
Qed.

(** *** Division *)

Lemma new_location_spec m r :
  0 < m -> 0 <= r < m ->
  new_location m r
  = if r =? 0 then loc_Exact else loc_Inexact (2 * r ?= m).
Proof.
  intros Hm Hr. unfold new_location, new_location_even, new_location_odd.
  destruct (Z.even m) eqn:Em; [reflexivity|].
  destruct (r =? 0); [reflexivity|]. f_equal.
  assert (Hodd : Z.odd m = true) by (rewrite <- Z.negb_even, Em; reflexivity).
  apply Z.odd_spec in Hodd as [k Hk].
  destruct (Z.compare_spec (2 * r + 1) m), (Z.compare_spec (2 * r) m);
    try reflexivity; lia.
Qed.

Lemma div_eucl_div_mod a b : Z.div_eucl a b = (a / b, a mod b).
Proof. unfold Z.div, Z.modulo. destruct (Z.div_eucl a b). reflexivity. Qed.

(** The quotient of two normal numbers with mantissas of 24 bits: the
    dividend is shifted up by 24 bits, divided, and the quotient rounded
    according to the remainder. *)
Lemma SFdiv_normal mx ex my ey :
  2 ^ 23 <= Zpos mx < 2 ^ 24 -> 2 ^ 23 <= Zpos my < 2 ^ 24 ->
  -100 <= ex - ey ->
  SFdiv 24 128 (S754_finite false mx ex) (S754_finite false my ey)
  = binary_round_aux 24 128 false
      (Zpos mx * 2 ^ 24 / Zpos my) (ex - ey - 24)
      (let r := (Zpos mx * 2 ^ 24) mod Zpos my in
       if r =? 0 then loc_Exact else loc_Inexact (2 * r ?= Zpos my)).
Proof.
  intros Hx Hy He. unfold SFdiv, SFdiv_core_binary. cbn [Zdigits2 xorb].
  rewrite (digits2_pos_24 mx Hx), (digits2_pos_24 my Hy).
  replace (Z.min (fexp 24 128 (24 + ex - (24 + ey))) (ex - ey))
    with (ex - ey - 24) by (unfold fexp, emin; lia).
  replace (ex - ey - (ex - ey - 24)) with 24 by lia.
  cbv iota beta. rewrite Z.shiftl_mul_pow2 by lia.
  rewrite div_eucl_div_mod.
  rewrite new_location_spec; [reflexivity|lia|].
  apply Z.mod_pos_bound. lia.
Qed.

Lemma round_matches_nearest a c :
  0 < c ->
  round_nearest_even (a / c)
    (if a mod c =? 0 then loc_Exact else loc_Inexact (2 * (a mod c) ?= c))
  = nearest_even a c.
Proof.
  intros Hc. unfold nearest_even.
  destruct (Z.eqb_spec (a mod c) 0) as [E|E].
  - rewrite E. replace (2 * 0 ?= c) with Lt by (symmetry; apply Z.compare_lt_iff; lia).
    reflexivity.
  - destruct (2 * (a mod c) ?= c); reflexivity.
Qed.

Lemma round_matches_nearest_half a c :
  0 < c ->
  let q := 2 * a / c in
  let r := (2 * a) mod c in
  let l := if r =? 0 then loc_Exact else loc_Inexact (2 * r ?= c) in
  round_nearest_even (q / 2)
    (loc_of_shr_record
       {| shr_m := q / 2; shr_r := Z.odd q;
          shr_s := match l with loc_Exact => false | _ => true end |})
  = nearest_even a c.
Proof.
  intros Hc q r l.
  pose proof (Z.div_mod a c ltac:(lia)) as Hdm.
  pose proof (Z.mod_pos_bound a c Hc) as Hmod.
  set (k := a / c) in *. set (t := a mod c) in *.
  unfold nearest_even. fold k. fold t.
  destruct (Z.compare_spec (2 * t) c) as [Heq|Hlt|Hgt].
  - assert (Hq : q = 2 * k + 1)
      by (symmetry; apply (Z.div_unique_pos _ _ _ 0); lia).
    assert (Hr : r = 0)
      by (symmetry; apply (Z.mod_unique_pos _ _ (2 * k + 1)); lia).
    subst l. rewrite Hr, Hq. cbn [Z.eqb].
    replace ((2 * k + 1) / 2) with k
      by (apply (Z.div_unique_pos _ _ _ 1); lia).
    rewrite (Z.add_comm (2 * k) 1), Z.odd_add_mul_2. reflexivity.
  - assert (Hq : q = 2 * k)
      by (symmetry; apply (Z.div_unique_pos _ _ _ (2 * t)); lia).
    assert (Hr : r = 2 * t)
      by (symmetry; apply (Z.mod_unique_pos _ _ (2 * k)); lia).
    subst l. rewrite Hr, Hq.
    replace (2 * k / 2) with k
      by (apply (Z.div_unique_pos _ _ _ 0); lia).
    rewrite Z.odd_mul, andb_false_l.
    destruct (Z.eqb_spec (2 * t) 0); reflexivity.
  - assert (Hq : q = 2 * k + 1)
      by (symmetry; apply (Z.div_unique_pos _ _ _ (2 * t - c)); lia).
    assert (Hr : r = 2 * t - c)
      by (symmetry; apply (Z.mod_unique_pos _ _ (2 * k + 1)); lia).
    subst l. rewrite Hr, Hq.
    replace ((2 * k + 1) / 2) with k
      by (apply (Z.div_unique_pos _ _ _ 1); lia).
    rewrite (Z.add_comm (2 * k) 1), Z.odd_add_mul_2.
    destruct (Z.eqb_spec (2 * t - c) 0); [lia|]. reflexivity.
Qed.

(** A count below [2 ^ 24], shifted up to a mantissa of 24 bits. *)
Lemma normalized_bounds n :
  1 <= n < 2 ^ 24 ->
  0 <= Z.log2 n <= 23
  /\ 2 ^ Z.log2 n <= n < 2 * 2 ^ Z.log2 n
  /\ 2 ^ Z.log2 n * 2 ^ (23 - Z.log2 n) = 2 ^ 23
  /\ 0 < 2 ^ (23 - Z.log2 n)
  /\ 2 ^ 23 <= n * 2 ^ (23 - Z.log2 n) < 2 ^ 24.
Proof.
  intros Hn.
  pose proof (Z.log2_spec n ltac:(lia)) as Hlog.
  rewrite Z.pow_succ_r in Hlog by apply Z.log2_nonneg.
  pose proof (Z.log2_nonneg n) as Hnn.
  assert (Hl : Z.log2 n <= 23).
  { apply Z.lt_succ_r, (Z.pow_lt_mono_r_iff 2); [lia|lia|].
    rewrite Z.pow_succ_r by lia. lia. }
  assert (Hprod : 2 ^ Z.log2 n * 2 ^ (23 - Z.log2 n) = 2 ^ 23)
    by (rewrite <- Z.pow_add_r by lia; f_equal; lia).
  assert (Hpos : 0 < 2 ^ (23 - Z.log2 n)) by (apply Z.pow_pos_nonneg; lia).
  repeat split; try lia; nia.
Qed.

(** *** Comparison *)

(** [scaled m e] over the common denominator [2 ^ 149], below which no
    binary32 number has a digit. *)
Lemma scaled_fixed m e :
  -149 <= e ->
  (scaled m e == Qmake (m * 2 ^ (e + 149)) (Z.to_pos (2 ^ 149)))%Q.
Proof.
  intros He. unfold scaled, Qeq.
  destruct (Z.leb_spec 0 e); cbn [Qnum Qden inject_Z].
  - rewrite Z2Pos.id by lia. rewrite Z.pow_add_r by lia. lia.
  - rewrite !Z2Pos.id by (apply Z.pow_pos_nonneg; lia).
    replace (2 ^ 149) with (2 ^ (e + 149) * 2 ^ (- e))
      by (rewrite <- Z.pow_add_r by lia; f_equal; lia).
    lia.
Qed.

Lemma scaled_le m1 e1 m2 e2 :
  -149 <= e1 -> -149 <= e2 ->
  (scaled m1 e1 <= scaled m2 e2)%Q
  <-> m1 * 2 ^ (e1 + 149) <= m2 * 2 ^ (e2 + 149).
Proof.
  intros H1 H2. rewrite (scaled_fixed m1 e1 H1), (scaled_fixed m2 e2 H2).
  unfold Qle. cbn [Qnum Qden].
  rewrite Z2Pos.id by lia.
  split; intros Hle; [|apply Z.mul_le_mono_nonneg_r; lia].
  apply Z.mul_le_mono_pos_r in Hle; [exact Hle|lia].
Qed.

Lemma scaled_carry e :
  -149 <= e -> (scaled (2 ^ 23) (e + 1) == scaled (2 ^ 24) e)%Q.
Proof.
  intros He. rewrite (scaled_fixed _ (e + 1)), (scaled_fixed _ e) by lia.
  replace (e + 1 + 149) with (Z.succ (e + 149)) by lia.
  rewrite Z.pow_succ_r by lia.
  replace (2 ^ 23 * (2 * 2 ^ (e + 149))) with (2 ^ 24 * 2 ^ (e + 149)) by lia.
  reflexivity.
Qed.

(** The comparison of a normal number with a ratio is the comparison of
    the numbers they stand for. *)
Lemma SFleb_exact mz ez r :
  2 ^ 23 <= Zpos mz < 2 ^ 24 -> -149 <= ez ->
  nonnegative_binary32 r ->
  SFleb (S754_finite false mz ez) r = true
  <-> (scaled (Zpos mz) ez <= binary32_value r)%Q.
Proof.
  intros Hm He Hr. destruct r as [s|s| |[|] mr er]; try contradiction.
  - cbn [binary32_value]. split; [discriminate|]. intros Hle. exfalso.
    rewrite (scaled_fixed _ _ He) in Hle. unfold Qle in Hle.
    cbn [Qnum Qden] in Hle.
    assert (0 < 2 ^ (ez + 149)) by (apply Z.pow_pos_nonneg; lia). nia.
  - cbn [nonnegative_binary32] in Hr.
    unfold bounded, canonical_mantissa in Hr.
    apply andb_true_iff in Hr as [Hcanon _]. apply Z.eqb_eq in Hcanon.
    rewrite digits2_pos_log2 in Hcanon.
    pose proof (Z.log2_spec (Zpos mr) ltac:(lia)) as Hlog.
    pose proof (Z.log2_nonneg (Zpos mr)) as Hnn.
    assert (Her : -149 <= er) by (unfold fexp, emin in Hcanon; lia).
    assert (Hsmall : Z.log2 (Zpos mr) <= 23)
      by (unfold fexp, emin in Hcanon; lia).
    assert (Hmr : Zpos mr < 2 ^ 24).
    { eapply Z.lt_le_trans; [exact (proj2 Hlog)|].
      apply Z.pow_le_mono_r; lia. }
    assert (Hnormal : -149 < er -> 2 ^ 23 <= Zpos mr).
    { intros Hgt. assert (Z.log2 (Zpos mr) = 23)
        by (unfold fexp, emin in Hcanon; lia).
      replace 23 with (Z.log2 (Zpos mr)) by assumption. exact (proj1 Hlog). }
    cbn [binary32_value cond_Zopp]. rewrite scaled_le by assumption.
    unfold SFleb, SFcompare.
    assert (Hz : 0 < 2 ^ (ez + 149)) by (apply Z.pow_pos_nonneg; lia).
    assert (Hq : 0 < 2 ^ (er + 149)) by (apply Z.pow_pos_nonneg; lia).
    destruct (Z.compare_spec ez er) as [Heq|Hlt|Hgt].
    + subst er. rewrite Pos.compare_cont_spec.
      change (mz ?= mr)%positive with (Zpos mz ?= Zpos mr).
      destruct (Z.compare_spec (Zpos mz) (Zpos mr)) as [E|E|E];
        cbn [Pos.switch_Eq];
        (split; [intros Hc|intros Hc; try reflexivity]);
        try discriminate; nia.
    + assert (Hstep : 2 * 2 ^ (ez + 149) <= 2 ^ (er + 149)).
      { rewrite <- Z.pow_succ_r by lia. apply Z.pow_le_mono_r; lia. }
      specialize (Hnormal ltac:(lia)).
      split; [intros _|reflexivity]. nia.
    + assert (Hstep : 2 * 2 ^ (er + 149) <= 2 ^ (ez + 149)).
      { rewrite <- Z.pow_succ_r by lia. apply Z.pow_le_mono_r; lia. }
      split; [discriminate|]. intros Hle. exfalso. nia.
Qed.

(** The binary32 quotient of two counts below [2 ^ 24] is a normal number
    and stands for the exact quotient rounded to 24 bits. *)
Lemma float_div_counts n c :
  1 <= n < 2 ^ 24 -> 1 <= c < 2 ^ 24 ->
  exists mz ez,
    float_div (to_float n) (to_float c) = S754_finite false mz ez
    /\ 2 ^ 23 <= Zpos mz < 2 ^ 24 /\ -149 <= ez
    /\ (scaled (Zpos mz) ez == binary32_quotient n c)%Q.
Proof.
  intros Hn Hc.
  destruct (normalized_bounds n Hn) as (Hln & Hnb & HnP & HnU & Hmx).
  destruct (normalized_bounds c Hc) as (Hlc & Hcb & HcP & HcU & Hmy).
  rewrite (to_float_exact n Hn), (to_float_exact c Hc). unfold float_div.
  rewrite SFdiv_normal by (rewrite ?Z2Pos.id by lia; lia).
  rewrite !Z2Pos.id by lia.
  set (ln := Z.log2 n) in *. set (lc := Z.log2 c) in *.
  set (P := 2 ^ ln) in *. set (R := 2 ^ lc) in *.
  set (U := 2 ^ (23 - ln)) in *. set (V := 2 ^ (23 - lc)) in *.
  replace (ln - 23 - (lc - 23) - 24) with (ln - lc - 24) by lia.
  (* the dividend and the divisor over the common factor V *)
  set (A := n * 2 ^ (24 + lc - ln)).
  assert (HA : A = 2 * n * R * U).
  { unfold A, R, U.
    replace (24 + lc - ln) with (1 + lc + (23 - ln)) by lia.
    rewrite !Z.pow_add_r by lia. lia. }
  assert (Hnum : n * U * 2 ^ 24 = A * V).
  { rewrite HA. replace (2 ^ 24) with (2 * 2 ^ 23) by reflexivity.
    rewrite <- HcP. fold R. fold V. lia. }
  cbv zeta. rewrite Hnum.
  rewrite (Z.div_mul_cancel_r A c V) by lia.
  rewrite (Z.mul_mod_distr_r A c V) by lia.
  replace (A mod c * V =? 0) with (A mod c =? 0)
    by (destruct (Z.eqb_spec (A mod c) 0), (Z.eqb_spec (A mod c * V) 0);
        try reflexivity; nia).
  replace (2 * (A mod c * V) ?= c * V) with (2 * (A mod c) ?= c)
    by (rewrite (Zmult_compare_compat_r _ _ V) by lia; f_equal; lia).
  unfold binary32_quotient, binade. fold ln. fold lc. fold P. fold R.
  destruct (Z.ltb_spec (n * R) (c * P)) as [Hlt|Hge].
  - (* the mantissa of n is below that of c: the quotient has 24 bits *)
    assert (Hq : 2 ^ 23 * c <= A < 2 ^ 24 * c).
    { rewrite HA. replace (2 ^ 24) with (2 * 2 ^ 23) by reflexivity.
      rewrite <- HnP. fold P. fold U. nia. }
    assert (Hqb : 2 ^ 23 <= A / c < 2 ^ 24).
    { split; [apply Z.div_le_lower_bound|apply Z.div_lt_upper_bound]; lia. }
    rewrite binary_round_aux_24 by lia.
    rewrite round_matches_nearest by lia. cbv zeta.
    replace (- (ln - lc - 24)) with (24 + lc - ln) by lia. fold A.
    assert (Hm : 2 ^ 23 <= nearest_even A c <= 2 ^ 24).
    { rewrite <- (round_matches_nearest A c) by lia.
      pose proof (round_nearest_even_bounds (A / c)
                    (if A mod c =? 0 then loc_Exact
                     else loc_Inexact (2 * (A mod c) ?= c))).
      lia. }
    destruct (Z.ltb_spec (nearest_even A c) (2 ^ 24)) as [Hm1|Hm1].
    + eexists _, _. split; [reflexivity|].
      rewrite Z2Pos.id by lia. repeat split; try lia; reflexivity.
    + eexists _, _. split; [reflexivity|].
      rewrite Z2Pos.id by lia. repeat split; try lia.
      replace (nearest_even A c) with (2 ^ 24) by lia.
      apply scaled_carry. lia.
  - (* otherwise it has 25 bits and loses the last one *)
    set (B := n * 2 ^ (23 + lc - ln)).
    assert (HB : B = n * R * U).
    { unfold B, R, U.
      replace (23 + lc - ln) with (lc + (23 - ln)) by lia.
      rewrite !Z.pow_add_r by lia. lia. }
    assert (HAB : A = 2 * B) by lia.
    assert (Hq : 2 ^ 24 * c <= A < 2 ^ 25 * c).
    { rewrite HA. replace (2 ^ 24) with (2 * 2 ^ 23) by reflexivity.
      replace (2 ^ 25) with (4 * 2 ^ 23) by reflexivity.
      rewrite <- HnP. fold P. fold U. nia. }
    assert (Hqb : 2 ^ 24 <= A / c < 2 ^ 25).
    { split; [apply Z.div_le_lower_bound|apply Z.div_lt_upper_bound]; lia. }
    rewrite binary_round_aux_25 by lia.
    rewrite HAB. rewrite (round_matches_nearest_half B c) by lia. cbv zeta.
    replace (- (ln - lc - 23)) with (23 + lc - ln) by lia. fold B.
    replace (ln - lc - 24 + 1) with (ln - lc - 23) by lia.
    assert (Hm : 2 ^ 23 <= nearest_even B c <= 2 ^ 24).
    { rewrite <- (round_matches_nearest B c) by lia.
      pose proof (round_nearest_even_bounds (B / c)
                    (if B mod c =? 0 then loc_Exact
                     else loc_Inexact (2 * (B mod c) ?= c))).
      assert (2 ^ 23 <= B / c < 2 ^ 24)
        by (split; [apply Z.div_le_lower_bound|apply Z.div_lt_upper_bound];
            lia).
      lia. }
    destruct (Z.ltb_spec (nearest_even B c) (2 ^ 24)) as [Hm1|Hm1].
    + eexists _, _. split; [reflexivity|].
      rewrite Z2Pos.id by lia. repeat split; try lia; reflexivity.
    + eexists _, _. split; [reflexivity|].
      rewrite Z2Pos.id by lia. repeat split; try lia.
      replace (nearest_even B c) with (2 ^ 24) by lia.
      apply scaled_carry. lia.
Qed.

(** [nearest_even a b] is an integer nearest to [a / b]: it is off by at
    most one half. *)
Lemma nearest_even_nearest a b :
  0 < b -> - b <= 2 * (nearest_even a b * b - a) <= b.
Proof.
  intros Hb. unfold nearest_even.
  pose proof (Z.div_mod a b ltac:(lia)) as Hdm.
  pose proof (Z.mod_pos_bound a b Hb) as Hmod.
  destruct (Z.compare_spec (2 * (a mod b)) b);
    try destruct (Z.even (a / b)); nia.
Qed.

(** [binade n c] is the exponent at which [n / c] has a mantissa of 24
    bits. *)
Lemma binade_mantissa n c :
  1 <= n < 2 ^ 24 -> 1 <= c < 2 ^ 24 ->
  binade n c <= 0
  /\ 2 ^ 23 * c <= n * 2 ^ (- binade n c) < 2 ^ 24 * c.
Proof.
  intros Hn Hc.
  destruct (normalized_bounds n Hn) as (Hln & Hnb & HnP & HnU & _).
  destruct (normalized_bounds c Hc) as (Hlc & Hcb & HcP & HcU & _).
  unfold binade.
  set (ln := Z.log2 n) in *. set (lc := Z.log2 c) in *.
  set (P := 2 ^ ln) in *. set (R := 2 ^ lc) in *.
  set (U := 2 ^ (23 - ln)) in *.
  destruct (Z.ltb_spec (n * R) (c * P)) as [Hlt|Hge].
  - split; [lia|].
    replace (- (ln - lc - 24)) with (1 + lc + (23 - ln)) by lia.
    rewrite !Z.pow_add_r by lia. fold R. fold U.
    replace (2 ^ 24) with (2 * 2 ^ 23) by reflexivity.
    rewrite <- HnP. nia.
  - split; [lia|].
    replace (- (ln - lc - 23)) with (lc + (23 - ln)) by lia.
    rewrite !Z.pow_add_r by lia. fold R. fold U.
    replace (2 ^ 24) with (2 * 2 ^ 23) by reflexivity.
    rewrite <- HnP. nia.
Qed.

(** The test the code makes on binary32 values, in exact numbers. *)
Lemma ratio_test_exact n c r :
  1 <= n < 2 ^ 24 -> 1 <= c < 2 ^ 24 -> nonnegative_binary32 r ->
  SFleb (float_div (to_float n) (to_float c)) r = true
  <-> (binary32_quotient n c <= binary32_value r)%Q.
Proof.
  intros Hn Hc Hr.
  destruct (float_div_counts n c Hn Hc) as (mz & ez & -> & Hm & He & Hval).
  rewrite (SFleb_exact mz ez r Hm He Hr). rewrite Hval. reflexivity.
Qed.

(** The three heaps are the ones the code builds, in either build. *)
Example fresh_heap_constructed dchecks :
  ZebraBlockHeap_new (H := win32 dchecks) (H0 := sample_collaborators) 16384
  = Done tt fresh_heap.
Proof. destruct dchecks; vm_compute; reflexivity. Qed.

Example allocated_heap_reached dchecks :
  Allocate (H := win32 dchecks) 5 fresh_heap = Done 69624 allocated_heap.
Proof. destruct dchecks; vm_compute; reflexivity. Qed.

Example quarantined_heap_reached dchecks :
  Push (H := win32 dchecks) five_bytes allocated_heap
  = Done true quarantined_heap.
Proof. destruct dchecks; vm_compute; reflexivity. Qed.

(** ** The byte allocator *)

(** C4: [Allocate(bytes)] returns null, with the heap unchanged, exactly
    when [bytes] is zero, [bytes] exceeds the page size or the free queue
    is empty.  Otherwise it takes the index at the head of the free queue
    and returns the greatest multiple of the shadow ratio that is at most
    [slab_base + page_size - bytes]; the slab becomes [kAllocatedSlab] with
    that address as [block], [bytes] as [block_size], header and trailer
    sizes zero and [is_nested] false (the bits of the descriptor beside
    these fields are not written); the rest of the table and the quarantine
    are as before. *)
Theorem Allocate_places_at_page_end `{Platform} (h : ZebraBlockHeap) (bytes : Z) :
  platform_ok -> region_ok h -> free_slabs_ok h -> 0 <= bytes ->
  exists p h',
    Allocate bytes h = Done p h'
    /\ (p = NULL <-> bytes = 0 \/ GetPageSize < bytes \/ free_slabs_ h = [])
    /\ (p = NULL -> h' = h)
    /\ (p <> NULL ->
        exists i q,
          free_slabs_ h = i :: q
          /\ p = kShadowRatio
                 * ((slab_base h i + GetPageSize - bytes) / kShadowRatio)
          /\ h' = with_slab_info
                    (<[Z.to_nat i :=
                         {| state := kAllocatedSlab;
                            info := {| block := p; block_size := bytes;
                                       header_size := 0; trailer_size := 0;
                                       is_nested := false;
                                       spare_bits :=
                                         spare_bits
                                           (descriptor_at (slab_info_ h) i)
                                    |} |}]>)
                    (with_free_slabs (fun _ => q) h)).
Proof.
  intros Hplat Hregion Hfree Hbytes.
  destruct (Z.eq_dec bytes 0) as [E0|E0];
    [|destruct (Z_lt_dec GetPageSize bytes) as [Ebig|Ebig];
      [|destruct (free_slabs_ h) as [|i q] eqn:Hq]].
  1-3: exists NULL, h; rewrite Allocate_rejects by auto;
       repeat split; auto; congruence.
  assert (Hi : 0 <= i < slab_count_ h).
  { unfold free_slabs_ok in Hfree. rewrite Hq in Hfree.
    apply Forall_cons in Hfree as [Hi _]. exact Hi. }
  assert (Hb : 0 < bytes <= GetPageSize) by lia.
  destruct (placed_resolves Hplat h i bytes Hregion Hi Hb) as [Hnn _].
  exists (placed h i bytes), (after_allocate h i bytes).
  rewrite (Allocate_success Hplat h bytes i q) by assumption.
  split; [reflexivity|]. split; [|split].
  - split; [contradiction|]. intros [?|[?|?]]; [lia|lia|discriminate].
  - contradiction.
  - intros _. exists i, q. split; [reflexivity|]. split; [reflexivity|].
    unfold after_allocate, store_slab, allocated_slab, with_free_slabs,
      with_slab_info. cbn. rewrite Hq. reflexivity.
Qed.

Lemma Allocate_places_at_page_end_witness :
  exists p h',
    Allocate (H := win32 false) 5 fresh_heap = Done p h' /\ p = 69624.
Proof.
  destruct (Allocate_places_at_page_end (H := win32 false) fresh_heap 5)
    as (p & h' & Hrun & _ & _ & Hp); [evaluate..|].
  exists p, h'. split; [exact Hrun|].
  vm_compute in Hrun. injection Hrun as <- _. reflexivity.
Defined.

(** C10: when [Allocate(bytes)], for [0 < bytes <= page_size], returns a
    pointer other than null, then right afterwards [IsAllocated] of that
    pointer is true and [GetAllocationSize] of it is [bytes] itself. *)
Theorem Allocate_then_queries `{Platform} (h h' : ZebraBlockHeap) (bytes p : Z) :
  platform_ok -> region_ok h -> free_slabs_ok h ->
  0 < bytes <= GetPageSize ->
  Allocate bytes h = Done p h' -> p <> NULL ->
  IsAllocated p h' = Done true h' /\ GetAllocationSize p h' = Done bytes h'.
Proof.
  intros Hplat Hregion Hfree Hb Hrun Hp.
  destruct (free_slabs_ h) as [|i q] eqn:Hq.
  { rewrite Allocate_rejects in Hrun by auto. congruence. }
  assert (Hi : 0 <= i < slab_count_ h).
  { unfold free_slabs_ok in Hfree. rewrite Hq in Hfree.
    apply Forall_cons in Hfree as [Hi _]. exact Hi. }
  rewrite (Allocate_success Hplat h bytes i q) in Hrun by assumption.
  injection Hrun as <- <-.
  pose proof (region_ok_after_allocate h i bytes Hregion) as Hregion'.
  destruct (placed_resolves Hplat h i bytes Hregion Hi Hb) as [_ Hidx].
  assert (Hs : slab_of (after_allocate h i bytes) (placed h i bytes)
               = Some (allocated_slab h i bytes)).
  { unfold slab_of.
    replace (GetSlabIndex (after_allocate h i bytes) (placed h i bytes))
      with i by (symmetry; exact Hidx).
    destruct (Z.eqb_spec i kInvalidSlabIndex) as [E|_].
    - exfalso. exact (index_not_invalid Hplat h i Hregion Hi E).
    - apply slab_lookup_after_allocate; assumption. }
  rewrite IsAllocated_slab_of, GetAllocationSize_slab_of by assumption.
  rewrite Hs. cbn. rewrite Z.eqb_refl. split; reflexivity.
Qed.

Lemma Allocate_then_queries_witness :
  IsAllocated (H := win32 false) 69624 allocated_heap = Done true allocated_heap
  /\ GetAllocationSize (H := win32 false) 69624 allocated_heap
     = Done 5 allocated_heap.
Proof.
  apply (Allocate_then_queries (H := win32 false) fresh_heap allocated_heap 5);
    evaluate.
Defined.

(** C2, as stated, fails on a quarantined slab: [IsAllocated] answers true
    for the recorded address of a slab that is [kQuarantinedSlab]. *)
Lemma IsAllocated_true_in_quarantine :
  ~ IsAllocated_iff_Allocated (H := win32 false) quarantined_heap 69624.
Proof.
  intros [Hto _]. destruct (Hto eq_refl) as (s & Hs & Hstate & _).
  vm_compute in Hs. injection Hs as <-. discriminate Hstate.
Qed.

(** C2 (amended): [IsAllocated(p)] is true exactly when [p] resolves to a
    slab whose state is not [kFreeSlab], be it [kAllocatedSlab] or
    [kQuarantinedSlab], and whose recorded block address is [p]; it is
    false otherwise.  [GetAllocationSize(p)] returns the recorded
    [block_size] under the same condition and [kUnknownSize] otherwise.
    Neither changes the heap. *)
Theorem IsAllocated_GetAllocationSize_exact_match `{Platform}
    (h : ZebraBlockHeap) (p : Z) :
  platform_ok -> region_ok h ->
  let owned s :=
    slab_of h p = Some s /\ state s <> kFreeSlab /\ block (info s) = p in
  (IsAllocated p h = Done true h <-> exists s, owned s)
  /\ (IsAllocated p h = Done false h <-> ~ exists s, owned s)
  /\ (forall s, owned s -> GetAllocationSize p h = Done (block_size (info s)) h)
  /\ ((~ exists s, owned s) -> GetAllocationSize p h = Done kUnknownSize h).
Proof.
  intros Hplat Hregion owned. subst owned. cbv beta.
  rewrite IsAllocated_slab_of, GetAllocationSize_slab_of by assumption.
  pose proof (owned_reflect h p) as Hown.
  destruct (slab_of h p) as [s|];
    [destruct (negb (bool_decide (state s = kFreeSlab))
               && (block (info s) =? p)) eqn:Hb|].
  - assert (Hs : exists s', Some s = Some s' /\ state s' <> kFreeSlab
                            /\ block (info s') = p) by (apply Hown; reflexivity).
    split; [tauto|]. split; [split; [discriminate|tauto]|]. split; [|tauto].
    intros s' (Hs' & _). injection Hs' as <-. reflexivity.
  - assert (Hs : ~ exists s', Some s = Some s' /\ state s' <> kFreeSlab
                              /\ block (info s') = p).
    { intros Hex. apply Hown in Hex. discriminate. }
    split; [split; [discriminate|tauto]|]. split; [tauto|]. split; [|tauto].
    intros s' Hs'. exfalso. apply Hs. eauto.
  - assert (Hs : ~ exists s' : SlabInfo, None = Some s' /\ state s' <> kFreeSlab
                              /\ block (info s') = p).
    { intros Hex. apply Hown in Hex. discriminate. }
    split; [split; [discriminate|tauto]|]. split; [tauto|]. split; [|tauto].
    intros s' Hs'. exfalso. apply Hs. eauto.
Qed.

Lemma IsAllocated_GetAllocationSize_exact_match_witness :
  IsAllocated (H := win32 false) 69624 quarantined_heap
  = Done true quarantined_heap
  /\ GetAllocationSize (H := win32 false) 69624 quarantined_heap
     = Done 5 quarantined_heap.
Proof.
  destruct (IsAllocated_GetAllocationSize_exact_match (H := win32 false)
              quarantined_heap 69624) as (Hyes & _ & Hsize & _);
    [evaluate..|].
  assert (Hs : slab_of (H := win32 false) quarantined_heap 69624
               = Some {| state := kQuarantinedSlab; info := five_bytes |}
               /\ kQuarantinedSlab <> kFreeSlab /\ 69624 = 69624)
    by (repeat split; discriminate).
  split.
  - apply Hyes. eexists. exact Hs.
  - exact (Hsize _ Hs).
Defined.

(** C1, as stated, fails on a quarantined slab, with and without
    [DCHECK]s: the call does not answer false. *)
Lemma Free_of_quarantined_not_refused :
  ~ Free_refuses_iff (H := win32 false) quarantined_heap 69624
  /\ ~ Free_refuses_iff (H := win32 true) quarantined_heap 69624.
Proof.
  split; intros [_ Hfrom];
    (assert (Hrun : Free 69624 quarantined_heap = Done false quarantined_heap)
       by (apply Hfrom; right; eexists; split; [vm_compute; reflexivity|];
           right; right; reflexivity));
    vm_compute in Hrun; discriminate Hrun.
Qed.

(** What the two builds do there: without [DCHECK]s the quarantined slab is
    released like an allocated one, with them the assertion stops the
    call. *)
Example Free_of_quarantined_release_build :
  Free (H := win32 false) 69624 quarantined_heap
  = Done true (after_free quarantined_heap 0).
Proof. vm_compute. reflexivity. Qed.

Example Free_of_quarantined_debug_build :
  Free (H := win32 true) 69624 quarantined_heap = Stopped CheckFailed.
Proof. vm_compute. reflexivity. Qed.

(** C1 (amended): [Free(NULL)] answers true and changes nothing.  For a
    pointer other than null, [Free] answers false, with the heap unchanged,
    exactly when the pointer does not resolve to a slab, or differs from the
    slab's recorded block address, or the slab is [kFreeSlab].  On a slab
    that is [kAllocatedSlab] and records the pointer it answers true, zeroes
    the descriptor, sets the state to [kFreeSlab] and appends the index to
    the free queue.  A slab that is [kQuarantinedSlab] and records the
    pointer is not refused: with [DCHECK]s the assertion stops the call,
    without them the slab is released like an allocated one. *)
Theorem Free_releases_or_refuses `{Platform} (h : ZebraBlockHeap) (p : Z) :
  platform_ok -> region_ok h ->
  (p = NULL -> Free p h = Done true h)
  /\ (p <> NULL ->
      (Free p h = Done false h
       <-> (slab_of h p = None
            \/ exists s, slab_of h p = Some s
                         /\ (block (info s) <> p \/ state s = kFreeSlab)))
      /\ (forall s, slab_of h p = Some s -> block (info s) = p ->
            state s = kAllocatedSlab ->
            Free p h
            = Done true
                (with_free_slabs (fun q => q ++ [GetSlabIndex h p])
                   (with_slab_info
                      (<[Z.to_nat (GetSlabIndex h p) :=
                           {| state := kFreeSlab; info := zero_info |}]>) h)))
      /\ (forall s, slab_of h p = Some s -> block (info s) = p ->
            state s = kQuarantinedSlab ->
            Free p h
            = if dcheck_is_on then Stopped CheckFailed
              else Done true (after_free h (GetSlabIndex h p)))).
Proof.
  intros Hplat Hregion. split.
  { intros ->. reflexivity. }
  intros Hp. rewrite (Free_slab_of Hplat h p Hregion Hp).
  destruct (slab_of h p) as [s|].
  2:{ split; [|split]; [|discriminate..]. split; auto. }
  destruct (Z.eqb_spec (block (info s)) p) as [Eb|Eb]; cbn [negb].
  2:{ split; [|split].
      - split; [|reflexivity]. intros _. right. eauto.
      - intros s' Hs'. injection Hs' as <-. contradiction.
      - intros s' Hs'. injection Hs' as <-. contradiction. }
  destruct (state s) eqn:Est.
  - split; [|split].
    + split; [|reflexivity]. intros _. right. eauto.
    + intros s' Hs'. injection Hs' as <-. congruence.
    + intros s' Hs'. injection Hs' as <-. congruence.
  - split; [|split].
    + split; [discriminate|].
      intros [?|(s' & Hs' & [?|?])]; [discriminate|..];
        injection Hs' as <-; congruence.
    + intros _ _ _ _. reflexivity.
    + intros s' Hs'. injection Hs' as <-. congruence.
  - split; [|split].
    + split.
      * destruct dcheck_is_on; discriminate.
      * intros [?|(s' & Hs' & [?|?])]; [discriminate|..];
          injection Hs' as <-; congruence.
    + intros s' Hs'. injection Hs' as <-. congruence.
    + intros _ _ _ _. reflexivity.
Qed.

Lemma Free_releases_or_refuses_witness :
  Free (H := win32 false) 69624 allocated_heap
  = Done true (after_free allocated_heap 0).
Proof.
  destruct (Free_releases_or_refuses (H := win32 false) allocated_heap 69624)
    as [_ Hfree]; [evaluate..|].
  destruct Hfree as (_ & Hok & _); [evaluate|].
  exact (Hok {| state := kAllocatedSlab; info := five_bytes |}
           eq_refl eq_refl eq_refl).
Defined.

(** ** The quarantine *)

(** C5: [Push(descriptor)] succeeds exactly when the descriptor's block
    address resolves to a slab that is [kAllocatedSlab] and whose stored
    descriptor equals the supplied one byte for byte: in the five named
    fields and in the bits of the object beside them.  On success the
    slab's index goes to the tail of the quarantine queue and the slab
    becomes [kQuarantinedSlab]; on failure the heap is unchanged. *)
Theorem Push_quarantines_exact_match `{Platform}
    (h : ZebraBlockHeap) (info0 : CompactBlockInfo) :
  platform_ok -> region_ok h ->
  exists b h',
    Push info0 h = Done b h'
    /\ (b = true
        <-> exists s, slab_of h (block info0) = Some s
                      /\ state s = kAllocatedSlab /\ info s = info0)
    /\ (b = true ->
        h' = with_slab_info
               (<[Z.to_nat (GetSlabIndex h (block info0)) :=
                    {| state := kQuarantinedSlab; info := info0 |}]>)
               (with_quarantine
                  (fun q => q ++ [GetSlabIndex h (block info0)]) h))
    /\ (b = false -> h' = h).
Proof.
  intros Hplat Hregion. rewrite (Push_slab_of Hplat h info0 Hregion).
  destruct (slab_of h (block info0)) as [s|].
  2:{ exists false, h. repeat split; try discriminate.
      intros (s & Hs & _). discriminate. }
  destruct (decide (state s = kAllocatedSlab)) as [Hst|Hst];
    [destruct (decide (info s = info0)) as [Hinfo|Hinfo]|].
  - unfold memcmp_eq. rewrite !bool_decide_eq_true_2 by assumption.
    cbn [andb]. eexists true, _. split; [reflexivity|].
    repeat split; try discriminate; eauto.
  - unfold memcmp_eq. rewrite (bool_decide_eq_false_2 _ Hinfo), andb_false_r.
    exists false, h. repeat split; try discriminate.
    intros (s' & Hs & _ & Hi). congruence.
  - rewrite (bool_decide_eq_false_2 _ Hst). cbn [andb].
    exists false, h. repeat split; try discriminate.
    intros (s' & Hs & Hst' & _). congruence.
Qed.

Lemma Push_quarantines_exact_match_witness :
  exists b h',
    Push (H := win32 false) five_bytes allocated_heap = Done b h'
    /\ b = true /\ h' = quarantined_heap.
Proof.
  destruct (Push_quarantines_exact_match (H := win32 false)
              allocated_heap five_bytes) as (b & h' & Hrun & _);
    [evaluate..|].
  exists b, h'. split; [exact Hrun|].
  vm_compute in Hrun. injection Hrun as <- <-. split; reflexivity.
Defined.

(** The comparison is of whole objects: a descriptor that agrees with the
    stored one on the five named fields but has a spare bit set is refused,
    in either build, and the heap stays as it is. *)
Example Push_refuses_stray_bit dchecks :
  Push (H := win32 dchecks)
    {| block := 69624; block_size := 5; header_size := 0; trailer_size := 0;
       is_nested := false; spare_bits := 1 |}
    allocated_heap
  = Done false allocated_heap.
Proof. destruct dchecks; vm_compute; reflexivity. Qed.

(** The heap with seven of ten slabs in the quarantine is the one the code
    builds, in either build; and [0.7f] is what the code computes for seven
    over ten. *)
Example seven_of_ten_reached dchecks :
  match ZebraBlockHeap_new (H := win32 dchecks) (H0 := sample_collaborators)
          (10 * 8192) with
  | Done _ h0 =>
      run_operations (H := win32 dchecks) (H0 := sample_collaborators)
        seven_of_ten h0
  | Stopped f => Stopped f
  end
  = Done tt seven_of_ten_heap.
Proof. destruct dchecks; vm_compute; reflexivity. Qed.

Example seven_over_ten_is_seven_tenths :
  float_div (to_float 7) (to_float 10) = seven_tenths.
Proof. vm_compute. reflexivity. Qed.

(** C3, as stated, fails: with seven of ten slabs in the quarantine and a
    ratio of [0.7f], which stands for a number a little below seven tenths,
    the occupancy divided by [slab_count_] exceeds the ratio, yet [Pop]
    fails and leaves the heap as it is: in binary32 seven over ten rounds
    down to [0.7f] itself. *)
Lemma Pop_keeps_seven_of_ten :
  ~ Pop_fails_iff_ratio_holds (H := win32 false) seven_of_ten_heap zero_info.
Proof.
  intros [Hfails _].
  destruct Hfails as [Hempty|Hle]; [vm_compute; reflexivity| |].
  - discriminate Hempty.
  - apply Qle_bool_iff in Hle. vm_compute in Hle. discriminate Hle.
Qed.

(** C3 (amended): take a heap of fewer than [2 ^ 24] slabs, as every heap
    of the 32-bit target is, with fewer than [2 ^ 24] entries in the
    quarantine and a ratio that is a binary32 number and not negative.
    [Pop] fails, leaving the quarantine and every slab as they are, exactly
    when the quarantine is empty or its occupancy divided by [slab_count_]
    and rounded to binary32 (to the nearest number with a mantissa of 24
    bits, ties to the even mantissa) is at most [quarantine_ratio_].
    Otherwise it removes the head of the quarantine queue, turns that slab
    from [kQuarantinedSlab] back to [kAllocatedSlab] and hands out the
    slab's stored descriptor. *)
Theorem Pop_evicts_oldest_when_over_ratio `{Platform}
    (h : ZebraBlockHeap) (info0 : CompactBlockInfo) :
  platform_ok -> region_ok h -> quarantine_ok h ->
  slab_count_ h < 2 ^ 24 ->
  CircularQueue.size (quarantine_ h) < 2 ^ 24 ->
  nonnegative_binary32 (quarantine_ratio_ h) ->
  let within_ratio :=
    (binary32_quotient (CircularQueue.size (quarantine_ h)) (slab_count_ h)
     <= binary32_value (quarantine_ratio_ h))%Q in
  (Pop info0 h = Done (false, info0) h
   <-> quarantine_ h = [] \/ within_ratio)
  /\ (~ (quarantine_ h = [] \/ within_ratio) ->
      exists i q s,
        quarantine_ h = i :: q
        /\ slab_lookup (slab_info_ h) i = Some s
        /\ state s = kQuarantinedSlab
        /\ Pop info0 h
           = Done (true, info s)
               (with_slab_info
                  (<[Z.to_nat i :=
                       {| state := kAllocatedSlab; info := info s |}]>)
                  (with_quarantine (fun _ => q) h))).
Proof.
  intros Hplat Hregion Hquar Hcount Hsize Hratio within_ratio.
  assert (Hsat : QuarantineInvariantIsSatisfied h = true
                 <-> quarantine_ h = [] \/ within_ratio).
  { unfold QuarantineInvariantIsSatisfied. rewrite orb_true_iff.
    destruct (quarantine_ h) as [|i q] eqn:Hq; cbn [CircularQueue.empty].
    { split; auto. }
    assert (Hn : 1 <= CircularQueue.size (i :: q) < 2 ^ 24).
    { split; [|exact Hsize]. unfold CircularQueue.size. cbn [length]. lia. }
    assert (Hc : 1 <= slab_count_ h < 2 ^ 24).
    { split; [|exact Hcount]. unfold quarantine_ok in Hquar.
      rewrite Hq in Hquar. apply Forall_cons in Hquar as [(s & Hs & _) _].
      assert (0 <= i < slab_count_ h)
        by (apply slab_lookup_is_Some; [assumption|]; rewrite Hs; eauto).
      lia. }
    pose proof (ratio_test_exact _ _ _ Hn Hc Hratio) as Htest.
    unfold within_ratio. rewrite <- Htest.
    split; [intros [Hno|Hle]; [discriminate Hno|auto]|].
    intros [Hno|Hle]; [discriminate Hno|auto]. }
  destruct (QuarantineInvariantIsSatisfied h) eqn:E.
  - split; [|intros Hno; exfalso; apply Hno, Hsat; reflexivity].
    rewrite (Pop_satisfied h info0 E). split; [intros _; apply Hsat|]; auto.
  - assert (Hno : ~ (quarantine_ h = [] \/ within_ratio))
      by (intros Hyes; apply Hsat in Hyes; discriminate).
    unfold quarantine_ok in Hquar.
    destruct (quarantine_ h) as [|i q] eqn:Hq; [tauto|].
    apply Forall_cons in Hquar as [(s & Hs & Hst) _].
    pose proof (Pop_evicts Hplat h info0 i q s Hregion E Hq Hs Hst) as Hrun.
    split.
    + split; [|tauto]. rewrite Hrun. discriminate.
    + intros _. exists i, q, s. repeat split; try assumption.
      rewrite Hrun. unfold after_pop, store_slab, with_quarantine. cbn.
      rewrite Hq. reflexivity.
Qed.

Lemma Pop_evicts_oldest_when_over_ratio_witness :
  exists s h',
    slab_lookup (slab_info_ quarantined_heap) 0 = Some s
    /\ Pop (H := win32 false) zero_info quarantined_heap
       = Done (true, info s) h'.
Proof.
  destruct (Pop_evicts_oldest_when_over_ratio (H := win32 false)
              quarantined_heap zero_info) as [_ Hpop]; [evaluate..|].
  destruct Hpop as (i & q & s & Hq & Hs & _ & Hrun).
  - intros [Hempty|Hle]; [discriminate Hempty|].
    apply Qle_bool_iff in Hle. vm_compute in Hle. discriminate Hle.
  - injection Hq as <- _. exists s. eexists. split; [exact Hs|exact Hrun].
Defined.

(** On the 32-bit target no region holds [2 ^ 24] slabs: the counts the
    code converts are below [2 ^ 24], in either build. *)
Example win32_slab_count_exact dchecks (h : ZebraBlockHeap) :
  region_ok (H := win32 dchecks) h -> slab_count_ h < 2 ^ 24.
Proof.
  intros [Hpos _ _ Hsize Hfits _].
  change (kSlabSize (H := win32 dchecks)) with 8192 in Hsize.
  change (size_bits (Platform := win32 dchecks)) with 32 in Hfits.
  lia.
Qed.

(** In the amended reading the heap of seven in ten is within its ratio:
    seven over ten rounds to [0.7f], which is at most [0.7f]. *)
Example seven_of_ten_within_ratio :
  (binary32_quotient 7 10 <= binary32_value seven_tenths)%Q
  /\ ~ (Qmake 7 10 <= binary32_value seven_tenths)%Q.
Proof.
  split.
  - apply Qle_bool_iff. vm_compute. reflexivity.
  - intros Hle. apply Qle_bool_iff in Hle. vm_compute in Hle.
    discriminate Hle.
Qed.

(** The ratio test on the numbers of the spec's scenario: with ten slabs
    and a ratio of one half, six quarantined slabs are over the ratio and
    four are not. *)
Example six_of_ten_over_half :
  SFleb (float_div (to_float 6) (to_float 10))
        (float_div (to_float 1) (to_float 2)) = false.
Proof. vm_compute. reflexivity. Qed.

Example four_of_ten_within_half :
  SFleb (float_div (to_float 4) (to_float 10))
        (float_div (to_float 1) (to_float 2)) = true.
Proof. vm_compute. reflexivity. Qed.

(** The scenario itself, run on the code in both builds: with six of ten
    slabs quarantined [Pop] hands out the oldest descriptor, with four it
    fails. *)
Example scenario_six_pushed dchecks :
  pop_after (H := win32 dchecks) (H0 := sample_collaborators)
    (10 * 8192) (scenario 6)
  = Some (true, one_byte 0).
Proof. destruct dchecks; vm_compute; reflexivity. Qed.

Example scenario_four_pushed dchecks :
  pop_after (H := win32 dchecks) (H0 := sample_collaborators)
    (10 * 8192) (scenario 4)
  = Some (false, zero_info).
Proof. destruct dchecks; vm_compute; reflexivity. Qed.

(** C8: [Empty] drains the whole quarantine whatever the ratio: every
    drained slab goes from [kQuarantinedSlab] back to [kAllocatedSlab] with
    its descriptor kept, the descriptors are appended to the output in the
    order of the queue, oldest first, and afterwards [GetCount] returns
    0.  Slabs outside the quarantine and the free queue are untouched. *)
Theorem Empty_drains_in_push_order `{Platform}
    (h : ZebraBlockHeap) (infos : list CompactBlockInfo) :
  platform_ok -> region_ok h -> quarantine_ok h ->
  exists h',
    Empty infos h
    = Done (infos ++ map (descriptor_at (slab_info_ h)) (quarantine_ h)) h'
    /\ GetCount h' = Done 0 h'
    /\ free_slabs_ h' = free_slabs_ h
    /\ (forall i, i ∈ quarantine_ h ->
          exists s, slab_lookup (slab_info_ h) i = Some s
                    /\ state s = kQuarantinedSlab
                    /\ slab_lookup (slab_info_ h') i
                       = Some {| state := kAllocatedSlab; info := info s |})
    /\ (forall j, j ∉ quarantine_ h ->
          slab_lookup (slab_info_ h') j = slab_lookup (slab_info_ h) j).
Proof.
  intros Hplat Hregion Hquar.
  assert (Hall : Forall (fun i => 0 <= i < slab_count_ h) (quarantine_ h)).
  { eapply Forall_impl; [exact Hquar|]. cbn. intros i (s & Hs & _).
    apply slab_lookup_is_Some; [assumption|]. rewrite Hs. eauto. }
  eexists. split; [|split; [|split; [|split]]].
  - unfold Empty.
    apply (Empty_loop_drains Hplat _ (quarantine_ h)); auto.
  - reflexivity.
  - reflexivity.
  - intros i Hi. cbn. rewrite slab_lookup_release_all.
    unfold quarantine_ok in Hquar. rewrite Forall_forall in Hquar.
    destruct (Hquar i Hi) as (s & Hs & Hst). exists s.
    rewrite Hs, (bool_decide_eq_true_2 _ Hi). auto.
  - intros j Hj. cbn. rewrite slab_lookup_release_all.
    rewrite (bool_decide_eq_false_2 _ Hj).
    destruct (slab_lookup (slab_info_ h) j); reflexivity.
Qed.

Lemma Empty_drains_in_push_order_witness :
  exists h',
    Empty (H := win32 false) [] quarantined_heap = Done [five_bytes] h'
    /\ GetCount h' = Done 0 h'.
Proof.
  destruct (Empty_drains_in_push_order (H := win32 false) quarantined_heap [])
    as (h' & Hrun & Hcount & _); [evaluate..|].
  exists h'. split; [exact Hrun|exact Hcount].
Defined.

(** ** The block layout adapter *)

Example hosted_heap_reached dchecks :
  AllocateBlock (H := win32 dchecks) (H0 := sample_collaborators)
    100 16 0 blank_layout fresh_heap
  = Done {| ab_alloc := 65536; ab_layout := hosted_layout;
            ab_planner_calls :=
              [{| pc_chunk_size := 4096; pc_alignment := 8; pc_size := 100;
                  pc_min_left_redzone_size := 16;
                  pc_min_right_redzone_size := 4096 |}] |}
         hosted_heap.
Proof. destruct dchecks; vm_compute; reflexivity. Qed.

Example exhausted_heap_reached dchecks :
  Allocate (H := win32 dchecks) 5 allocated_heap = Done 77816 exhausted_heap.
Proof. destruct dchecks; vm_compute; reflexivity. Qed.

(** A layout that passes every check is still not hosted when no slab is
    free: the result is null and the heap is unchanged. *)
Example AllocateBlock_without_free_slab dchecks :
  AllocateBlock (H := win32 dchecks) (H0 := sample_collaborators)
    100 16 0 blank_layout exhausted_heap
  = Done {| ab_alloc := NULL; ab_layout := hosted_layout;
            ab_planner_calls :=
              [{| pc_chunk_size := 4096; pc_alignment := 8; pc_size := 100;
                  pc_min_left_redzone_size := 16;
                  pc_min_right_redzone_size := 4096 |}] |}
         exhausted_heap.
Proof. destruct dchecks; vm_compute; reflexivity. Qed.

(** C6, as stated, fails: for a body of 100 bytes behind a 16-byte header
    the pointer returned is the base of the slab, 0x10000, where the header
    begins; the body begins 3992 bytes further. *)
Lemma AllocateBlock_returns_block_start :
  ~ AllocateBlock_returns_body_start (H := win32 false)
      (H0 := sample_collaborators) fresh_heap 100 16 0 blank_layout.
Proof.
  intros Hclaim.
  specialize (Hclaim _ hosted_heap
                {| state := kAllocatedSlab; info := hosted_block |}
                (hosted_heap_reached false)).
  cbn [ab_alloc ab_layout info block] in Hclaim.
  specialize (Hclaim ltac:(discriminate) eq_refl).
  vm_compute in Hclaim. discriminate Hclaim.
Qed.

(** C6 (amended): once the two tests on the request have passed,
    [AllocateBlock] calls the planner and hosts its layout exactly when the
    planner succeeded, the layout's block size is [2 * page_size], and the
    trailer plus its padding (added as [size_t]s) is at least a page and
    exceeds the page by less than the shadow ratio.  A hosted layout gets a
    page from the byte allocator, which needs a free slab: the slab at the
    head of the free queue becomes [kAllocatedSlab], its descriptor takes
    the layout's block size, header plus padding and trailer plus padding,
    and [is_nested] false (the bits of the descriptor beside the named
    fields are not written), and the pointer returned is the block's start
    address, the base of the slab, a multiple of the shadow ratio.  In every
    other case the result is null and the heap is unchanged. *)
Theorem AllocateBlock_hosts_single_slab_layouts `{Platform} `{Collaborators}
    (h : ZebraBlockHeap) (size l r : Z) (layout0 : BlockLayout) :
  platform_ok -> region_ok h -> free_slabs_ok h ->
  size_add l size <= GetPageSize -> r <= GetPageSize ->
  let planned :=
    BlockPlanLayout GetPageSize kShadowRatio size l (Z.max GetPageSize r)
      layout0 in
  let layout := snd planned in
  let right_redzone_size :=
    size_add (Layout.trailer_size layout) (Layout.trailer_padding_size layout) in
  let accepted :=
    fst planned = true
    /\ Layout.block_size layout = 2 * GetPageSize
    /\ GetPageSize <= right_redzone_size
    /\ right_redzone_size - GetPageSize < kShadowRatio in
  exists res h',
    AllocateBlock size l r layout0 h = Done res h'
    /\ ab_layout res = layout
    /\ (ab_alloc res <> NULL <-> accepted /\ free_slabs_ h <> [])
    /\ (ab_alloc res = NULL -> h' = h)
    /\ (ab_alloc res <> NULL ->
        exists i q,
          free_slabs_ h = i :: q
          /\ ab_alloc res = slab_base h i
          /\ ab_alloc res mod kShadowRatio = 0
          /\ h' = with_slab_info
                    (<[Z.to_nat i :=
                         {| state := kAllocatedSlab;
                            info :=
                              {| block := slab_base h i;
                                 block_size := Layout.block_size layout;
                                 header_size :=
                                   size_add (Layout.header_size layout)
                                            (Layout.header_padding_size layout);
                                 trailer_size := right_redzone_size;
                                 is_nested := false;
                                 spare_bits :=
                                   spare_bits
                                     (descriptor_at (slab_info_ h) i)
                              |} |}]>)
                    (with_free_slabs (fun _ => q) h)).
Proof.
  intros Hplat Hregion Hfree Hl Hr planned layout right_redzone_size accepted.
  rewrite (AllocateBlock_planned Hplat h size l r layout0) by assumption.
  fold planned.
  assert (Hacc : layout_accepted planned = true <-> accepted).
  { assert (Hrange : 0 <= right_redzone_size < 2 ^ size_bits)
      by (apply wrap_range; assumption).
    pose proof (page_size_pos Hplat) as Hpage.
    unfold layout_accepted, accepted. fold layout. fold right_redzone_size.
    clearbody right_redzone_size.
    rewrite (kSlabSize_eq Hplat).
    rewrite !andb_true_iff, !negb_true_iff, Z.eqb_eq, Z.ltb_ge, Z.leb_gt.
    split.
    - intros [[[Hok Hsz] Hge] Hlt]. repeat split; try assumption.
      unfold size_sub in Hlt. rewrite wrap_small in Hlt by lia. exact Hlt.
    - intros (Hok & Hsz & Hge & Hlt). repeat split; try assumption.
      unfold size_sub. rewrite wrap_small by lia. exact Hlt. }
  destruct (layout_accepted planned) eqn:Eacc;
    [destruct (free_slabs_ h) as [|i q] eqn:Hq|].
  - eexists _, h. split; [reflexivity|]. cbn [ab_alloc ab_layout].
    repeat split; try tauto; congruence.
  - assert (Hi : 0 <= i < slab_count_ h).
    { unfold free_slabs_ok in Hfree. rewrite Hq in Hfree.
      apply Forall_cons in Hfree as [Hi _]. exact Hi. }
    pose proof (slab_base_bounds Hplat h i Hregion Hi) as [Hlo _].
    assert (Hnn : slab_base h i <> NULL)
      by (destruct Hregion; unfold NULL; lia).
    eexists _, _. split; [reflexivity|]. cbn [ab_alloc ab_layout].
    split; [reflexivity|]. split; [|split]; [|contradiction|].
    + split; [|auto]. intros _. split; [apply Hacc; reflexivity|discriminate].
    + intros _. exists i, q. split; [reflexivity|]. split; [reflexivity|].
      split.
      * destruct (slab_base_aligned Hplat h i Hregion) as [k ->].
        rewrite Z.mul_comm. apply Z.mod_mul. destruct Hplat; lia.
      * unfold store_slab, block_slab, with_slab_info, with_free_slabs. cbn.
        rewrite Hq. reflexivity.
  - assert (Hno : ~ accepted) by (rewrite <- Hacc; discriminate).
    eexists _, h. split; [reflexivity|]. cbn [ab_alloc ab_layout].
    repeat split; try tauto; congruence.
Qed.

Lemma AllocateBlock_hosts_single_slab_layouts_witness :
  exists res h',
    AllocateBlock (H := win32 false) (H0 := sample_collaborators)
      100 16 0 blank_layout fresh_heap = Done res h'
    /\ ab_alloc res = 65536.
Proof.
  destruct (AllocateBlock_hosts_single_slab_layouts (H := win32 false)
              (H0 := sample_collaborators) fresh_heap 100 16 0 blank_layout)
    as (res & h' & Hrun & _); [evaluate..|].
  exists res, h'. split; [exact Hrun|].
  vm_compute in Hrun. injection Hrun as <- _. reflexivity.
Defined.

(** While the sum of the left redzone and the size does not wrap, a
    request that does not fit is turned down before the planner is
    asked. *)
Lemma AllocateBlock_rejects_unfit_request `{Platform} `{Collaborators}
    (h : ZebraBlockHeap) (size l r : Z) (layout0 : BlockLayout) :
  platform_ok -> 0 <= l -> 0 <= size -> l + size < 2 ^ size_bits ->
  GetPageSize < l + size \/ GetPageSize < r ->
  AllocateBlock size l r layout0 h
  = Done {| ab_alloc := NULL; ab_layout := layout0; ab_planner_calls := [] |} h.
Proof.
  intros Hplat Hl Hsize Hfit Hc. apply AllocateBlock_rejects_request.
  unfold size_add. rewrite wrap_small by lia. exact Hc.
Qed.

(** When it wraps, the planner is asked: a body of [2 ^ size_bits - 1]
    bytes with a left redzone of one byte passes the test on any platform,
    with any planner. *)
Lemma AllocateBlock_size_max_reaches_planner `{Platform} `{Collaborators}
    (h : ZebraBlockHeap) (layout0 : BlockLayout) :
  platform_ok -> region_ok h -> free_slabs_ok h ->
  exists res h',
    AllocateBlock (2 ^ size_bits - 1) 1 0 layout0 h = Done res h'
    /\ ab_planner_calls res = [planner_call (2 ^ size_bits - 1) 1 0].
Proof.
  intros Hplat Hregion Hfree.
  pose proof (page_size_pos Hplat) as Hpage.
  assert (Hsum : size_add 1 (2 ^ size_bits - 1) = 0).
  { unfold size_add, wrap.
    replace (1 + (2 ^ size_bits - 1)) with (1 * 2 ^ size_bits) by lia.
    apply Z.mod_mul. pose proof (size_mod_pos Hplat). lia. }
  rewrite (AllocateBlock_planned Hplat h _ 1 0 layout0) by (try assumption; lia).
  cbv zeta. destruct (layout_accepted _); [destruct (free_slabs_ h)|];
    eexists _, _; split; reflexivity.
Qed.

(** C7 fails on the code when the sum wraps: for a body of [2^32 - 1]
    bytes and a left redzone of 1 the exact sum exceeds the page size, the
    [size_t] sum is 0, the request passes the test and the planner is
    called. *)
Theorem AllocateBlock_wrapped_sum_reaches_planner :
  GetPageSize (Platform := win32 false) < 1 + 4294967295
  /\ AllocateBlock (H := win32 false) (H0 := sample_collaborators)
       4294967295 1 0 blank_layout fresh_heap
     = Done {| ab_alloc := NULL; ab_layout := blank_layout;
               ab_planner_calls :=
                 [{| pc_chunk_size := 4096; pc_alignment := 8;
                     pc_size := 4294967295;
                     pc_min_left_redzone_size := 1;
                     pc_min_right_redzone_size := 4096 |}] |}
            fresh_heap.
Proof. split; vm_compute; reflexivity. Qed.

(** ** The invariant of C9 *)

Example corrupted_heap_reached :
  run_operations (H := win32 false) (H0 := sample_collaborators)
    free_while_quarantined fresh_heap
  = Done tt corrupted_heap.
Proof. vm_compute. reflexivity. Qed.

(** C9, as stated, fails in a build without [DCHECK]s: after [Allocate],
    [Push], [Free] of the quarantined pointer and [Empty], slab 0 is not
    free and its recorded block address is null. *)
Lemma null_block_after_free_while_quarantined :
  ~ blocks_ok_after (H := win32 false) (H0 := sample_collaborators)
      16384 free_while_quarantined.
Proof.
  intros Hclaim.
  specialize (Hclaim fresh_heap corrupted_heap
                (fresh_heap_constructed false) corrupted_heap_reached).
  destruct (Hclaim 0 {| state := kAllocatedSlab; info := zero_info |} eq_refl)
    as [Hnull _]; [discriminate|].
  apply Hnull. reflexivity.
Qed.

(** C9 (amended): take a freshly constructed heap whose region the
    operating system returned page-aligned and below the top of the
    address space.  In every state reached from it by public operations
    that return and never free a slab that is still quarantined (the
    contract [Free] asserts with a [DCHECK]), every slab that is not
    [kFreeSlab] records a block address that is not null and lies within the
    slab's first page, and [block + block_size] does not pass the end of the
    slab's two pages. *)
Theorem reachable_blocks_lie_in_their_slab `{Platform} `{Collaborators}
    (heap_size : Z) (h0 h : ZebraBlockHeap) :
  platform_ok ->
  ZebraBlockHeap_new heap_size = Done tt h0 ->
  0 <= heap_address_ h0 ->
  heap_address_ h0 mod GetPageSize = 0 ->
  heap_address_ h0 + heap_size_ h0 < 2 ^ size_bits ->
  reachable h0 h ->
  forall i s,
    slab_lookup (slab_info_ h) i = Some s -> state s <> kFreeSlab ->
    block (info s) <> NULL
    /\ slab_base h i <= block (info s) < slab_base h i + GetPageSize
    /\ block (info s) + block_size (info s)
       <= slab_base h i + 2 * GetPageSize.
Proof.
  intros Hplat Hnew Hnonneg Haligned Hfits Hreach i s Hs Hst.
  pose proof (heap_inv_new Hplat heap_size h0 Hnew Hnonneg Haligned Hfits)
    as Hinv0.
  pose proof (heap_inv_reachable Hplat h0 h Hinv0 Hreach) as Hinv.
  exact (inv_blocks h Hinv i s Hs Hst).
Qed.

Lemma reachable_blocks_lie_in_their_slab_witness :
  reachable (H := win32 false) (H0 := sample_collaborators)
    fresh_heap quarantined_heap
  /\ block five_bytes <> NULL
  /\ slab_base (H := win32 false) quarantined_heap 0 <= block five_bytes
     < slab_base (H := win32 false) quarantined_heap 0
       + GetPageSize (Platform := win32 false)
  /\ block five_bytes + block_size five_bytes
     <= slab_base (H := win32 false) quarantined_heap 0
        + 2 * GetPageSize (Platform := win32 false).
Proof.
  assert (Hreach : reachable (H := win32 false) (H0 := sample_collaborators)
                     fresh_heap quarantined_heap).
  { apply (reachable_step _ allocated_heap (OpPush five_bytes));
      [apply (reachable_step _ fresh_heap (OpAllocate 5));
         [apply reachable_fresh|..]|..];
      evaluate; exact I. }
  split; [exact Hreach|].
  exact (reachable_blocks_lie_in_their_slab (H := win32 false)
           (H0 := sample_collaborators) 16384 fresh_heap quarantined_heap
           ltac:(evaluate) (fresh_heap_constructed false)
           ltac:(evaluate) ltac:(evaluate) ltac:(evaluate) Hreach
           0 {| state := kQuarantinedSlab; info := five_bytes |}
           eq_refl ltac:(discriminate)).
Defined.

(** The heaps the theorems above ask for are the heaps the code reaches:
    under the same assumptions the region, the free queue and the
    quarantine of every reached heap are well formed. *)
Lemma reachable_well_formed `{Platform} `{Collaborators}
    (heap_size : Z) (h0 h : ZebraBlockHeap) :
  platform_ok ->
  ZebraBlockHeap_new heap_size = Done tt h0 ->
  0 <= heap_address_ h0 ->
  heap_address_ h0 mod GetPageSize = 0 ->
  heap_address_ h0 + heap_size_ h0 < 2 ^ size_bits ->
  reachable h0 h ->
  region_ok h /\ free_slabs_ok h /\ quarantine_ok h.
Proof.
  intros Hplat Hnew Hnonneg Haligned Hfits Hreach.
  pose proof (heap_inv_new Hplat heap_size h0 Hnew Hnonneg Haligned Hfits)
    as Hinv0.
  pose proof (heap_inv_reachable Hplat h0 h Hinv0 Hreach) as Hinv.
  split; [exact (inv_region h Hinv)|].
  split; [exact (heap_inv_free_slabs_ok h Hinv)|].
  exact (inv_quarantine h Hinv).
Qed.

(** In a build with [DCHECK]s the contract needs no mention: whatever
    sequence of operations returns, the heap it ends in has every block in
    its slab. *)
Lemma debug_build_blocks_ok `{Platform} `{Collaborators}
    (os : list operation) : forall (h0 h : ZebraBlockHeap),
  platform_ok -> dcheck_is_on = true -> heap_inv h0 ->
  Forall size_t_argument os ->
  run_operations os h0 = Done tt h -> blocks_ok h.
Proof.
  induction os as [|o os IH]; intros h0 h Hplat Hon Hinv Hargs Hrun.
  - cbn in Hrun. injection Hrun as <-. exact (inv_blocks h0 Hinv).
  - apply Forall_cons in Hargs as [Harg Hargs].
    cbn [run_operations] in Hrun. unfold bind in Hrun.
    destruct (run_operation o h0) as [[] h1|] eqn:E; [|discriminate].
    apply (IH h1 h Hplat Hon); try assumption.
    apply (heap_inv_run_operation Hplat h0 o h1 Hinv Harg); [|exact E].
    exact (dcheck_enforces_contract Hplat h0 o h1 Hon (inv_region h0 Hinv) E).
Qed.

(** * Further properties of the code *)

(** ** Addresses and indices *)

(** X1: the two lookups invert each other.  The address of a slab of the
    table is not null and resolves to that slab; beyond the table
    [GetSlabAddress] answers null, which resolves to no slab; and an address
    that resolves lies in the two pages that begin at the address of its
    slab. *)
Theorem GetSlabAddress_GetSlabIndex_inverse `{Platform}
    (h : ZebraBlockHeap) (i p : Z) :
  platform_ok -> region_ok h ->
  (0 <= i < slab_count_ h ->
     GetSlabAddress h i <> NULL /\ GetSlabIndex h (GetSlabAddress h i) = i)
  /\ (slab_count_ h <= i ->
        GetSlabAddress h i = NULL
        /\ GetSlabIndex h (GetSlabAddress h i) = kInvalidSlabIndex)
  /\ (GetSlabIndex h p <> kInvalidSlabIndex ->
        GetSlabAddress h (GetSlabIndex h p) <= p
        < GetSlabAddress h (GetSlabIndex h p) + kSlabSize).
Proof.
  intros Hplat Hregion. split; [|split].
  - intros Hi. rewrite (GetSlabAddress_slab_base Hplat h i Hregion Hi).
    pose proof (slab_base_bounds Hplat h i Hregion Hi) as [Hlo _].
    pose proof (page_size_pos Hplat).
    split; [destruct Hregion; unfold NULL; lia|].
    apply (GetSlabIndex_inside Hplat); [assumption..|lia].
  - intros Hi. assert (Hnull : GetSlabAddress h i = NULL).
    { unfold GetSlabAddress. destruct (Z.leb_spec (slab_count_ h) i); [reflexivity|lia]. }
    rewrite Hnull. split; [reflexivity|]. apply GetSlabIndex_NULL. assumption.
  - intros Hvalid.
    destruct (GetSlabIndex_valid Hplat h p Hregion Hvalid) as [Hi Hp].
    rewrite (GetSlabAddress_slab_base Hplat h _ Hregion Hi).
    rewrite (kSlabSize_eq Hplat). exact Hp.
Qed.

Lemma GetSlabAddress_GetSlabIndex_inverse_witness :
  GetSlabAddress (H := win32 false) fresh_heap 1 <> NULL
  /\ GetSlabIndex (H := win32 false) fresh_heap
       (GetSlabAddress (H := win32 false) fresh_heap 1) = 1.
Proof.
  destruct (GetSlabAddress_GetSlabIndex_inverse (H := win32 false)
              fresh_heap 1 0) as [Hin _]; [evaluate..|].
  apply Hin. evaluate.
Defined.

(** X2: an address resolves to a slab exactly when it lies in the region,
    and then to the slab numbered by the exact quotient of its offset by
    the slab size, a slab of the table. *)
Theorem GetSlabIndex_resolves_in_region `{Platform} (h : ZebraBlockHeap) (p : Z) :
  platform_ok -> region_ok h ->
  (GetSlabIndex h p <> kInvalidSlabIndex
   <-> heap_address_ h <= p < heap_address_ h + heap_size_ h)
  /\ (heap_address_ h <= p < heap_address_ h + heap_size_ h ->
      GetSlabIndex h p = (p - heap_address_ h) / (2 * GetPageSize)
      /\ 0 <= GetSlabIndex h p < slab_count_ h).
Proof.
  intros Hplat Hregion.
  assert (Hin : heap_address_ h <= p < heap_address_ h + heap_size_ h ->
                GetSlabIndex h p = (p - heap_address_ h) / (2 * GetPageSize)).
  { intros Hp. pose proof (size_mod_pos Hplat). unfold GetSlabIndex.
    unfold size_add. rewrite (wrap_small (heap_address_ h + _))
      by (destruct Hregion; lia).
    destruct (Z.ltb_spec p (heap_address_ h)); [lia|].
    destruct (Z.leb_spec (heap_address_ h + heap_size_ h) p); [lia|].
    cbn [orb]. unfold size_sub. rewrite wrap_small by (destruct Hregion; lia).
    rewrite (kSlabSize_eq Hplat). reflexivity. }
  assert (Hrange : heap_address_ h <= p < heap_address_ h + heap_size_ h ->
                   0 <= (p - heap_address_ h) / (2 * GetPageSize)
                   < slab_count_ h).
  { intros Hp. pose proof (page_size_pos Hplat).
    rewrite (heap_size_eq Hplat h Hregion) in Hp. split.
    - apply Z.div_pos; lia.
    - apply Z.div_lt_upper_bound; lia. }
  split; [split|].
  - intros Hvalid.
    destruct (GetSlabIndex_valid Hplat h p Hregion Hvalid) as [Hi Hp].
    pose proof (slab_base_bounds Hplat h _ Hregion Hi). lia.
  - intros Hp. rewrite (Hin Hp).
    apply (index_not_invalid Hplat h _ Hregion). exact (Hrange Hp).
  - intros Hp. rewrite (Hin Hp). split; [reflexivity|exact (Hrange Hp)].
Qed.

Lemma GetSlabIndex_resolves_in_region_witness :
  GetSlabIndex (H := win32 false) fresh_heap 69624 = 0.
Proof.
  destruct (GetSlabIndex_resolves_in_region (H := win32 false)
              fresh_heap 69624) as [_ Hin]; [evaluate..|].
  destruct Hin as [Hidx _]; [evaluate|]. exact Hidx.
Defined.

(** ** Allocating and freeing *)

Section AllocateAndFree.
Context `{Platform}.
Hypothesis Hplat : platform_ok.

(** After an allocation the placed address resolves to the slab that was
    taken. *)
Lemma slab_of_after_allocate h i bytes :
  region_ok h -> 0 <= i < slab_count_ h -> 0 < bytes <= GetPageSize ->
  GetSlabIndex (after_allocate h i bytes) (placed h i bytes) = i
  /\ slab_of (after_allocate h i bytes) (placed h i bytes)
     = Some (allocated_slab h i bytes).
Proof.
  intros Hregion Hi Hb.
  destruct (placed_resolves Hplat h i bytes Hregion Hi Hb) as [_ Hidx].
  assert (Hidx' : GetSlabIndex (after_allocate h i bytes) (placed h i bytes) = i)
    by exact Hidx.
  split; [exact Hidx'|]. unfold slab_of. rewrite Hidx'.
  destruct (Z.eqb_spec i kInvalidSlabIndex) as [E|_].
  - exfalso. exact (index_not_invalid Hplat h i Hregion Hi E).
  - apply slab_lookup_after_allocate; assumption.
Qed.

(** What a successful [Allocate] did, read off its result. *)
Lemma Allocate_returned h bytes p h' :
  region_ok h -> free_slabs_ok h -> 0 <= bytes ->
  Allocate bytes h = Done p h' -> p <> NULL ->
  exists i q,
    free_slabs_ h = i :: q /\ 0 <= i < slab_count_ h
    /\ 0 < bytes <= GetPageSize
    /\ p = placed h i bytes /\ h' = after_allocate h i bytes.
Proof.
  intros Hregion Hfree Hb Hrun Hp.
  destruct (Z.eq_dec bytes 0) as [E0|E0];
    [|destruct (Z_lt_dec GetPageSize bytes) as [Ebig|Ebig];
      [|destruct (free_slabs_ h) as [|i q] eqn:Hq]].
  1-3: rewrite Allocate_rejects in Hrun by auto; congruence.
  assert (Hi : 0 <= i < slab_count_ h).
  { unfold free_slabs_ok in Hfree. rewrite Hq in Hfree.
    apply Forall_cons in Hfree as [Hi _]. exact Hi. }
  rewrite (Allocate_success Hplat h bytes i q) in Hrun by (try assumption; lia).
  injection Hrun as <- <-. exists i, q. repeat split; try assumption; lia.
Qed.

(** Freeing the address just placed in slab [i] gives the slab back. *)
Lemma Free_after_allocate h i q bytes :
  region_ok h -> free_slabs_ h = i :: q -> 0 <= i < slab_count_ h ->
  0 < bytes <= GetPageSize ->
  Free (placed h i bytes) (after_allocate h i bytes)
  = Done true (update_heap h i free_slab (q ++ [i]) (quarantine_ h)).
Proof.
  intros Hregion Hq Hi Hb.
  destruct (placed_resolves Hplat h i bytes Hregion Hi Hb) as [Hnn _].
  destruct (slab_of_after_allocate h i bytes Hregion Hi Hb) as [Hidx Hs].
  rewrite (Free_slab_of Hplat _ _ (region_ok_after_allocate h i bytes Hregion) Hnn).
  rewrite Hs, Hidx. cbn [allocated_slab info block state].
  rewrite Z.eqb_refl. cbn [negb].
  unfold after_free, after_allocate, store_slab, with_slab_info,
    with_free_slabs, update_heap, CircularQueue.push, CircularQueue.pop.
  cbn. rewrite Hq, list_insert_insert_eq. reflexivity.
Qed.


End AllocateAndFree.

(** X3: a pointer [Allocate] returns is a multiple of the shadow ratio,
    lies in the first page of its slab, and the allocation ends less than
    one shadow ratio before the end of that page: any run past the end by
    the shadow ratio or more reaches the second page. *)
Theorem Allocate_aligned_flush `{Platform}
    (h h' : ZebraBlockHeap) (bytes p : Z) :
  platform_ok -> region_ok h -> free_slabs_ok h -> 0 <= bytes ->
  Allocate bytes h = Done p h' -> p <> NULL ->
  exists i q,
    free_slabs_ h = i :: q
    /\ p mod kShadowRatio = 0
    /\ slab_base h i <= p
    /\ p + bytes <= slab_base h i + GetPageSize
    /\ slab_base h i + GetPageSize - (p + bytes) < kShadowRatio.
Proof.
  intros Hplat Hregion Hfree Hbytes Hrun Hp.
  destruct (Allocate_returned Hplat h bytes p h' Hregion Hfree Hbytes Hrun Hp)
    as (i & q & Hq & Hi & Hb & -> & _).
  exists i, q. split; [exact Hq|].
  pose proof (shadow_ratio_pos Hplat) as Hr.
  pose proof (placed_bounds Hplat h i bytes Hregion ltac:(lia)) as Hpl.
  fold (placed h i bytes) in Hpl.
  split; [|split; [lia|split; [lia|]]].
  - unfold placed. rewrite Z.mul_comm. apply Z.mod_mul. lia.
  - unfold placed.
    assert (Hne : kShadowRatio <> 0) by lia.
    pose proof (Z.div_mod (slab_base h i + GetPageSize - bytes) kShadowRatio
                  Hne) as Hdm.
    pose proof (Z.mod_pos_bound (slab_base h i + GetPageSize - bytes)
                  kShadowRatio Hr).
    lia.
Qed.

Lemma Allocate_aligned_flush_witness :
  exists i q,
    free_slabs_ fresh_heap = i :: q
    /\ 69624 mod kShadowRatio (Platform := win32 false) = 0
    /\ slab_base (H := win32 false) fresh_heap i <= 69624
    /\ 69624 + 5 <= slab_base (H := win32 false) fresh_heap i
                    + GetPageSize (Platform := win32 false)
    /\ slab_base (H := win32 false) fresh_heap i
       + GetPageSize (Platform := win32 false) - (69624 + 5)
       < kShadowRatio (Platform := win32 false).
Proof.
  apply (Allocate_aligned_flush (H := win32 false) fresh_heap allocated_heap 5
           69624); evaluate.
Defined.



(** X5: freeing what [Allocate] just returned succeeds in either build:
    the slab is free again with a zeroed descriptor, its index has moved
    from the head of the free queue to the tail, and nothing else has
    changed. *)
Theorem Allocate_Free_round_trip `{Platform}
    (h h1 : ZebraBlockHeap) (bytes p : Z) :
  platform_ok -> region_ok h -> free_slabs_ok h -> 0 <= bytes ->
  Allocate bytes h = Done p h1 -> p <> NULL ->
  exists i q,
    free_slabs_ h = i :: q
    /\ Free p h1
       = Done true (update_heap h i free_slab (q ++ [i]) (quarantine_ h)).
Proof.
  intros Hplat Hregion Hfree Hbytes Hrun Hp.
  destruct (Allocate_returned Hplat h bytes p h1 Hregion Hfree Hbytes Hrun Hp)
    as (i & q & Hq & Hi & Hb & -> & ->).
  exists i, q. split; [exact Hq|].
  exact (Free_after_allocate Hplat h i q bytes Hregion Hq Hi Hb).
Qed.

Lemma Allocate_Free_round_trip_witness :
  exists i q,
    free_slabs_ fresh_heap = i :: q
    /\ Free (H := win32 false) 69624 allocated_heap
       = Done true (update_heap fresh_heap i free_slab (q ++ [i])
                      (quarantine_ fresh_heap)).
Proof.
  apply (Allocate_Free_round_trip (H := win32 false) fresh_heap allocated_heap
           5 69624); evaluate.
Defined.

(** X6: a second [Free] of the same pointer is refused: once [Free] of a
    pointer other than null has succeeded, [Free] of that pointer answers
    false and changes nothing. *)
Theorem Free_twice_refused `{Platform} (h h' : ZebraBlockHeap) (p : Z) :
  platform_ok -> region_ok h -> p <> NULL ->
  Free p h = Done true h' -> Free p h' = Done false h'.
Proof.
  intros Hplat Hregion Hp Hrun.
  rewrite (Free_slab_of Hplat h p Hregion Hp) in Hrun.
  destruct (slab_of h p) as [s|] eqn:Hs; [|discriminate].
  destruct (slab_of_Some h p s Hs) as [Hvalid Hlook].
  destruct (Z.eqb_spec (block (info s)) p) as [Eb|Eb]; cbn [negb] in Hrun;
    [|discriminate].
  assert (Hfreed : h' = after_free h (GetSlabIndex h p)).
  { destruct (state s); [discriminate|congruence|].
    destruct dcheck_is_on; [discriminate|congruence]. }
  subst h'.
  assert (Hregion' : region_ok (after_free h (GetSlabIndex h p))).
  { revert Hregion. apply region_ok_same; try reflexivity.
    cbn. apply length_insert. }
  rewrite (Free_slab_of Hplat _ p Hregion' Hp).
  assert (Hs' : slab_of (after_free h (GetSlabIndex h p)) p = Some free_slab).
  { unfold slab_of.
    change (GetSlabIndex (after_free h (GetSlabIndex h p)) p)
      with (GetSlabIndex h p).
    destruct (Z.eqb_spec (GetSlabIndex h p) kInvalidSlabIndex);
      [contradiction|].
    cbn [after_free with_free_slabs store_slab with_slab_info slab_info_].
    rewrite slab_lookup_store.
    - rewrite bool_decide_eq_true_2; reflexivity.
    - rewrite Hlook. eauto.
    - apply (slab_lookup_nonneg (slab_info_ h)). rewrite Hlook. eauto. }
  rewrite Hs'. cbn [free_slab info zero_info block].
  destruct (Z.eqb_spec 0 p) as [E|_]; [|reflexivity].
  exfalso. apply Hp. symmetry. exact E.
Qed.

Lemma Free_twice_refused_witness :
  Free (H := win32 false) 69624 (after_free allocated_heap 0)
  = Done false (after_free allocated_heap 0).
Proof.
  apply (Free_twice_refused (H := win32 false) allocated_heap
           (after_free allocated_heap 0) 69624); evaluate.
Defined.

(** ** Construction *)



(** A request so large that rounding it up wraps reserves nothing: the
    size handed to the reservation primitive is 0. *)
Example ZebraBlockHeap_new_wraps :
  AlignUp (H := win32 false) 4294967295 (kSlabSize (H := win32 false)) = 0.
Proof. vm_compute. reflexivity. Qed.

(** ** Through the quarantine and back *)

(** X8: with nothing else in the quarantine, [Push] followed by [Empty]
    hands back the pushed descriptor and restores the heap exactly as it was
    before the [Push]. *)
Theorem Push_Empty_round_trip `{Platform}
    (h h1 : ZebraBlockHeap) (info0 : CompactBlockInfo)
    (infos : list CompactBlockInfo) :
  platform_ok -> region_ok h -> quarantine_ h = [] ->
  Push info0 h = Done true h1 ->
  Empty infos h1 = Done (infos ++ [info0]) h.
Proof.
  intros Hplat Hregion Hempty Hrun.
  rewrite (Push_slab_of Hplat h info0 Hregion) in Hrun.
  destruct (slab_of h (block info0)) as [s|] eqn:Hs; [|discriminate].
  destruct (slab_of_Some h _ s Hs) as [Hvalid Hlook].
  destruct (decide (state s = kAllocatedSlab)) as [Hst|Hst];
    [|rewrite (bool_decide_eq_false_2 _ Hst) in Hrun; discriminate].
  unfold memcmp_eq in Hrun.
  destruct (decide (info s = info0)) as [Hinfo|Hinfo];
    [|rewrite (bool_decide_eq_false_2 _ Hinfo), andb_false_r in Hrun;
      discriminate].
  rewrite !bool_decide_eq_true_2 in Hrun by assumption. cbn [andb] in Hrun.
  injection Hrun as <-.
  set (i := GetSlabIndex h (block info0)) in *.
  assert (Hi : 0 <= i < slab_count_ h)
    by (apply slab_lookup_is_Some; [assumption|]; rewrite Hlook; eauto).
  assert (Hregion1 : region_ok (after_push h i info0)).
  { apply region_ok_store_slab, region_ok_with_quarantine. assumption. }
  assert (Hq1 : quarantine_ (after_push h i info0) = [i])
    by (cbn; rewrite Hempty; reflexivity).
  assert (Hlook1 : slab_lookup (slab_info_ (after_push h i info0)) i
                   = Some {| state := kQuarantinedSlab; info := info0 |}).
  { cbn. rewrite slab_lookup_store; [|rewrite Hlook; eauto|lia].
    rewrite bool_decide_eq_true_2; reflexivity. }
  assert (Hall : Forall (fun j => 0 <= j < slab_count_ (after_push h i info0))
                        [i])
    by (apply Forall_cons; split; [exact Hi|apply Forall_nil_2]).
  unfold Empty. rewrite Hq1.
  rewrite (Empty_loop_drains Hplat (length [i]) [i] (after_push h i info0)
             infos Hregion1 Hq1 Hall (le_n _)).
  assert (Htable : <[Z.to_nat i := {| state := kAllocatedSlab; info := info0 |}]>
                     (slab_info_ h) = slab_info_ h).
  { apply list_insert_id. unfold slab_lookup in Hlook.
    destruct (0 <=? i); [|discriminate]. rewrite Hlook.
    destruct s as [st inf]; cbn in *; subst; reflexivity. }
  assert (Hback : with_quarantine (fun _ => [])
                    (with_slab_info (release_all [i]) (after_push h i info0))
                  = h).
  { unfold with_quarantine, with_slab_info. cbn [release_all].
    rewrite Hlook1. unfold after_push, store_slab, with_quarantine,
      with_slab_info, release. cbn.
    rewrite list_insert_insert_eq, Htable.
    destruct h; cbn in *. subst. reflexivity. }
  rewrite Hback. cbn [map]. unfold descriptor_at. rewrite Hlook1.
  reflexivity.
Qed.

Lemma Push_Empty_round_trip_witness :
  Empty (H := win32 false) [] quarantined_heap
  = Done ([] ++ [five_bytes]) allocated_heap.
Proof.
  apply (Push_Empty_round_trip (H := win32 false) allocated_heap
           quarantined_heap five_bytes []); evaluate.
Defined.

(** X9: the handoff from the quarantine to the byte allocator works: in a
    heap that satisfies the invariant, [Free] of the block address of a
    descriptor that [Pop] has just handed out succeeds in either build; the
    slab is free, its index has left the head of the quarantine and stands
    at the tail of the free queue. *)
Theorem Pop_then_Free `{Platform}
    (h h1 : ZebraBlockHeap) (info0 inf : CompactBlockInfo) :
  platform_ok -> heap_inv h ->
  Pop info0 h = Done (true, inf) h1 ->
  exists i q,
    quarantine_ h = i :: q
    /\ Free (block inf) h1
       = Done true (update_heap h i free_slab (free_slabs_ h ++ [i]) q).
Proof.
  intros Hplat Hinv Hrun.
  pose proof (inv_region h Hinv) as Hregion.
  destruct (QuarantineInvariantIsSatisfied h) eqn:E.
  { rewrite Pop_satisfied in Hrun by assumption. discriminate. }
  destruct (quarantine_ h) as [|i q] eqn:Hq.
  { unfold QuarantineInvariantIsSatisfied in E. rewrite Hq in E.
    discriminate E. }
  pose proof (inv_quarantine h Hinv) as Hquar. unfold quarantine_ok in Hquar.
  rewrite Hq in Hquar. apply Forall_cons in Hquar as [(s & Hs & Hst) _].
  rewrite (Pop_evicts Hplat h info0 i q s) in Hrun by assumption.
  injection Hrun as <- <-. exists i, q. split; [reflexivity|].
  assert (Hi : 0 <= i < slab_count_ h)
    by (apply slab_lookup_is_Some; [assumption|]; rewrite Hs; eauto).
  destruct (inv_blocks h Hinv i s Hs) as (Hnn & Hin & _); [congruence|].
  pose proof (page_size_pos Hplat) as Hpage.
  assert (Hidx : GetSlabIndex (after_pop h i (info s)) (block (info s)) = i).
  { change (GetSlabIndex (after_pop h i (info s)) (block (info s)))
      with (GetSlabIndex h (block (info s))).
    apply (GetSlabIndex_inside Hplat); [assumption..|lia]. }
  assert (Hregion1 : region_ok (after_pop h i (info s))).
  { apply region_ok_store_slab, region_ok_with_quarantine. assumption. }
  rewrite (Free_slab_of Hplat _ _ Hregion1 Hnn).
  unfold slab_of. rewrite Hidx.
  destruct (Z.eqb_spec i kInvalidSlabIndex) as [Einv|_].
  { exfalso. exact (index_not_invalid Hplat h i Hregion Hi Einv). }
  assert (Hlook1 : slab_lookup (slab_info_ (after_pop h i (info s))) i
                   = Some {| state := kAllocatedSlab; info := info s |}).
  { cbn. rewrite slab_lookup_store; [|rewrite Hs; eauto|lia].
    rewrite bool_decide_eq_true_2; reflexivity. }
  rewrite Hlook1. cbn [info state]. rewrite Z.eqb_refl. cbn [negb].
  unfold after_free, after_pop, store_slab, with_slab_info, with_free_slabs,
    with_quarantine, update_heap, CircularQueue.push, CircularQueue.pop.
  cbn. rewrite Hq, list_insert_insert_eq. reflexivity.
Qed.

(** The three concrete heaps satisfy the invariant, as heaps reached from
    the constructor under the contract. *)
Lemma concrete_heaps_inv dchecks :
  heap_inv (H := win32 dchecks) fresh_heap
  /\ heap_inv (H := win32 dchecks) allocated_heap
  /\ heap_inv (H := win32 dchecks) quarantined_heap.
Proof.
  assert (Hplat : platform_ok (H := win32 dchecks)) by evaluate.
  assert (Hfresh : heap_inv (H := win32 dchecks) fresh_heap).
  { apply (heap_inv_new (H0 := sample_collaborators) Hplat 16384);
      [apply fresh_heap_constructed|evaluate..]. }
  assert (Halloc : heap_inv (H := win32 dchecks) allocated_heap).
  { apply (heap_inv_run_operation (H0 := sample_collaborators) Hplat
             fresh_heap (OpAllocate 5)); [exact Hfresh|evaluate|exact I|].
    destruct dchecks; vm_compute; reflexivity. }
  split; [exact Hfresh|]. split; [exact Halloc|].
  apply (heap_inv_run_operation (H0 := sample_collaborators) Hplat
           allocated_heap (OpPush five_bytes)); [exact Halloc|exact I..|].
  destruct dchecks; vm_compute; reflexivity.
Qed.

Lemma Pop_then_Free_witness :
  exists i q,
    quarantine_ quarantined_heap = i :: q
    /\ Free (H := win32 false) (block five_bytes) allocated_heap
       = Done true (update_heap quarantined_heap i free_slab
                      (free_slabs_ quarantined_heap ++ [i]) q).
Proof.
  apply (Pop_then_Free (H := win32 false) quarantined_heap allocated_heap
           zero_info five_bytes);
    [evaluate|exact (proj2 (proj2 (concrete_heaps_inv false)))|evaluate].
Defined.

(** ** Blocks *)

Section Blocks.
Context `{Platform} `{Collaborators}.
Hypothesis Hplat : platform_ok.

(** What an [AllocateBlock] that returned a pointer did, read off its
    result. *)
Lemma AllocateBlock_returned h size l r layout0 res h' :
  region_ok h -> free_slabs_ok h ->
  AllocateBlock size l r layout0 h = Done res h' -> ab_alloc res <> NULL ->
  exists i q,
    free_slabs_ h = i :: q /\ 0 <= i < slab_count_ h
    /\ Layout.block_size (ab_layout res) = 2 * GetPageSize
    /\ ab_alloc res = slab_base h i
    /\ h' = store_slab i (block_slab h i (ab_layout res))
              (with_free_slabs CircularQueue.pop h).
Proof.
  intros Hregion Hfree Hrun Hp.
  destruct (Z_lt_dec GetPageSize (size_add l size)) as [Hl|Hl].
  { rewrite AllocateBlock_rejects_request in Hrun by auto.
    injection Hrun as <- _. contradiction. }
  destruct (Z_lt_dec GetPageSize r) as [Hr|Hr].
  { rewrite AllocateBlock_rejects_request in Hrun by auto.
    injection Hrun as <- _. contradiction. }
  rewrite (AllocateBlock_planned Hplat h size l r layout0) in Hrun
    by (try assumption; lia).
  cbv zeta in Hrun.
  destruct (layout_accepted _) eqn:Hacc;
    [|injection Hrun as <- _; contradiction].
  destruct (free_slabs_ h) as [|i q] eqn:Hq;
    [injection Hrun as <- _; contradiction|].
  injection Hrun as <- <-. cbn [ab_alloc ab_layout].
  assert (Hi : 0 <= i < slab_count_ h).
  { unfold free_slabs_ok in Hfree. rewrite Hq in Hfree.
    apply Forall_cons in Hfree as [Hi _]. exact Hi. }
  unfold layout_accepted in Hacc.
  rewrite !andb_true_iff, Z.eqb_eq in Hacc.
  destruct Hacc as [[[_ Hsize] _] _]. rewrite (kSlabSize_eq Hplat) in Hsize.
  exists i, q. repeat split; assumption || lia.
Qed.

(** The slab a hosted block resolves to. *)
Lemma slab_of_hosted h i s :
  region_ok h -> 0 <= i < slab_count_ h ->
  let h' := store_slab i s (with_free_slabs CircularQueue.pop h) in
  slab_base h i <> NULL
  /\ GetSlabIndex h' (slab_base h i) = i
  /\ slab_of h' (slab_base h i) = Some s
  /\ region_ok h'.
Proof.
  intros Hregion Hi h'.
  pose proof (slab_base_bounds Hplat h i Hregion Hi) as [Hlo _].
  pose proof (page_size_pos Hplat) as Hpage.
  assert (Hidx : GetSlabIndex h' (slab_base h i) = i).
  { change (GetSlabIndex h' (slab_base h i))
      with (GetSlabIndex h (slab_base h i)).
    apply (GetSlabIndex_inside Hplat); [assumption..|lia]. }
  split; [destruct Hregion; unfold NULL; lia|]. split; [exact Hidx|].
  split.
  - unfold slab_of. rewrite Hidx.
    destruct (Z.eqb_spec i kInvalidSlabIndex) as [E|_].
    { exfalso. exact (index_not_invalid Hplat h i Hregion Hi E). }
    subst h'. cbn. rewrite slab_lookup_store;
      [|apply slab_lookup_is_Some; assumption|lia].
    rewrite bool_decide_eq_true_2; reflexivity.
  - subst h'. apply region_ok_store_slab, region_ok_with_free_slabs.
    assumption.
Qed.

End Blocks.

(** X10: when [AllocateBlock] returns a pointer other than null, right
    afterwards [IsAllocated] of it is true and [GetAllocationSize] of it is
    the size of a whole slab, [2 * page_size], whatever body size was asked
    for. *)
Theorem AllocateBlock_then_queries `{Platform} `{Collaborators}
    (h h' : ZebraBlockHeap) (size l r : Z) (layout0 : BlockLayout)
    (res : AllocateBlockResult) :
  platform_ok -> region_ok h -> free_slabs_ok h ->
  AllocateBlock size l r layout0 h = Done res h' -> ab_alloc res <> NULL ->
  IsAllocated (ab_alloc res) h' = Done true h'
  /\ GetAllocationSize (ab_alloc res) h' = Done (2 * GetPageSize) h'.
Proof.
  intros Hplat Hregion Hfree Hrun Hp.
  destruct (AllocateBlock_returned Hplat h size l r layout0 res h'
              Hregion Hfree Hrun Hp) as (i & q & Hq & Hi & Hsize & -> & ->).
  destruct (slab_of_hosted Hplat h i (block_slab h i (ab_layout res))
              Hregion Hi) as (_ & _ & Hs & Hregion').
  rewrite IsAllocated_slab_of, GetAllocationSize_slab_of by assumption.
  rewrite Hs. cbn [block_slab info block state block_size].
  rewrite Z.eqb_refl, Hsize. split; reflexivity.
Qed.

Lemma AllocateBlock_then_queries_witness :
  IsAllocated (H := win32 false) 65536 hosted_heap = Done true hosted_heap
  /\ GetAllocationSize (H := win32 false) 65536 hosted_heap
     = Done (2 * GetPageSize (Platform := win32 false)) hosted_heap.
Proof.
  apply (AllocateBlock_then_queries (H := win32 false)
           (H0 := sample_collaborators) fresh_heap hosted_heap 100 16 0
           blank_layout
           {| ab_alloc := 65536; ab_layout := hosted_layout;
              ab_planner_calls :=
                [{| pc_chunk_size := 4096; pc_alignment := 8; pc_size := 100;
                    pc_min_left_redzone_size := 16;
                    pc_min_right_redzone_size := 4096 |}] |});
    evaluate.
Defined.

(** X11: [FreeBlock] of the pointer [AllocateBlock] just returned succeeds
    in either build: the slab is free again with a zeroed descriptor, its
    index has moved from the head of the free queue to the tail, and nothing
    else has changed. *)
Theorem AllocateBlock_FreeBlock_round_trip `{Platform} `{Collaborators}
    (h h' : ZebraBlockHeap) (size l r : Z) (layout0 : BlockLayout)
    (res : AllocateBlockResult) :
  platform_ok -> region_ok h -> free_slabs_ok h ->
  AllocateBlock size l r layout0 h = Done res h' -> ab_alloc res <> NULL ->
  exists i q,
    free_slabs_ h = i :: q
    /\ FreeBlock (ab_alloc res) h'
       = Done true (update_heap h i free_slab (q ++ [i]) (quarantine_ h)).
Proof.
  intros Hplat Hregion Hfree Hrun Hp.
  destruct (AllocateBlock_returned Hplat h size l r layout0 res h'
              Hregion Hfree Hrun Hp) as (i & q & Hq & Hi & Hsize & Hres & ->).
  rewrite Hres in *.
  destruct (slab_of_hosted Hplat h i (block_slab h i (ab_layout res))
              Hregion Hi) as (Hnn & Hidx & Hs & Hregion').
  exists i, q. split; [exact Hq|].
  unfold FreeBlock. unmonad.
  destruct (Z.eqb_spec (slab_base h i) NULL) as [|_]; [contradiction|].
  cbn [negb]. rewrite andb_false_r. unmonad.
  rewrite (Free_slab_of Hplat _ _ Hregion' Hnn), Hs, Hidx.
  cbn [block_slab info block state]. rewrite Z.eqb_refl. cbn [negb].
  unfold after_free, store_slab, with_slab_info, with_free_slabs, update_heap,
    CircularQueue.push, CircularQueue.pop.
  cbn. rewrite Hq, list_insert_insert_eq. reflexivity.
Qed.

Lemma AllocateBlock_FreeBlock_round_trip_witness :
  exists i q,
    free_slabs_ fresh_heap = i :: q
    /\ FreeBlock (H := win32 true) 65536 hosted_heap
       = Done true (update_heap fresh_heap i free_slab (q ++ [i])
                      (quarantine_ fresh_heap)).
Proof.
  apply (AllocateBlock_FreeBlock_round_trip (H := win32 true)
           (H0 := sample_collaborators) fresh_heap hosted_heap 100 16 0
           blank_layout
           {| ab_alloc := 65536; ab_layout := hosted_layout;
              ab_planner_calls :=
                [{| pc_chunk_size := 4096; pc_alignment := 8; pc_size := 100;
                    pc_min_left_redzone_size := 16;
                    pc_min_right_redzone_size := 4096 |}] |});
    evaluate.
Defined.

(** ** What no operation does *)

Section Frame.
Context `{Platform} `{Collaborators}.

Lemma same_geometry_refl h : same_geometry h h.
Proof. repeat split. Qed.

Lemma same_geometry_trans h1 h2 h3 :
  same_geometry h1 h2 -> same_geometry h2 h3 -> same_geometry h1 h3.
Proof.
  intros (A1 & S1 & C1 & L1) (A2 & S2 & C2 & L2).
  repeat split; congruence.
Qed.

Lemma keeps_ret {A} (a : A) : keeps_geometry (ret a).
Proof. intros h a' h' E. injection E as _ <-. apply same_geometry_refl. Qed.

Lemma keeps_get : keeps_geometry get.
Proof. intros h a' h' E. injection E as _ <-. apply same_geometry_refl. Qed.

Lemma keeps_stop {A} f : keeps_geometry (@stop A f).
Proof. intros h a' h' E. discriminate E. Qed.

Lemma keeps_bind {A B} (m : M A) (k : A -> M B) :
  keeps_geometry m -> (forall a, keeps_geometry (k a)) ->
  keeps_geometry (bind m k).
Proof.
  intros Hm Hk h b h' E. unfold bind in E.
  destruct (m h) as [a h1|] eqn:Em; [|discriminate].
  exact (same_geometry_trans _ _ _ (Hm _ _ _ Em) (Hk a _ _ _ E)).
Qed.

Lemma keeps_DCHECK c : keeps_geometry (DCHECK c).
Proof.
  unfold DCHECK. destruct (dcheck_is_on && negb c);
    [apply keeps_stop|apply keeps_ret].
Qed.

Lemma keeps_slab_at i : keeps_geometry (slab_at i).
Proof.
  intros h a h' E. unfold slab_at in E.
  destruct (slab_lookup (slab_info_ h) i); [|discriminate].
  injection E as _ <-. apply same_geometry_refl.
Qed.

Lemma keeps_slab_store i s : keeps_geometry (slab_store i s).
Proof.
  intros h a h' E. unfold slab_store in E.
  destruct (slab_lookup (slab_info_ h) i); [|discriminate].
  injection E as _ <-. repeat split. cbn. apply length_insert.
Qed.

Lemma keeps_with_free_slabs f : keeps_geometry (modify (with_free_slabs f)).
Proof. intros h a h' E. injection E as _ <-. repeat split. Qed.

Lemma keeps_with_quarantine f : keeps_geometry (modify (with_quarantine f)).
Proof. intros h a h' E. injection E as _ <-. repeat split. Qed.

Lemma keeps_with_quarantine_ratio r :
  keeps_geometry (modify (with_quarantine_ratio r)).
Proof. intros h a h' E. injection E as _ <-. repeat split. Qed.

(** Breaks a member function into its statements, each of which keeps the
    geometry. *)
Ltac keeps :=
  repeat match goal with
         | |- keeps_geometry (bind _ _) => apply keeps_bind; [|intros ?]
         | |- keeps_geometry (ret _) => apply keeps_ret
         | |- keeps_geometry get => apply keeps_get
         | |- keeps_geometry (stop _) => apply keeps_stop
         | |- keeps_geometry (DCHECK _) => apply keeps_DCHECK
         | |- keeps_geometry (slab_at _) => apply keeps_slab_at
         | |- keeps_geometry (slab_store _ _) => apply keeps_slab_store
         | |- keeps_geometry (modify (with_free_slabs _)) =>
             apply keeps_with_free_slabs
         | |- keeps_geometry (modify (with_quarantine _)) =>
             apply keeps_with_quarantine
         | |- keeps_geometry (modify (with_quarantine_ratio _)) =>
             apply keeps_with_quarantine_ratio
         | |- keeps_geometry (if ?c then _ else _) => destruct c
         | |- keeps_geometry (match ?x with _ => _ end) => destruct x
         | |- keeps_geometry _ => progress cbv zeta
         end.

Lemma keeps_AllocateImpl bytes : keeps_geometry (AllocateImpl bytes).
Proof. unfold AllocateImpl. keeps. Qed.

Lemma keeps_Allocate bytes : keeps_geometry (Allocate bytes).
Proof. unfold Allocate. keeps. apply keeps_AllocateImpl. Qed.

Lemma keeps_Free p : keeps_geometry (Free p).
Proof. unfold Free. keeps. Qed.

Lemma keeps_IsAllocated p : keeps_geometry (IsAllocated p).
Proof. unfold IsAllocated. keeps. Qed.

Lemma keeps_GetAllocationSize p : keeps_geometry (GetAllocationSize p).
Proof. unfold GetAllocationSize. keeps. Qed.

Lemma keeps_AllocateBlock size l r layout0 :
  keeps_geometry (AllocateBlock size l r layout0).
Proof. unfold AllocateBlock. keeps; apply keeps_AllocateImpl. Qed.

Lemma keeps_FreeBlock p : keeps_geometry (FreeBlock p).
Proof. unfold FreeBlock. keeps. apply keeps_Free. Qed.

Lemma keeps_Push info0 : keeps_geometry (Push info0).
Proof. unfold Push. keeps. Qed.

Lemma keeps_Pop info0 : keeps_geometry (Pop info0).
Proof. unfold Pop. keeps. Qed.

Lemma keeps_Empty_loop fuel : forall infos, keeps_geometry (Empty_loop fuel infos).
Proof.
  induction fuel as [|fuel IH]; intros infos h r h' E; cbn [Empty_loop] in E.
  - destruct (CircularQueue.front (quarantine_ h)); [discriminate|].
    injection E as _ <-. apply same_geometry_refl.
  - destruct (CircularQueue.front (quarantine_ h)) as [i|];
      [|injection E as _ <-; apply same_geometry_refl].
    revert h r h' E. change (keeps_geometry
      (DCHECK (negb (i =? kInvalidSlabIndex)) ;;;
       modify (with_quarantine CircularQueue.pop) ;;;
       s <-- slab_at i ;;
       slab_store i {| state := kAllocatedSlab; info := info s |} ;;;
       Empty_loop fuel (infos ++ [info s]))).
    keeps. apply IH.
Qed.

Lemma keeps_Empty infos : keeps_geometry (Empty infos).
Proof. intros h r h' E. exact (keeps_Empty_loop _ infos h r h' E). Qed.

Lemma keeps_GetCount : keeps_geometry GetCount.
Proof. unfold GetCount. keeps. Qed.

Lemma keeps_set_quarantine_ratio r : keeps_geometry (set_quarantine_ratio r).
Proof. unfold set_quarantine_ratio. keeps. Qed.

Lemma keeps_run_operation o : keeps_geometry (run_operation o).
Proof.
  destruct o; cbn [run_operation]; unfold forget; keeps;
    auto using keeps_Allocate, keeps_Free, keeps_IsAllocated,
      keeps_GetAllocationSize, keeps_AllocateBlock, keeps_FreeBlock,
      keeps_Push, keeps_Pop, keeps_Empty, keeps_GetCount,
      keeps_set_quarantine_ratio.
Qed.

Lemma keeps_run_operations os : keeps_geometry (run_operations os).
Proof.
  induction os as [|o os IH]; cbn [run_operations]; keeps;
    [apply keeps_run_operation|exact IH].
Qed.

End Frame.

(** X12: no operation moves, resizes or re-cuts the region.  Whatever the
    heap, the build and the sequence of public operations, contract kept or
    not, when the sequence returns the heap has the address, the size, the
    slab count and the table size it started with; every address resolves
    as before, every slab begins where it began, and a well-formed region
    stays well formed. *)
Theorem operations_keep_region `{Platform} `{Collaborators}
    (os : list operation) (h h' : ZebraBlockHeap) :
  run_operations os h = Done tt h' ->
  same_geometry h h'
  /\ (forall p, GetSlabIndex h' p = GetSlabIndex h p)
  /\ (forall i, GetSlabAddress h' i = GetSlabAddress h i)
  /\ (region_ok h -> region_ok h').
Proof.
  intros Hrun.
  pose proof (keeps_run_operations os h tt h' Hrun) as Hgeo.
  split; [exact Hgeo|]. destruct Hgeo as (Ha & Hs & Hc & Hl).
  split; [|split].
  - intros p. unfold GetSlabIndex. rewrite Ha, Hs. reflexivity.
  - intros i. unfold GetSlabAddress. rewrite Ha, Hc. reflexivity.
  - apply region_ok_same; assumption.
Qed.

Lemma operations_keep_region_witness :
  same_geometry fresh_heap corrupted_heap.
Proof.
  exact (proj1 (operations_keep_region (H := win32 false)
                  (H0 := sample_collaborators) free_while_quarantined
                  fresh_heap corrupted_heap ltac:(vm_compute; reflexivity))).
Defined.

(** ** The slab state machine *)

Section StateMachine.
Context `{Platform} `{Collaborators}.
Hypothesis Hplat : platform_ok.

(** An allocated slab, moved to the tail of the quarantine. *)
Lemma heap_inv_quarantine h i s :
  heap_inv h -> slab_lookup (slab_info_ h) i = Some s ->
  state s = kAllocatedSlab ->
  heap_inv (update_heap h i {| state := kQuarantinedSlab; info := info s |}
              (free_slabs_ h) (quarantine_ h ++ [i])).
Proof.
  intros Hinv Hs Hst.
  assert (Hnf : i ∉ free_slabs_ h).
  { intros Hi. pose proof (free_member_state h i s Hinv Hi Hs). congruence. }
  assert (Hnq : i ∉ quarantine_ h).
  { intros Hi. pose proof (quarantine_member_state h i s Hinv Hi Hs).
    congruence. }
  apply heap_inv_update; try assumption.
  - rewrite Hs. eauto.
  - intros _. cbn [info]. apply (inv_blocks h Hinv i s Hs). congruence.
  - exact (inv_free_nodup h Hinv).
  - apply NoDup_app. split; [exact (inv_quarantine_nodup h Hinv)|]. split.
    + intros j Hj Hj'. apply list_elem_of_singleton in Hj'. subst j.
      contradiction.
    + apply NoDup_singleton.
  - intros j Hj. left. split; [exact Hj|]. intros ->. contradiction.
  - intros j Hj. apply elem_of_app in Hj as [Hj|Hj].
    + left. split; [exact Hj|]. intros ->. contradiction.
    + apply list_elem_of_singleton in Hj. right. split; [exact Hj|reflexivity].
Qed.

(** Every move keeps the invariant. *)
Lemma transition_heap_inv h h' : heap_inv h -> transition h h' -> heap_inv h'.
Proof.
  intros Hinv Hstep.
  destruct Hstep as [|r|i q s inf Hq Hs Hst Hok|i s Hs Hst|i s Hs Hst
                    |i q s Hq Hs Hst].
  - exact Hinv.
  - destruct Hinv as [Hregion Hfree Hfnd Hquar Hqnd Hblocks].
    constructor; try assumption.
    revert Hregion. apply region_ok_same; reflexivity.
  - apply (heap_inv_take_free h i q); [assumption..|reflexivity].
  - exact (heap_inv_release h i s Hinv Hs Hst).
  - exact (heap_inv_quarantine h i s Hinv Hs Hst).
  - exact (heap_inv_unquarantine h i q s Hinv Hq Hs).
Qed.

(** Setting one slab keeps the accounts when the queues keep every other
    slab and the slab that was set is in the queue of its new state. *)
Lemma accounted_update h i s' fq qq :
  slab_accounted h -> is_Some (slab_lookup (slab_info_ h) i) ->
  (forall j, j <> i -> j ∈ free_slabs_ h -> j ∈ fq) ->
  (forall j, j <> i -> j ∈ quarantine_ h -> j ∈ qq) ->
  match state s' with
  | kFreeSlab => i ∈ fq /\ info s' = zero_info
  | kAllocatedSlab => True
  | kQuarantinedSlab => i ∈ qq
  end ->
  slab_accounted (update_heap h i s' fq qq).
Proof.
  intros Hacc Hi Hf Hq Hnew j s Hs.
  assert (Hj : 0 <= j)
    by (apply (slab_lookup_nonneg (slab_info_ (update_heap h i s' fq qq)));
        rewrite Hs; eauto).
  cbn [update_heap slab_info_ free_slabs_ quarantine_] in *.
  rewrite slab_lookup_store in Hs by assumption.
  case_bool_decide as E.
  - injection Hs as <-. subst j. exact Hnew.
  - specialize (Hacc j s Hs). destruct (state s).
    + destruct Hacc as [Hin Hz]. split; [|exact Hz]. apply Hf; congruence.
    + exact I.
    + apply Hq; congruence.
Qed.

Lemma transition_accounted h h' :
  heap_inv h -> slab_accounted h -> transition h h' -> slab_accounted h'.
Proof.
  intros Hinv Hacc Hstep.
  destruct Hstep as [|r|i q s inf Hq Hs Hst Hok|i s Hs Hst|i s Hs Hst
                    |i q s Hq Hs Hst].
  - exact Hacc.
  - exact Hacc.
  - apply accounted_update; [assumption|rewrite Hs; eauto|..|exact I].
    + intros j Hne Hj. rewrite Hq in Hj. apply elem_of_cons in Hj as [?|Hj];
        [contradiction|exact Hj].
    + auto.
  - apply accounted_update; [assumption|rewrite Hs; eauto|..].
    + intros j _ Hj. apply elem_of_app. left. exact Hj.
    + auto.
    + cbn. split; [|reflexivity]. apply elem_of_app. right.
      apply list_elem_of_here.
  - apply accounted_update; [assumption|rewrite Hs; eauto|..].
    + auto.
    + intros j _ Hj. apply elem_of_app. left. exact Hj.
    + cbn. apply elem_of_app. right. apply list_elem_of_here.
  - apply accounted_update; [assumption|rewrite Hs; eauto|..|exact I].
    + auto.
    + intros j Hne Hj. rewrite Hq in Hj. apply elem_of_cons in Hj as [?|Hj];
        [contradiction|exact Hj].
Qed.

Lemma transitions_keep_invariants h h' :
  heap_inv h -> slab_accounted h -> rtc transition h h' ->
  heap_inv h' /\ slab_accounted h'.
Proof.
  intros Hinv Hacc Hsteps. induction Hsteps as [h|h h1 h' Hstep _ IH].
  - split; assumption.
  - apply IH.
    + exact (transition_heap_inv h h1 Hinv Hstep).
    + exact (transition_accounted h h1 Hinv Hacc Hstep).
Qed.

(** The loop of [Empty] is a run of moves out of the quarantine. *)
Lemma Empty_loop_transitions fuel : forall h infos r h',
  heap_inv h -> Empty_loop fuel infos h = Done r h' -> rtc transition h h'.
Proof.
  induction fuel as [|fuel IH]; intros h infos r h' Hinv E;
    cbn [Empty_loop] in E.
  - destruct (CircularQueue.front (quarantine_ h)); [discriminate|].
    injection E as _ <-. apply rtc_refl.
  - destruct (quarantine_ h) as [|i q] eqn:Hq; cbn [CircularQueue.front head] in E.
    { injection E as _ <-. apply rtc_refl. }
    pose proof (inv_region h Hinv) as Hregion.
    pose proof (inv_quarantine h Hinv) as Hquar. unfold quarantine_ok in Hquar.
    rewrite Hq in Hquar. apply Forall_cons in Hquar as [(s & Hs & Hst) _].
    assert (Hi : 0 <= i < slab_count_ h)
      by (apply slab_lookup_is_Some; [assumption|]; rewrite Hs; eauto).
    pose proof (index_not_invalid Hplat h i Hregion Hi) as Hinv_i.
    unmonad. destruct (Z.eqb_spec i kInvalidSlabIndex); [contradiction|].
    cbn [negb] in E. rewrite andb_false_r in E. unmonad.
    cbn [with_quarantine slab_info_] in E. rewrite Hs in E.
    set (h1 := with_slab_info _ _) in E.
    cbn [with_quarantine slab_info_] in E. rewrite Hs in E.
    assert (Hh1 : h1 = update_heap h i
                         {| state := kAllocatedSlab; info := info s |}
                         (free_slabs_ h) q).
    { subst h1. unfold with_slab_info, with_quarantine, update_heap,
        CircularQueue.pop. cbn. rewrite Hq. reflexivity. }
    assert (Hstep : transition h h1)
      by (rewrite Hh1; exact (unquarantines h i q s Hq Hs Hst)).
    apply (rtc_l _ _ h1); [exact Hstep|].
    apply (IH h1 (infos ++ [info s]) r h');
      [exact (transition_heap_inv h h1 Hinv Hstep)|exact E].
Qed.

(** Under the contract every public operation that returns has made the
    moves of the state machine: one at most, but for [Empty]. *)
Lemma run_operation_transitions h o h' :
  heap_inv h -> size_t_argument o -> respects_contract o h ->
  run_operation o h = Done tt h' ->
  rtc transition h h'
  /\ ((forall infos, o <> OpEmpty infos) -> transition h h').
Proof.
  intros Hinv Harg Hcontract Hrun.
  pose proof (inv_region h Hinv) as Hregion.
  pose proof (heap_inv_free_slabs_ok h Hinv) as Hfree.
  assert (Hone : forall P : Prop, transition h h' ->
                   rtc transition h h' /\ (P -> transition h h'))
    by (intros P Hstep; split; [apply rtc_once; exact Hstep|auto]).
  assert (Hfreed : forall p b h1, Free p h = Done b h1 ->
            (forall i s, GetSlabIndex h p = i -> i <> kInvalidSlabIndex ->
               slab_lookup (slab_info_ h) i = Some s -> block (info s) = p ->
               state s <> kQuarantinedSlab) ->
            transition h h1).
  { intros p b h1 E Hc.
    destruct (Z.eq_dec p NULL) as [->|Hp].
    { cbn in E. injection E as _ <-. apply stays. }
    rewrite (Free_slab_of Hplat h p Hregion Hp) in E.
    destruct (slab_of h p) as [s|] eqn:Hs;
      [|injection E as _ <-; apply stays].
    destruct (Z.eqb_spec (block (info s)) p) as [Eb|Eb]; cbn [negb] in E;
      [|injection E as _ <-; apply stays].
    destruct (slab_of_Some h p s Hs) as [Hvalid Hlook].
    destruct (state s) eqn:Hst.
    - injection E as _ <-. apply stays.
    - injection E as _ <-.
      exact (releases h (GetSlabIndex h p) s Hlook Hst).
    - exfalso. exact (Hc _ s eq_refl Hvalid Hlook Eb Hst). }
  destruct o; cbn [run_operation] in Hrun; unfold forget, bind, ret in Hrun.
  - destruct (Allocate bytes h) as [p h1|] eqn:E; [|discriminate].
    injection Hrun as <-. apply Hone.
    destruct (Z.eq_dec p NULL) as [->|Hp].
    + destruct (Z.eq_dec bytes 0) as [E0|E0];
        [|destruct (Z_lt_dec GetPageSize bytes) as [Ebig|Ebig];
          [|destruct (free_slabs_ h) as [|i q] eqn:Hq]].
      1-3: rewrite Allocate_rejects in E by auto; injection E as <-;
           apply stays.
      assert (Hi : 0 <= i < slab_count_ h).
      { unfold free_slabs_ok in Hfree. rewrite Hq in Hfree.
        apply Forall_cons in Hfree as [Hi _]. exact Hi. }
      rewrite (Allocate_success Hplat h bytes i q) in E
        by (try assumption; cbn in Harg; lia).
      injection E as Hnull _.
      destruct (placed_resolves Hplat h i bytes Hregion Hi) as [Hnn _];
        [cbn in Harg; lia|contradiction].
    + destruct (Allocate_returned Hplat h bytes p h1 Hregion Hfree Harg E Hp)
        as (i & q & Hq & Hi & Hb & -> & ->).
      assert (Hin : i ∈ free_slabs_ h) by (rewrite Hq; apply list_elem_of_here).
      pose proof (inv_free h Hinv) as Hfr. rewrite Forall_forall in Hfr.
      destruct (Hfr i Hin) as (s & Hs & Hst).
      replace (after_allocate h i bytes)
        with (update_heap h i
                {| state := kAllocatedSlab;
                   info := info (allocated_slab h i bytes) |}
                q (quarantine_ h))
        by (unfold after_allocate, store_slab, with_slab_info,
              with_free_slabs, update_heap; cbn; rewrite Hq; reflexivity).
      apply (takes_free h i q s); try assumption.
      intros _. cbn [allocated_slab info block block_size].
      pose proof (placed_bounds Hplat h i bytes Hregion ltac:(lia)) as Hpl.
      fold (placed h i bytes) in Hpl.
      pose proof (slab_base_bounds Hplat h i Hregion Hi) as [Hlo _].
      pose proof (page_size_pos Hplat).
      destruct Hregion. unfold NULL. lia.
  - destruct (Free alloc h) as [b h1|] eqn:E; [|discriminate].
    injection Hrun as <-. apply Hone. exact (Hfreed _ _ _ E Hcontract).
  - rewrite IsAllocated_slab_of in Hrun by assumption.
    injection Hrun as <-. apply Hone, stays.
  - rewrite GetAllocationSize_slab_of in Hrun by assumption.
    injection Hrun as <-. apply Hone, stays.
  - destruct (AllocateBlock _ _ _ _ h) as [res h1|] eqn:E; [|discriminate].
    injection Hrun as <-. apply Hone.
    destruct (Z.eq_dec (ab_alloc res) NULL) as [Hnull|Hp].
    + destruct (Z_lt_dec GetPageSize (size_add min_left_redzone_size size))
        as [Hl|Hl].
      { rewrite AllocateBlock_rejects_request in E by auto.
        injection E as _ <-. apply stays. }
      destruct (Z_lt_dec GetPageSize min_right_redzone_size) as [Hr|Hr].
      { rewrite AllocateBlock_rejects_request in E by auto.
        injection E as _ <-. apply stays. }
      rewrite (AllocateBlock_planned Hplat h _ _ _ layout) in E
        by (try assumption; lia).
      cbv zeta in E.
      destruct (layout_accepted _); [|injection E as _ <-; apply stays].
      destruct (free_slabs_ h) as [|i q] eqn:Hq;
        [injection E as _ <-; apply stays|].
      injection E as <- _. cbn [ab_alloc] in Hnull.
      assert (Hi : 0 <= i < slab_count_ h).
      { unfold free_slabs_ok in Hfree. rewrite Hq in Hfree.
        apply Forall_cons in Hfree as [Hi _]. exact Hi. }
      pose proof (slab_base_bounds Hplat h i Hregion Hi) as [Hlo _].
      exfalso. destruct Hregion. unfold NULL in Hnull. lia.
    + destruct (AllocateBlock_returned Hplat h _ _ _ _ res h1 Hregion Hfree
                  E Hp) as (i & q & Hq & Hi & Hsize & Hres & ->).
      assert (Hin : i ∈ free_slabs_ h) by (rewrite Hq; apply list_elem_of_here).
      pose proof (inv_free h Hinv) as Hfr. rewrite Forall_forall in Hfr.
      destruct (Hfr i Hin) as (s & Hs & Hst).
      replace (store_slab i (block_slab h i (ab_layout res))
                 (with_free_slabs CircularQueue.pop h))
        with (update_heap h i
                {| state := kAllocatedSlab;
                   info := info (block_slab h i (ab_layout res)) |}
                q (quarantine_ h))
        by (unfold store_slab, with_slab_info, with_free_slabs, update_heap;
            cbn; rewrite Hq; reflexivity).
      apply (takes_free h i q s); try assumption.
      intros _. cbn [block_slab info block block_size]. rewrite Hsize.
      pose proof (slab_base_bounds Hplat h i Hregion Hi) as [Hlo _].
      pose proof (page_size_pos Hplat).
      destruct Hregion. unfold NULL. lia.
  - apply Hone. unfold FreeBlock in Hrun. unmonad.
    destruct (dcheck_is_on && negb (negb (block_info_block =? NULL)));
      [discriminate|].
    unmonad. destruct (Free block_info_block h) as [b h1|] eqn:E;
      [|discriminate].
    assert (h' = h1) by (destruct b; cbn in Hrun; congruence). subst h1.
    exact (Hfreed _ _ _ E Hcontract).
  - destruct (Push info0 h) as [b h1|] eqn:E; [|discriminate].
    injection Hrun as <-. apply Hone.
    rewrite (Push_slab_of Hplat h info0 Hregion) in E.
    destruct (slab_of h (block info0)) as [s|] eqn:Hs;
      [|injection E as _ <-; apply stays].
    destruct (slab_of_Some h _ s Hs) as [Hvalid Hlook].
    destruct (decide (state s = kAllocatedSlab)) as [Hst|Hst];
      [|rewrite (bool_decide_eq_false_2 _ Hst) in E; cbn in E;
        injection E as _ <-; apply stays].
    unfold memcmp_eq in E.
    destruct (decide (info s = info0)) as [Hinfo|Hinfo];
      [|rewrite (bool_decide_eq_false_2 _ Hinfo), andb_false_r in E;
        injection E as _ <-; apply stays].
    rewrite !bool_decide_eq_true_2 in E by assumption. cbn [andb] in E.
    injection E as _ <-. subst info0.
    exact (quarantines h _ s Hlook Hst).
  - destruct (Pop info0 h) as [r h1|] eqn:E; [|discriminate].
    injection Hrun as <-. apply Hone.
    destruct (QuarantineInvariantIsSatisfied h) eqn:Esat.
    { rewrite Pop_satisfied in E by assumption. injection E as _ <-.
      apply stays. }
    destruct (quarantine_ h) as [|i q] eqn:Hq.
    { unfold QuarantineInvariantIsSatisfied in Esat. rewrite Hq in Esat.
      discriminate Esat. }
    pose proof (inv_quarantine h Hinv) as Hquar. unfold quarantine_ok in Hquar.
    rewrite Hq in Hquar. apply Forall_cons in Hquar as [(s & Hs & Hst) _].
    rewrite (Pop_evicts Hplat h info0 i q s) in E by assumption.
    injection E as _ <-.
    replace (after_pop h i (info s))
      with (update_heap h i {| state := kAllocatedSlab; info := info s |}
              (free_slabs_ h) q)
      by (unfold after_pop, store_slab, with_slab_info, with_quarantine,
            update_heap; cbn; rewrite Hq; reflexivity).
    exact (unquarantines h i q s Hq Hs Hst).
  - destruct (Empty infos h) as [r h1|] eqn:E; [|discriminate].
    injection Hrun as <-. split.
    + exact (Empty_loop_transitions _ h infos r h1 Hinv E).
    + intros Hno. exfalso. exact (Hno infos eq_refl).
  - cbn in Hrun. injection Hrun as <-. apply Hone, stays.
  - apply Hone. unfold set_quarantine_ratio in Hrun. unmonad.
    destruct (dcheck_is_on && negb (SFleb (to_float 0) quarantine_ratio));
      [discriminate|].
    unmonad.
    destruct (dcheck_is_on && negb (SFleb quarantine_ratio (to_float 1)));
      [discriminate|].
    unmonad. injection Hrun as <-. apply sets_ratio.
Qed.

End StateMachine.

(** X14: under the contract every public operation that returns moves the
    heap along the slab state machine.  Apart from [Empty], an operation
    makes one move at most: it leaves the heap as it was, changes the
    ratio, or changes the state of one slab together with its queue (the
    head of the free queue becomes allocated, an allocated slab goes to the
    tail of the free queue or of the quarantine, the head of the quarantine
    becomes allocated).  [Empty] makes a sequence of such moves. *)
Theorem operations_follow_state_machine `{Platform} `{Collaborators}
    (h h' : ZebraBlockHeap) (o : operation) :
  platform_ok -> heap_inv h -> size_t_argument o -> respects_contract o h ->
  run_operation o h = Done tt h' ->
  rtc transition h h'
  /\ ((forall infos, o <> OpEmpty infos) -> transition h h').
Proof.
  intros Hplat Hinv Harg Hcontract Hrun.
  exact (run_operation_transitions Hplat h o h' Hinv Harg Hcontract Hrun).
Qed.

Lemma operations_follow_state_machine_witness :
  transition (H := win32 false) allocated_heap quarantined_heap.
Proof.
  destruct (operations_follow_state_machine (H := win32 false)
              (H0 := sample_collaborators) allocated_heap quarantined_heap
              (OpPush five_bytes) ltac:(evaluate)
              (proj1 (proj2 (concrete_heaps_inv false))) I I
              ltac:(evaluate)) as [_ Hone].
  apply Hone. intros infos. discriminate.
Defined.

(** ** Accounting for every slab *)

Section Accounting.
Context `{Platform} `{Collaborators}.
Hypothesis Hplat : platform_ok.

(** The constructor accounts for every slab: all are free, zeroed, and in
    the free queue. *)
Lemma accounted_new heap_size h0 :
  ZebraBlockHeap_new heap_size = Done tt h0 -> slab_accounted h0.
Proof.
  intros Hrun.
  destruct (ZebraBlockHeap_new_heap heap_size h0 Hrun) as [_ ->].
  intros i s. cbn [slab_info_ free_slabs_ quarantine_].
  unfold slab_lookup. destruct (Z.leb_spec 0 i) as [Hi|]; [|discriminate].
  intros Hs. apply lookup_replicate in Hs as [-> Hlt]. cbn.
  split; [|reflexivity]. apply elem_of_seqZ. lia.
Qed.

(** Both invariants hold of every heap reached under the contract. *)
Lemma reachable_invariants h0 h :
  heap_inv h0 -> slab_accounted h0 -> reachable h0 h ->
  heap_inv h /\ slab_accounted h.
Proof.
  intros Hinv0 Hacc0 Hreach.
  induction Hreach as [|h o h' _ [Hinv Hacc] Harg Hcontract Hrun].
  - split; assumption.
  - destruct (run_operation_transitions Hplat h o h' Hinv Harg Hcontract Hrun)
      as [Hsteps _].
    exact (transitions_keep_invariants h h' Hinv Hacc Hsteps).
Qed.

(** With [DCHECK]s, a sequence of operations that returns has reached its
    heap under the contract. *)
Lemma debug_build_reachable os : forall hs h0 h,
  dcheck_is_on = true -> reachable hs h0 -> heap_inv h0 ->
  Forall size_t_argument os ->
  run_operations os h0 = Done tt h -> reachable hs h.
Proof.
  induction os as [|o os IH]; intros hs h0 h Hon Hreach Hinv Hargs Hrun.
  - cbn in Hrun. injection Hrun as <-. exact Hreach.
  - apply Forall_cons in Hargs as [Harg Hargs].
    cbn [run_operations] in Hrun. unfold bind in Hrun.
    destruct (run_operation o h0) as [[] h1|] eqn:E; [|discriminate].
    pose proof (dcheck_enforces_contract Hplat h0 o h1 Hon
                  (inv_region h0 Hinv) E) as Hcontract.
    apply (IH hs h1 h Hon); try assumption.
    + exact (reachable_step hs h0 o h1 Hreach Harg Hcontract E).
    + exact (heap_inv_run_operation Hplat h0 o h1 Hinv Harg Hcontract E).
Qed.

(** Under the invariant the blocks of two slabs in use follow each other
    in the region, in the order of their slabs. *)
Lemma blocks_in_order h i j s t :
  heap_inv h ->
  slab_lookup (slab_info_ h) i = Some s ->
  slab_lookup (slab_info_ h) j = Some t ->
  state s <> kFreeSlab -> state t <> kFreeSlab -> i < j ->
  heap_address_ h <= block (info s)
  /\ block (info s) + block_size (info s) <= block (info t)
  /\ block (info t) + block_size (info t) <= heap_address_ h + heap_size_ h.
Proof.
  intros Hinv Hs Ht Hsu Htu Hij.
  pose proof (inv_region h Hinv) as Hregion.
  destruct (inv_blocks h Hinv i s Hs Hsu) as (_ & [Hsl _] & Hsh).
  destruct (inv_blocks h Hinv j t Ht Htu) as (_ & [Htl _] & Hth).
  assert (Hi : 0 <= i < slab_count_ h)
    by (apply slab_lookup_is_Some; [assumption|]; rewrite Hs; eauto).
  assert (Hj : 0 <= j < slab_count_ h)
    by (apply slab_lookup_is_Some; [assumption|]; rewrite Ht; eauto).
  pose proof (page_size_pos Hplat) as Hpage.
  pose proof (slab_base_bounds Hplat h i Hregion Hi) as [Hlo _].
  pose proof (slab_base_bounds Hplat h j Hregion Hj) as [_ Hhi].
  assert (Hnext : slab_base h i + 2 * GetPageSize <= slab_base h j)
    by (unfold slab_base; nia).
  lia.
Qed.

End Accounting.

(** X15: every slab of a heap reached from the constructor under the
    contract is accounted for.  A slab is [kFreeSlab] exactly when its index
    waits in the free queue, and then its descriptor is zeroed; it is
    [kQuarantinedSlab] exactly when its index waits in the quarantine; and
    no index waits twice, or in both queues. *)
Theorem reachable_slabs_accounted `{Platform} `{Collaborators}
    (heap_size : Z) (h0 h : ZebraBlockHeap) :
  platform_ok ->
  ZebraBlockHeap_new heap_size = Done tt h0 ->
  0 <= heap_address_ h0 ->
  heap_address_ h0 mod GetPageSize = 0 ->
  heap_address_ h0 + heap_size_ h0 < 2 ^ size_bits ->
  reachable h0 h ->
  NoDup (free_slabs_ h ++ quarantine_ h)
  /\ forall i s,
       slab_lookup (slab_info_ h) i = Some s ->
       (state s = kFreeSlab <-> i ∈ free_slabs_ h)
       /\ (state s = kQuarantinedSlab <-> i ∈ quarantine_ h)
       /\ (state s = kFreeSlab -> info s = zero_info).
Proof.
  intros Hplat Hnew Hnonneg Haligned Hfits Hreach.
  pose proof (heap_inv_new Hplat heap_size h0 Hnew Hnonneg Haligned Hfits)
    as Hinv0.
  destruct (reachable_invariants Hplat h0 h Hinv0
              (accounted_new heap_size h0 Hnew) Hreach) as [Hinv Hacc].
  split.
  { apply NoDup_app. split; [exact (inv_free_nodup h Hinv)|].
    split; [|exact (inv_quarantine_nodup h Hinv)].
    intros i Hi Hq. exact (free_not_quarantined h i i Hinv Hi Hq eq_refl). }
  intros i s Hs. specialize (Hacc i s Hs).
  pose proof (inv_free h Hinv) as Hfree. rewrite Forall_forall in Hfree.
  pose proof (inv_quarantine h Hinv) as Hquar. unfold quarantine_ok in Hquar.
  rewrite Forall_forall in Hquar.
  repeat split.
  - intros Hst. rewrite Hst in Hacc. exact (proj1 Hacc).
  - intros Hi. destruct (Hfree i Hi) as (s' & Hs' & Hst). congruence.
  - intros Hst. rewrite Hst in Hacc. exact Hacc.
  - intros Hi. destruct (Hquar i Hi) as (s' & Hs' & Hst). congruence.
  - intros Hst. rewrite Hst in Hacc. exact (proj2 Hacc).
Qed.

Lemma reachable_slabs_accounted_witness :
  (state {| state := kQuarantinedSlab; info := five_bytes |} = kFreeSlab
   <-> 0 ∈ free_slabs_ quarantined_heap)
  /\ (state {| state := kQuarantinedSlab; info := five_bytes |}
      = kQuarantinedSlab
      <-> 0 ∈ quarantine_ quarantined_heap).
Proof.
  assert (Hreach : reachable (H := win32 false) (H0 := sample_collaborators)
                     fresh_heap quarantined_heap).
  { apply (reachable_step _ allocated_heap (OpPush five_bytes));
      [apply (reachable_step _ fresh_heap (OpAllocate 5));
         [apply reachable_fresh|..]|..];
      evaluate; exact I. }
  destruct (reachable_slabs_accounted (H := win32 false)
              (H0 := sample_collaborators) 16384 fresh_heap quarantined_heap
              ltac:(evaluate) (fresh_heap_constructed false)
              ltac:(evaluate) ltac:(evaluate) ltac:(evaluate) Hreach)
    as [_ Hslabs].
  destruct (Hslabs 0 {| state := kQuarantinedSlab; info := five_bytes |}
              eq_refl) as (Hfree & Hquar & _).
  split; assumption.
Defined.

(** X16: in a build with [DCHECK]s the blocks in use never overlap.
    Whatever sequence of operations returns on a freshly constructed heap,
    the blocks recorded for two slabs that are not free lie in the reserved
    region, one after the other in the order of their slabs. *)
Theorem debug_build_blocks_never_overlap `{Platform} `{Collaborators}
    (heap_size : Z) (os : list operation) (h0 h : ZebraBlockHeap) :
  platform_ok -> dcheck_is_on = true ->
  ZebraBlockHeap_new heap_size = Done tt h0 ->
  0 <= heap_address_ h0 ->
  heap_address_ h0 mod GetPageSize = 0 ->
  heap_address_ h0 + heap_size_ h0 < 2 ^ size_bits ->
  Forall size_t_argument os ->
  run_operations os h0 = Done tt h ->
  forall i j s t,
    slab_lookup (slab_info_ h) i = Some s ->
    slab_lookup (slab_info_ h) j = Some t ->
    state s <> kFreeSlab -> state t <> kFreeSlab -> i < j ->
    heap_address_ h <= block (info s)
    /\ block (info s) + block_size (info s) <= block (info t)
    /\ block (info t) + block_size (info t) <= heap_address_ h + heap_size_ h.
Proof.
  intros Hplat Hon Hnew Hnonneg Haligned Hfits Hargs Hrun i j s t.
  pose proof (heap_inv_new Hplat heap_size h0 Hnew Hnonneg Haligned Hfits)
    as Hinv0.
  pose proof (debug_build_reachable Hplat os h0 h0 h Hon (reachable_fresh h0)
                Hinv0 Hargs Hrun) as Hreach.
  pose proof (heap_inv_reachable Hplat h0 h Hinv0 Hreach) as Hinv.
  exact (blocks_in_order Hplat h i j s t Hinv).
Qed.

Lemma debug_build_blocks_never_overlap_witness :
  run_operations (H := win32 true) (H0 := sample_collaborators)
    [OpAllocate 5; OpAllocate 5] fresh_heap
  = Done tt exhausted_heap
  /\ 65536 <= 69624 /\ 69624 + 5 <= 77816 /\ 77816 + 5 <= 65536 + 16384.
Proof.
  assert (Hrun : run_operations (H := win32 true) (H0 := sample_collaborators)
                   [OpAllocate 5; OpAllocate 5] fresh_heap
                 = Done tt exhausted_heap) by (vm_compute; reflexivity).
  split; [exact Hrun|].
  exact (debug_build_blocks_never_overlap (H := win32 true)
           (H0 := sample_collaborators) 16384 [OpAllocate 5; OpAllocate 5]
           fresh_heap exhausted_heap
           ltac:(evaluate) eq_refl (fresh_heap_constructed true)
           ltac:(evaluate) ltac:(evaluate) ltac:(evaluate)
           ltac:(repeat constructor; evaluate) Hrun
           0 1 _ _ eq_refl eq_refl ltac:(discriminate) ltac:(discriminate)
           ltac:(lia)).
Defined.

(** X17: the queues never outgrow the capacity the constructor gave them.
    In every heap reached from the constructor under the contract the free
    queue and the quarantine together hold at most [slab_count_] indices,
    each of them the index of a slab of the table. *)
Theorem reachable_queues_within_capacity `{Platform} `{Collaborators}
    (heap_size : Z) (h0 h : ZebraBlockHeap) :
  platform_ok ->
  ZebraBlockHeap_new heap_size = Done tt h0 ->
  0 <= heap_address_ h0 ->
  heap_address_ h0 mod GetPageSize = 0 ->
  heap_address_ h0 + heap_size_ h0 < 2 ^ size_bits ->
  reachable h0 h ->
  CircularQueue.size (free_slabs_ h) + CircularQueue.size (quarantine_ h)
  <= slab_count_ h
  /\ slab_count_ h = slab_count_ h0
  /\ Forall (fun i => 0 <= i < slab_count_ h) (free_slabs_ h ++ quarantine_ h).
Proof.
  intros Hplat Hnew Hnonneg Haligned Hfits Hreach.
  pose proof (heap_inv_new Hplat heap_size h0 Hnew Hnonneg Haligned Hfits)
    as Hinv0.
  pose proof (heap_inv_reachable Hplat h0 h Hinv0 Hreach) as Hinv.
  pose proof (inv_region h Hinv) as Hregion.
  split; [exact (queues_within_capacity h Hinv)|]. split.
  - clear Hinv Hregion. induction Hreach as [|h o h' _ IH _ _ Hrun];
      [reflexivity|].
    rewrite <- IH.
    destruct (keeps_run_operation o h tt h' Hrun) as (_ & _ & Hcount & _).
    exact Hcount.
  - apply Forall_app. split; [exact (heap_inv_free_slabs_ok h Hinv)|].
    pose proof (inv_quarantine h Hinv) as Hquar. unfold quarantine_ok in Hquar.
    eapply Forall_impl; [exact Hquar|].
    intros i (s & Hs & _). cbn beta.
    apply slab_lookup_is_Some; [assumption|]. rewrite Hs. eauto.
Qed.

Lemma reachable_queues_within_capacity_witness :
  CircularQueue.size (free_slabs_ quarantined_heap)
  + CircularQueue.size (quarantine_ quarantined_heap)
  <= slab_count_ quarantined_heap.
Proof.
  assert (Hreach : reachable (H := win32 false) (H0 := sample_collaborators)
                     fresh_heap quarantined_heap).
  { apply (reachable_step _ allocated_heap (OpPush five_bytes));
      [apply (reachable_step _ fresh_heap (OpAllocate 5));
         [apply reachable_fresh|..]|..];
      evaluate; exact I. }
  exact (proj1 (reachable_queues_within_capacity (H := win32 false)
                  (H0 := sample_collaborators) 16384 fresh_heap
                  quarantined_heap
                  ltac:(evaluate) (fresh_heap_constructed false)
                  ltac:(evaluate) ltac:(evaluate) ltac:(evaluate) Hreach)).
Defined.

(** The indices a queue holds, when it holds exactly the slabs of one
    state without repetition, are as many as the slabs of that state. *)
Lemma queue_counts_state `{Platform} (h : ZebraBlockHeap) (q : list Z)
    (st : SlabState) :
  region_ok h -> NoDup q ->
  (forall i, i ∈ q <->
     exists s, slab_lookup (slab_info_ h) i = Some s /\ state s = st) ->
  CircularQueue.size q = Z.of_nat (length (slabs_in_state h st)).
Proof.
  intros Hregion Hnd Hq. unfold CircularQueue.size. f_equal.
  apply Permutation_length, NoDup_Permutation; [exact Hnd| |].
  { apply NoDup_filter, NoDup_seqZ. }
  intros i. unfold slabs_in_state. rewrite list_elem_of_filter, Hq.
  split.
  - intros (s & Hs & Hst). rewrite Hs. split; [cbn; congruence|].
    apply elem_of_seqZ.
    assert (0 <= i < slab_count_ h)
      by (apply slab_lookup_is_Some; [assumption|]; rewrite Hs; eauto).
    lia.
  - intros [Hst _].
    destruct (slab_lookup (slab_info_ h) i) as [s|]; [|discriminate].
    exists s. split; [reflexivity|]. cbn in Hst. congruence.
Qed.

(** X18: the queues count the slabs.  In every heap reached from the
    constructor under the contract, [GetCount] returns the number of slabs
    of the table that are [kQuarantinedSlab], and the free queue holds as
    many indices as there are [kFreeSlab] slabs. *)
Theorem queues_count_slab_states `{Platform} `{Collaborators}
    (heap_size : Z) (h0 h : ZebraBlockHeap) :
  platform_ok ->
  ZebraBlockHeap_new heap_size = Done tt h0 ->
  0 <= heap_address_ h0 ->
  heap_address_ h0 mod GetPageSize = 0 ->
  heap_address_ h0 + heap_size_ h0 < 2 ^ size_bits ->
  reachable h0 h ->
  GetCount h
  = Done (Z.of_nat (length (slabs_in_state h kQuarantinedSlab))) h
  /\ CircularQueue.size (free_slabs_ h)
     = Z.of_nat (length (slabs_in_state h kFreeSlab)).
Proof.
  intros Hplat Hnew Hnonneg Haligned Hfits Hreach.
  pose proof (heap_inv_new Hplat heap_size h0 Hnew Hnonneg Haligned Hfits)
    as Hinv0.
  destruct (reachable_invariants Hplat h0 h Hinv0
              (accounted_new heap_size h0 Hnew) Hreach) as [Hinv Hacc].
  pose proof (inv_region h Hinv) as Hregion.
  pose proof (inv_free h Hinv) as Hfree. rewrite Forall_forall in Hfree.
  pose proof (inv_quarantine h Hinv) as Hquar. unfold quarantine_ok in Hquar.
  rewrite Forall_forall in Hquar.
  split.
  - unfold GetCount, bind, get, ret. f_equal.
    apply queue_counts_state;
      [exact Hregion|exact (inv_quarantine_nodup h Hinv)|].
    intros i. split; [exact (Hquar i)|].
    intros (s & Hs & Hst). specialize (Hacc i s Hs). rewrite Hst in Hacc.
    exact Hacc.
  - apply queue_counts_state;
      [exact Hregion|exact (inv_free_nodup h Hinv)|].
    intros i. split; [exact (Hfree i)|].
    intros (s & Hs & Hst). specialize (Hacc i s Hs). rewrite Hst in Hacc.
    exact (proj1 Hacc).
Qed.

Lemma queues_count_slab_states_witness :
  GetCount quarantined_heap = Done 1 quarantined_heap
  /\ CircularQueue.size (free_slabs_ quarantined_heap) = 1.
Proof.
  assert (Hreach : reachable (H := win32 false) (H0 := sample_collaborators)
                     fresh_heap quarantined_heap).
  { apply (reachable_step _ allocated_heap (OpPush five_bytes));
      [apply (reachable_step _ fresh_heap (OpAllocate 5));
         [apply reachable_fresh|..]|..];
      evaluate; exact I. }
  exact (queues_count_slab_states (H := win32 false)
           (H0 := sample_collaborators) 16384 fresh_heap quarantined_heap
           ltac:(evaluate) (fresh_heap_constructed false)
           ltac:(evaluate) ltac:(evaluate) ltac:(evaluate) Hreach).
Defined.
